(** * go-l2tp: the configuration loader and the L2TP context registry

    A shallow embedding of two Go sources:
    - the TOML configuration loader ([toBytes], [newSessionConfig],
      [newTunnelConfig], [loadTunnels], [LoadFile], [LoadString]);
    - the L2TP context ([NewContext], the three tunnel factories, the event
      handler list, [Close], [allocTid], [allocSid], [allocCallSerial]).

    Go values are modelled as follows.
    - [uint32], [int64], [time.Duration] and the enum-like integer types are
      [Z]; a conversion that truncates is written with [mod].
    - A Go [error] made by [fmt.Errorf] is kept unformatted: the format string
      of the call site, verbatim, and the list of its arguments.
    - A Go map that the code only looks up, inserts into and deletes from is a
      [gmap].  A map the code ranges over has no fixed order in Go: the order
      of one run is an explicit part of the input.
    - A pointer to a [TunnelConfig] is a location in a store of structs. *)

From Stdlib Require Import ZArith List Lia.
From stdpp Require Import gmap strings list fin_maps.

Set Warnings "-register-all".

Local Open Scope string_scope.
Local Open Scope list_scope.
Local Open Scope Z_scope.

(** ** Dynamically typed values of a decoded TOML tree

    go-toml's [Tree.ToMap] yields [map[string]interface{}] whose values are
    [bool], [int64], [uint64], [float64], [string], [[]interface{}], nested
    maps, and a few other types (dates, arrays of tables).  The entries of a
    [VMap] are listed in the order in which this run's [range] visits them. *)
Inductive Value : Type :=
| VBool (b : bool)
| VInt64 (n : Z)
| VUint64 (n : Z)
| VFloat64 (bits : Z)
| VString (s : string)
| VArray (elems : list Value)
| VMap (entries : list (string * Value))
| VOther (typ : string).

(** ** Errors and results *)

(** [fmt.Errorf(format, args...)], unformatted. *)
Inductive error : Type :=
| Errorf (format : string) (args : list fmtArg)
with fmtArg : Type :=
| ArgString (s : string)
| ArgInt (n : Z)
| ArgValue (v : Value)
| ArgError (e : error).

(** What a Go call that returns [(value, error)] gives back. *)
Inductive result (A : Type) : Type :=
| Ok (a : A)
| Err (e : error).
Arguments Ok {A} a.
Arguments Err {A} e.

Definition is_Err {A} (r : result A) : Prop :=
  match r with Err _ => True | _ => False end.

Definition is_Ok {A} (r : result A) : Prop :=
  match r with Ok _ => True | _ => False end.

(** [r, err = f(v)] followed by [if err != nil { return ... }]. *)
Definition andThen {A B} (r : result A) (k : A -> result B) : result B :=
  match r with
  | Ok a => k a
  | Err e => Err e
  end.

(** [fmt.Errorf(format, ..., err)] around a failing call. *)
Definition wrapErr {A} (w : error -> error) (r : result A) : result A :=
  match r with
  | Ok a => Ok a
  | Err e => Err (w e)
  end.

(** The string [k] occurs as a string argument somewhere in the error [e],
    that is, the formatted message prints [k] through one of its verbs. *)
Fixpoint names (k : string) (e : error) : Prop :=
  match e with
  | Errorf _ args =>
      (fix any (l : list fmtArg) : Prop :=
         match l with
         | [] => False
         | ArgString s :: l' => s = k \/ any l'
         | ArgError e' :: l' => names k e' \/ any l'
         | _ :: l' => any l'
         end) args
  end.

(** [m[k]] on the entries of a decoded TOML table. *)
Fixpoint lookup_key (k : string) (entries : list (string * Value)) : option Value :=
  match entries with
  | [] => None
  | (k', v) :: rest => if String.eqb k k' then Some v else lookup_key k rest
  end.

(** ** Constants *)

(** [ProtocolVersion2] and [ProtocolVersion3] (nll2tp: 2 and 3). *)
Definition ProtocolVersion2 : Z := 2.
Definition ProtocolVersion3 : Z := 3.

(** The enum constants whose declarations are outside the translated sources.
    Only their identity matters to the code below. *)
Record Consts : Type := {
  EncapTypeUDP : Z;
  EncapTypeIP : Z;
  PseudowireTypePPP : Z;
  PseudowireTypeEth : Z;
  L2SpecTypeNone : Z;
  L2SpecTypeDefault : Z
}.

(** * The configuration loader *)
Module Config.

(** [SessionConfig]; [Cookie] and [PeerCookie] are byte slices, a byte being
    a [Z] in [0, 256). *)
Record SessionConfig : Type := {
  SessionID : Z;
  PeerSessionID : Z;
  Pseudowire : Z;
  SeqNum : bool;
  ReorderTimeout : Z;
  Cookie : list Z;
  PeerCookie : list Z;
  InterfaceName : string;
  L2SpecType : Z
}.

(** [TunnelConfig], as the loader declares it. *)
Record TunnelConfig : Type := {
  Local : string;
  Peer : string;
  Encap : Z;
  Version : Z;
  TunnelID : Z;
  PeerTunnelID : Z;
  Sessions : gmap string SessionConfig
}.

Record Config : Type := {
  cm : list (string * Value);
  tunnels : gmap string TunnelConfig
}.

(** [SessionConfig{}] *)
Definition SessionConfig_zero : SessionConfig :=
  {| SessionID := 0; PeerSessionID := 0; Pseudowire := 0; SeqNum := false;
     ReorderTimeout := 0; Cookie := []; PeerCookie := []; InterfaceName := "";
     L2SpecType := 0 |}.

(** [TunnelConfig{Sessions: make(map[string]*SessionConfig)}] *)
Definition TunnelConfig_zero : TunnelConfig :=
  {| Local := ""; Peer := ""; Encap := 0; Version := 0; TunnelID := 0;
     PeerTunnelID := 0; Sessions := ∅ |}.

Definition set_SessionID (x : Z) (sc : SessionConfig) : SessionConfig :=
  {| SessionID := x; PeerSessionID := PeerSessionID sc; Pseudowire := Pseudowire sc;
     SeqNum := SeqNum sc; ReorderTimeout := ReorderTimeout sc; Cookie := Cookie sc;
     PeerCookie := PeerCookie sc; InterfaceName := InterfaceName sc;
     L2SpecType := L2SpecType sc |}.
Definition set_PeerSessionID (x : Z) (sc : SessionConfig) : SessionConfig :=
  {| SessionID := SessionID sc; PeerSessionID := x; Pseudowire := Pseudowire sc;
     SeqNum := SeqNum sc; ReorderTimeout := ReorderTimeout sc; Cookie := Cookie sc;
     PeerCookie := PeerCookie sc; InterfaceName := InterfaceName sc;
     L2SpecType := L2SpecType sc |}.
Definition set_Pseudowire (x : Z) (sc : SessionConfig) : SessionConfig :=
  {| SessionID := SessionID sc; PeerSessionID := PeerSessionID sc; Pseudowire := x;
     SeqNum := SeqNum sc; ReorderTimeout := ReorderTimeout sc; Cookie := Cookie sc;
     PeerCookie := PeerCookie sc; InterfaceName := InterfaceName sc;
     L2SpecType := L2SpecType sc |}.
Definition set_SeqNum (x : bool) (sc : SessionConfig) : SessionConfig :=
  {| SessionID := SessionID sc; PeerSessionID := PeerSessionID sc;
     Pseudowire := Pseudowire sc; SeqNum := x; ReorderTimeout := ReorderTimeout sc;
     Cookie := Cookie sc; PeerCookie := PeerCookie sc;
     InterfaceName := InterfaceName sc; L2SpecType := L2SpecType sc |}.
Definition set_ReorderTimeout (x : Z) (sc : SessionConfig) : SessionConfig :=
  {| SessionID := SessionID sc; PeerSessionID := PeerSessionID sc;
     Pseudowire := Pseudowire sc; SeqNum := SeqNum sc; ReorderTimeout := x;
     Cookie := Cookie sc; PeerCookie := PeerCookie sc;
     InterfaceName := InterfaceName sc; L2SpecType := L2SpecType sc |}.
Definition set_Cookie (x : list Z) (sc : SessionConfig) : SessionConfig :=
  {| SessionID := SessionID sc; PeerSessionID := PeerSessionID sc;
     Pseudowire := Pseudowire sc; SeqNum := SeqNum sc;
     ReorderTimeout := ReorderTimeout sc; Cookie := x; PeerCookie := PeerCookie sc;
     InterfaceName := InterfaceName sc; L2SpecType := L2SpecType sc |}.
Definition set_PeerCookie (x : list Z) (sc : SessionConfig) : SessionConfig :=
  {| SessionID := SessionID sc; PeerSessionID := PeerSessionID sc;
     Pseudowire := Pseudowire sc; SeqNum := SeqNum sc;
     ReorderTimeout := ReorderTimeout sc; Cookie := Cookie sc; PeerCookie := x;
     InterfaceName := InterfaceName sc; L2SpecType := L2SpecType sc |}.
Definition set_InterfaceName (x : string) (sc : SessionConfig) : SessionConfig :=
  {| SessionID := SessionID sc; PeerSessionID := PeerSessionID sc;
     Pseudowire := Pseudowire sc; SeqNum := SeqNum sc;
     ReorderTimeout := ReorderTimeout sc; Cookie := Cookie sc;
     PeerCookie := PeerCookie sc; InterfaceName := x; L2SpecType := L2SpecType sc |}.
Definition set_L2SpecType (x : Z) (sc : SessionConfig) : SessionConfig :=
  {| SessionID := SessionID sc; PeerSessionID := PeerSessionID sc;
     Pseudowire := Pseudowire sc; SeqNum := SeqNum sc;
     ReorderTimeout := ReorderTimeout sc; Cookie := Cookie sc;
     PeerCookie := PeerCookie sc; InterfaceName := InterfaceName sc;
     L2SpecType := x |}.

Definition set_Local (x : string) (tc : TunnelConfig) : TunnelConfig :=
  {| Local := x; Peer := Peer tc; Encap := Encap tc; Version := Version tc;
     TunnelID := TunnelID tc; PeerTunnelID := PeerTunnelID tc; Sessions := Sessions tc |}.
Definition set_Peer (x : string) (tc : TunnelConfig) : TunnelConfig :=
  {| Local := Local tc; Peer := x; Encap := Encap tc; Version := Version tc;
     TunnelID := TunnelID tc; PeerTunnelID := PeerTunnelID tc; Sessions := Sessions tc |}.
Definition set_Encap (x : Z) (tc : TunnelConfig) : TunnelConfig :=
  {| Local := Local tc; Peer := Peer tc; Encap := x; Version := Version tc;
     TunnelID := TunnelID tc; PeerTunnelID := PeerTunnelID tc; Sessions := Sessions tc |}.
Definition set_Version (x : Z) (tc : TunnelConfig) : TunnelConfig :=
  {| Local := Local tc; Peer := Peer tc; Encap := Encap tc; Version := x;
     TunnelID := TunnelID tc; PeerTunnelID := PeerTunnelID tc; Sessions := Sessions tc |}.
Definition set_TunnelID (x : Z) (tc : TunnelConfig) : TunnelConfig :=
  {| Local := Local tc; Peer := Peer tc; Encap := Encap tc; Version := Version tc;
     TunnelID := x; PeerTunnelID := PeerTunnelID tc; Sessions := Sessions tc |}.
Definition set_PeerTunnelID (x : Z) (tc : TunnelConfig) : TunnelConfig :=
  {| Local := Local tc; Peer := Peer tc; Encap := Encap tc; Version := Version tc;
     TunnelID := TunnelID tc; PeerTunnelID := x; Sessions := Sessions tc |}.
Definition set_Sessions (x : gmap string SessionConfig) (tc : TunnelConfig) : TunnelConfig :=
  {| Local := Local tc; Peer := Peer tc; Encap := Encap tc; Version := Version tc;
     TunnelID := TunnelID tc; PeerTunnelID := PeerTunnelID tc; Sessions := x |}.

Definition toBool (v : Value) : result bool :=
  match v with
  | VBool b => Ok b
  | _ => Err (Errorf "supplied value could not be parsed as a bool" [])
  end.

Definition toUint32 (v : Value) : result Z :=
  match v with
  | VInt64 b =>
      if (b <? 0) || (b >? 4294967295)
      then Err (Errorf "value %x out of range" [ArgInt b])
      else Ok (b mod 2 ^ 32)
  | VUint64 b =>
      if (b <? 0) || (b >? 4294967295)
      then Err (Errorf "value %x out of range" [ArgInt b])
      else Ok (b mod 2 ^ 32)
  | _ => Err (Errorf "unexpected %T value %v" [ArgValue v; ArgValue v])
  end.

Definition toString (v : Value) : result string :=
  match v with
  | VString s => Ok s
  | _ => Err (Errorf "supplied value could not be parsed as a string" [])
  end.

(** [time.Millisecond], in nanoseconds. *)
Definition Millisecond : Z := 1000000.

Definition toDurationMs (v : Value) : result Z :=
  andThen (toUint32 v) (fun u => Ok (u * Millisecond)).

Definition toVersion (v : Value) : result Z :=
  andThen (toString v) (fun s =>
    if String.eqb s "l2tpv2" then Ok ProtocolVersion2
    else if String.eqb s "l2tpv3" then Ok ProtocolVersion3
    else Err (Errorf "expect 'l2tpv2' or 'l2tpv3'" [])).

Definition toCCID (v : Value) : result Z := toUint32 v.

(** One turn of the loop of [toBytes]: the byte appended to [out]. *)
Definition toByte (number : Value) : result Z :=
  match number with
  | VInt64 b =>
      if (b <? 0) || (b >? 255)
      then Err (Errorf "value %x out of range in byte array" [ArgInt b])
      else Ok (b mod 256)
  | VUint64 b =>
      if (b <? 0) || (b >? 255)
      then Err (Errorf "value %x out of range in byte array" [ArgInt b])
      else Ok (b mod 256)
  | _ => Err (Errorf "unexpected %T value %v in byte array"
                [ArgValue number; ArgValue number])
  end.

Fixpoint toBytes_loop (out : list Z) (numbers : list Value) : result (list Z) :=
  match numbers with
  | [] => Ok out
  | number :: rest =>
      andThen (toByte number) (fun b => toBytes_loop (out ++ [b]) rest)
  end.

Definition toBytes (v : Value) : result (list Z) :=
  match v with
  | VArray numbers => toBytes_loop [] numbers
  | _ => Err (Errorf "expected array value" [])
  end.

(** [for k, v := range m { body }] where the body updates a state and may
    return an error, which ends the loop; [m] lists the entries in the order
    this run visits them. *)
Fixpoint range {S : Type} (body : string -> Value -> S -> result S) (s : S)
  (m : list (string * Value)) : result S :=
  match m with
  | [] => Ok s
  | (k, v) :: rest => andThen (body k v s) (fun s' => range body s' rest)
  end.

Section WithConsts.
Variable K : Consts.

Definition toEncapType (v : Value) : result Z :=
  andThen (toString v) (fun s =>
    if String.eqb s "udp" then Ok (EncapTypeUDP K)
    else if String.eqb s "ip" then Ok (EncapTypeIP K)
    else Err (Errorf "expect 'udp' or 'ip'" [])).

Definition toPseudowireType (v : Value) : result Z :=
  andThen (toString v) (fun s =>
    if String.eqb s "ppp" then Ok (PseudowireTypePPP K)
    else if String.eqb s "eth" then Ok (PseudowireTypeEth K)
    else Err (Errorf "expect 'ppp' or 'eth'" [])).

Definition toL2SpecType (v : Value) : result Z :=
  andThen (toString v) (fun s =>
    if String.eqb s "none" then Ok (L2SpecTypeNone K)
    else if String.eqb s "default" then Ok (L2SpecTypeDefault K)
    else Err (Errorf "expect 'none' or 'default'" [])).

(** The [switch k] of [newSessionConfig]: [None] is the [default] case. *)
Definition sessionParam (k : string) (v : Value) (sc : SessionConfig)
  : option (result SessionConfig) :=
  if String.eqb k "sid" then Some (andThen (toCCID v) (fun x => Ok (set_SessionID x sc)))
  else if String.eqb k "psid" then Some (andThen (toCCID v) (fun x => Ok (set_PeerSessionID x sc)))
  else if String.eqb k "pseudowire" then Some (andThen (toPseudowireType v) (fun x => Ok (set_Pseudowire x sc)))
  else if String.eqb k "seqnum" then Some (andThen (toBool v) (fun x => Ok (set_SeqNum x sc)))
  else if String.eqb k "reorder_timeout" then Some (andThen (toDurationMs v) (fun x => Ok (set_ReorderTimeout x sc)))
  else if String.eqb k "cookie" then Some (andThen (toBytes v) (fun x => Ok (set_Cookie x sc)))
  else if String.eqb k "peer_cookie" then Some (andThen (toBytes v) (fun x => Ok (set_PeerCookie x sc)))
  else if String.eqb k "interface_name" then Some (andThen (toString v) (fun x => Ok (set_InterfaceName x sc)))
  else if String.eqb k "l2spec_type" then Some (andThen (toL2SpecType v) (fun x => Ok (set_L2SpecType x sc)))
  else None.

(** The body of the loop of [newSessionConfig]. *)
Definition newSessionConfig_body (k : string) (v : Value) (sc : SessionConfig)
  : result SessionConfig :=
  match sessionParam k v sc with
  | None => Err (Errorf "unrecognised parameter '%v'" [ArgString k])
  | Some r =>
      wrapErr (fun e => Errorf "failed to process %v: %v" [ArgString k; ArgError e]) r
  end.

Definition newSessionConfig (scfg : list (string * Value)) : result SessionConfig :=
  range newSessionConfig_body SessionConfig_zero scfg.

(** The body of the loop of [loadSessions]. *)
Definition loadSessions_body (name : string) (got : Value) (t : TunnelConfig)
  : result TunnelConfig :=
  match got with
  | VMap smap =>
      andThen (wrapErr (fun e => Errorf "session %v: %v" [ArgString name; ArgError e])
                       (newSessionConfig smap))
        (fun scfg => Ok (set_Sessions (<[name := scfg]> (Sessions t)) t))
  | _ => Err (Errorf "config for session %v isn't a map" [ArgString name])
  end.

(** [t.loadSessions(v)]: the receiver after the call, or the error. *)
Definition loadSessions (t : TunnelConfig) (v : Value) : result TunnelConfig :=
  match v with
  | VMap sessions => range loadSessions_body t sessions
  | _ => Err (Errorf "session instances must be named, e.g. '[tunnel.mytunnel.session.mysession]'" [])
  end.

(** The [switch k] of [newTunnelConfig]: [None] is the [default] case. *)
Definition tunnelParam (k : string) (v : Value) (tc : TunnelConfig)
  : option (result TunnelConfig) :=
  if String.eqb k "local" then Some (andThen (toString v) (fun x => Ok (set_Local x tc)))
  else if String.eqb k "peer" then Some (andThen (toString v) (fun x => Ok (set_Peer x tc)))
  else if String.eqb k "encap" then Some (andThen (toEncapType v) (fun x => Ok (set_Encap x tc)))
  else if String.eqb k "version" then Some (andThen (toVersion v) (fun x => Ok (set_Version x tc)))
  else if String.eqb k "tid" then Some (andThen (toCCID v) (fun x => Ok (set_TunnelID x tc)))
  else if String.eqb k "ptid" then Some (andThen (toCCID v) (fun x => Ok (set_PeerTunnelID x tc)))
  else if String.eqb k "session" then Some (loadSessions tc v)
  else None.

(** The body of the loop of [newTunnelConfig]. *)
Definition newTunnelConfig_body (k : string) (v : Value) (tc : TunnelConfig)
  : result TunnelConfig :=
  match tunnelParam k v tc with
  | None => Err (Errorf "unrecognised parameter '%v'" [ArgString k])
  | Some r =>
      wrapErr (fun e => Errorf "failed to process %v: %v" [ArgString k; ArgError e]) r
  end.

Definition newTunnelConfig (tcfg : list (string * Value)) : result TunnelConfig :=
  range newTunnelConfig_body TunnelConfig_zero tcfg.

(** The body of the second loop of [loadTunnels]. *)
Definition loadTunnels_body (name : string) (got : Value) (cfg : Config)
  : result Config :=
  match got with
  | VMap tmap =>
      andThen (wrapErr (fun e => Errorf "tunnel %v: %v" [ArgString name; ArgError e])
                       (newTunnelConfig tmap))
        (fun tcfg => Ok {| cm := cm cfg; tunnels := <[name := tcfg]> (tunnels cfg) |})
  | _ => Err (Errorf "config for tunnel %v isn't a map" [ArgString name])
  end.

(** [cfg.loadTunnels()]: the receiver after the call, or the error. *)
Definition loadTunnels (cfg : Config) : result Config :=
  match lookup_key "tunnel" (cm cfg) with
  | Some got =>
      match got with
      | VMap tunnels_ => range loadTunnels_body cfg tunnels_
      | _ => Err (Errorf "tunnel instances must be named, e.g. '[tunnel.mytunnel]'" [])
      end
  | None => Err (Errorf "no tunnel table present" [])
  end.

(** [newConfig(tree)]; the argument is [tree.ToMap()]. *)
Definition newConfig (tree : list (string * Value)) : result Config :=
  wrapErr (fun e => Errorf "failed to parse tunnels: %v" [ArgError e])
       (loadTunnels {| cm := tree; tunnels := ∅ |}).

(** The TOML parser: [toml.LoadFile] and [toml.Load] of go-toml, followed by
    [ToMap]. *)
Variable toml_LoadFile : string -> result (list (string * Value)).
Variable toml_Load : string -> result (list (string * Value)).

Definition LoadFile (path : string) : result Config :=
  match toml_LoadFile path with
  | Ok tree => newConfig tree
  | Err e => Err (Errorf "failed to load config file: %v" [ArgError e])
  end.

Definition LoadString (content : string) : result Config :=
  match toml_Load content with
  | Ok tree => newConfig tree
  | Err e => Err (Errorf "failed to load config string: %v" [ArgError e])
  end.

Definition GetTunnels (cfg : Config) : gmap string TunnelConfig := tunnels cfg.

Definition ToMap (cfg : Config) : list (string * Value) := cm cfg.

End WithConsts.

End Config.

(** * The L2TP context *)
Module L2tp.

(** A [*TunnelConfig]: [None] is [nil], [Some l] the address of a struct. *)
Definition loc : Type := positive.
Definition ptr : Type := option loc.

(** Modelled from the spec: the declaration of [TunnelConfig] that goes with
    the context (the one with [HostName] and [StopCCNTimeout]) is not among
    the sources; its fields are those the spec lists for the descriptor:
    version, encapsulation, local and peer address, local and peer tunnel ID,
    host name, StopCCN timeout, window size, hello interval, retransmit count
    and timeout.  Durations are in nanoseconds. *)
Record TunnelConfig : Type := {
  Local : string;
  Peer : string;
  Encap : Z;
  Version : Z;
  TunnelID : Z;
  PeerTunnelID : Z;
  HostName : string;
  StopCCNTimeout : Z;
  WindowSize : Z;
  HelloTimeout : Z;
  RetryTimeout : Z;
  MaxRetries : Z
}.

Definition set_HostName (x : string) (c : TunnelConfig) : TunnelConfig :=
  {| Local := Local c; Peer := Peer c; Encap := Encap c; Version := Version c;
     TunnelID := TunnelID c; PeerTunnelID := PeerTunnelID c; HostName := x;
     StopCCNTimeout := StopCCNTimeout c; WindowSize := WindowSize c;
     HelloTimeout := HelloTimeout c; RetryTimeout := RetryTimeout c;
     MaxRetries := MaxRetries c |}.
Definition set_StopCCNTimeout (x : Z) (c : TunnelConfig) : TunnelConfig :=
  {| Local := Local c; Peer := Peer c; Encap := Encap c; Version := Version c;
     TunnelID := TunnelID c; PeerTunnelID := PeerTunnelID c; HostName := HostName c;
     StopCCNTimeout := x; WindowSize := WindowSize c;
     HelloTimeout := HelloTimeout c; RetryTimeout := RetryTimeout c;
     MaxRetries := MaxRetries c |}.
Definition set_TunnelID (x : Z) (c : TunnelConfig) : TunnelConfig :=
  {| Local := Local c; Peer := Peer c; Encap := Encap c; Version := Version c;
     TunnelID := x; PeerTunnelID := PeerTunnelID c; HostName := HostName c;
     StopCCNTimeout := StopCCNTimeout c; WindowSize := WindowSize c;
     HelloTimeout := HelloTimeout c; RetryTimeout := RetryTimeout c;
     MaxRetries := MaxRetries c |}.

(** [time.Second], in nanoseconds. *)
Definition Second : Z := 1000000000.

(** ** Socket addresses *)

(** [unix.Sockaddr]: the four implementations the code builds. *)
Inductive Sockaddr : Type :=
| SockaddrInet4 (Port : Z) (Addr : list Z)
| SockaddrInet6 (Port : Z) (Addr : list Z)
| SockaddrL2TPIP (Addr : list Z) (ConnId : Z)
| SockaddrL2TPIP6 (Addr : list Z) (ConnId : Z).

(** [net.UDPAddr]; [IP] is a byte slice of length 0, 4 or 16. *)
Record UDPAddr : Type := { IP : list Z; Port : Z }.

(** [b[i]] on a byte slice. *)
Definition ix (b : list Z) (i : nat) : Z := nth i b 0.

Definition isZeros (p : list Z) : bool := forallb (Z.eqb 0) p.

(** [net.IP.To4] of the Go library: [None] is the nil slice. *)
Definition To4 (ip : list Z) : option (list Z) :=
  if (length ip =? 4)%nat then Some ip
  else if (length ip =? 16)%nat && isZeros (take 10 ip)
          && (ix ip 10 =? 255) && (ix ip 11 =? 255)
       then Some (drop 12 ip)
       else None.

(** [net.IP.To16] of the Go library. *)
Definition To16 (ip : list Z) : option (list Z) :=
  if (length ip =? 4)%nat
  then Some ([0; 0; 0; 0; 0; 0; 0; 0; 0; 0; 255; 255] ++ ip)
  else if (length ip =? 16)%nat then Some ip
       else None.

Definition bytes4 (b : list Z) : list Z := [ix b 0; ix b 1; ix b 2; ix b 3].

Definition bytes16 (b : list Z) : list Z :=
  [ix b 0; ix b 1; ix b 2; ix b 3; ix b 4; ix b 5; ix b 6; ix b 7;
   ix b 8; ix b 9; ix b 10; ix b 11; ix b 12; ix b 13; ix b 14; ix b 15].

(** ** Tunnels, sessions, handlers and the context *)

Inductive TunnelKind : Type := Dynamic | Quiescent | Static.

(** What the context sees of a tunnel object through the [tunnel] interface:
    [getName()] and [getCfg()], both fixed when the tunnel is built. *)
Record tunnel : Type := {
  t_kind : TunnelKind;
  getName : string;
  getCfg : ptr
}.

(** What a tunnel sees of a session object through the [session]
    interface: [getName()] and [getCfg()]. *)
Record session : Type := {
  s_getName : string;
  s_getCfg : Config.SessionConfig
}.

(** [baseTunnel], without the logger, the parent and the lock. *)
Record baseTunnel : Type := {
  bt_name : string;
  bt_cfg : ptr;
  sessionsByName : gmap string session;
  sessionsByID : gmap Z session
}.

(** An [EventHandler] interface value.  Handlers are pointers (kl2tpd
    registers its [*application]), so [==] on them is identity. *)
Definition EventHandler : Type := nat.

(** The [DataPlane] interface value held by a context or passed to
    [NewContext]. *)
Inductive DataPlane : Type :=
| DataPlane_nil
| LinuxNetlinkDataPlane
| nullDataPlane
| netlinkDataPlane
| customDataPlane (id : nat).

(** The payload of a user event. *)
Inductive UserEvent : Type :=
| TunnelUpEvent (Tunnel : tunnel) (Config : ptr) (LocalAddress PeerAddress : Sockaddr)
| TunnelDownEvent (Tunnel : tunnel) (Config : ptr) (LocalAddress PeerAddress : Sockaddr).

(** [Context], without the logger and the locks: one call runs at a time
    here. *)
Record Context : Type := {
  tunnelsByName : gmap string tunnel;
  tunnelsByID : gmap Z tunnel;
  dp : DataPlane;
  callSerial : Z;
  eventHandlers : list EventHandler
}.

(** Calls that leave the context, in the order they are made. *)
Inductive Event : Type :=
| EvHandleEvent (h : EventHandler) (ev : UserEvent)
| EvNewTunnel (t : tunnel)
| EvTunnelClose (t : tunnel)
| EvDataPlaneClose (d : DataPlane).

(** Everything outside the context that the code reads or writes: the store
    of [TunnelConfig] structs, the state of [math/rand] (the seed and the
    number of draws since it was set), and the calls made so far. *)
Record World : Type := {
  heap : gmap loc TunnelConfig;
  seed : Z;
  draws : nat;
  trace : list Event
}.

Record State : Type := { ctx : Context; world : World }.

(** What the code calls and the sources do not contain. *)
Record Externals : Type := {
  (** [math/rand]: the output at position [n] after [rand.Seed(seed)] *)
  prng : Z -> nat -> Z;
  (** [os.Hostname()] *)
  os_Hostname : result string;
  (** [net.ResolveUDPAddr("udp", address)] *)
  net_ResolveUDPAddr : string -> result UDPAddr;
  (** [newNetlinkDataPlane()]: the error, if the kernel cannot be reached *)
  newNetlinkDataPlane_err : option error;
  (** [newDynamicTunnel], [newQuiescentTunnel], [newStaticTunnel]: the error,
      if the tunnel cannot be brought up *)
  newTunnel_err : TunnelKind -> string -> Sockaddr -> Sockaddr -> TunnelConfig -> option error
}.

(** ** State and error passing *)

(** How a call on the context ends: it returns a value, returns a non-nil
    [error], or panics (nil pointer dereference). *)
Inductive outcome (A : Type) : Type :=
| Ret (a : A)
| Fail (e : error)
| Panic (msg : string).
Arguments Ret {A} a.
Arguments Fail {A} e.
Arguments Panic {A} msg.

Definition M (A : Type) : Type := State -> outcome A * State.

Definition ret {A} (a : A) : M A := fun s => (Ret a, s).

Definition fail {A} (e : error) : M A := fun s => (Fail e, s).

Definition bind {A B} (m : M A) (k : A -> M B) : M B :=
  fun s =>
    match m s with
    | (Ret a, s') => k a s'
    | (Fail e, s') => (Fail e, s')
    | (Panic msg, s') => (Panic msg, s')
    end.

Notation "'do' x <- m ; k" := (bind m (fun x => k))
  (at level 10, x name, m at level 100, k at level 200, format
   "'[v' 'do'  x  <-  m ; '/' k ']'").

(** [if cond { return nil, err }] *)
Definition failIf (cond : bool) (e : error) : M unit :=
  if cond then fail e else ret tt.

(** [x, err := f(); if err != nil { return nil, fmt.Errorf(..., err) }] *)
Definition wrapM {A} (w : error -> error) (m : M A) : M A :=
  fun s =>
    match m s with
    | (Fail e, s') => (Fail (w e), s')
    | r => r
    end.

(** A call that does not touch the state. *)
Definition lift {A} (r : result A) : M A :=
  fun s => match r with Ok a => (Ret a, s) | Err e => (Fail e, s) end.

Definition getCtx : M Context := fun s => (Ret (ctx s), s).

Definition setCtx (c : Context) : M unit :=
  fun s => (Ret tt, {| ctx := c; world := world s |}).

Definition emit (ev : Event) : M unit :=
  fun s => (Ret tt, {| ctx := ctx s;
                      world := {| heap := heap (world s); seed := seed (world s);
                                  draws := draws (world s);
                                  trace := trace (world s) ++ [ev] |} |}).

(** [*p] *)
Definition deref (p : ptr) : M TunnelConfig :=
  fun s =>
    match p with
    | Some l =>
        match heap (world s) !! l with
        | Some c => (Ret c, s)
        | None => (Panic "invalid memory address or nil pointer dereference", s)
        end
    | None => (Panic "invalid memory address or nil pointer dereference", s)
    end.

(** [&x] for a local struct [x] whose address leaves the function: a struct
    of its own in the store, at an address nothing else holds. *)
Definition addressOf (c : TunnelConfig) : M ptr :=
  fun s =>
    let l := fresh (dom (heap (world s))) in
    (Ret (Some l),
     {| ctx := ctx s;
        world := {| heap := <[l := c]> (heap (world s)); seed := seed (world s);
                    draws := draws (world s); trace := trace (world s) |} |}).

Definition with_tunnels (byName : gmap string tunnel) (byID : gmap Z tunnel)
  (c : Context) : Context :=
  {| tunnelsByName := byName; tunnelsByID := byID; dp := dp c;
     callSerial := callSerial c; eventHandlers := eventHandlers c |}.

Definition with_callSerial (x : Z) (c : Context) : Context :=
  {| tunnelsByName := tunnelsByName c; tunnelsByID := tunnelsByID c; dp := dp c;
     callSerial := x; eventHandlers := eventHandlers c |}.

Definition with_eventHandlers (x : list EventHandler) (c : Context) : Context :=
  {| tunnelsByName := tunnelsByName c; tunnelsByID := tunnelsByID c; dp := dp c;
     callSerial := callSerial c; eventHandlers := x |}.

Definition isSome {A} (o : option A) : bool :=
  match o with Some _ => true | None => false end.

Section WithExternals.
Variable K : Consts.
Variable X : Externals.

(** ** [math/rand] *)

Definition rand_Seed (x : Z) : M unit :=
  fun s => (Ret tt, {| ctx := ctx s;
                      world := {| heap := heap (world s); seed := x; draws := 0;
                                  trace := trace (world s) |} |}).

Definition rand_Uint32 : M Z :=
  fun s => (Ret (prng X (seed (world s)) (draws (world s)) mod 2 ^ 32),
            {| ctx := ctx s;
               world := {| heap := heap (world s); seed := seed (world s);
                           draws := S (draws (world s));
                           trace := trace (world s) |} |}).

(** ** Address pairs *)

Definition newUDPTunnelAddress (address : string) : result Sockaddr :=
  andThen (wrapErr (fun e => Errorf "resolve %v: %v" [ArgString address; ArgError e])
                   (net_ResolveUDPAddr X address))
    (fun u =>
       match To4 (IP u) with
       | Some b => Ok (SockaddrInet4 (Port u) (bytes4 b))
       | None =>
           match To16 (IP u) with
           | Some b => Ok (SockaddrInet6 (Port u) (bytes16 b))
           | None => Err (Errorf "unhandled address family" [])
           end
       end).

Definition newUDPAddressPair (local remote : string) : result (Sockaddr * Sockaddr) :=
  andThen (wrapErr (fun e => Errorf "remote address %q: %v" [ArgString remote; ArgError e])
                   (newUDPTunnelAddress remote))
    (fun sap =>
       if negb (String.eqb local "") then
         andThen (wrapErr (fun e => Errorf "local address %q: %v" [ArgString local; ArgError e])
                          (newUDPTunnelAddress local))
           (fun sal => Ok (sal, sap))
       else
         match sap with
         | SockaddrInet4 _ _ => Ok (SockaddrInet4 0 (replicate 4 0), sap)
         | SockaddrInet6 _ _ => Ok (SockaddrInet6 0 (replicate 16 0), sap)
         | _ => Err (Errorf "unhanded address family" [])
         end).

Definition newIPTunnelAddress (address : string) (ccid : Z) : result Sockaddr :=
  andThen (wrapErr (fun e => Errorf "resolve %v: %v" [ArgString address; ArgError e])
                   (net_ResolveUDPAddr X address))
    (fun u =>
       match To4 (IP u) with
       | Some b => Ok (SockaddrL2TPIP (bytes4 b) (ccid mod 2 ^ 32))
       | None =>
           match To16 (IP u) with
           | Some b => Ok (SockaddrL2TPIP6 (bytes16 b) (ccid mod 2 ^ 32))
           | None => Err (Errorf "unhandled address family" [])
           end
       end).

Definition newIPAddressPair (local : string) (ccid : Z) (remote : string) (pccid : Z)
  : result (Sockaddr * Sockaddr) :=
  andThen (wrapErr (fun e => Errorf "remote address %q: %v" [ArgString remote; ArgError e])
                   (newIPTunnelAddress remote pccid))
    (fun sap =>
       if negb (String.eqb local "") then
         andThen (wrapErr (fun e => Errorf "local address %q: %v" [ArgString local; ArgError e])
                          (newIPTunnelAddress local ccid))
           (fun sal => Ok (sal, sap))
       else
         match sap with
         | SockaddrL2TPIP _ _ => Ok (SockaddrL2TPIP (replicate 4 0) 0, sap)
         | SockaddrL2TPIP6 _ _ => Ok (SockaddrL2TPIP6 (replicate 16 0) 0, sap)
         | _ => Err (Errorf "unhanded address family" [])
         end).

(** The [switch myCfg.Encap] of the three factories. *)
Definition addressPair (myCfg : TunnelConfig) : result (Sockaddr * Sockaddr) :=
  wrapErr (fun e => Errorf "failed to initialise tunnel addresses: %v" [ArgError e])
    (if Encap myCfg =? EncapTypeUDP K then
       newUDPAddressPair (Local myCfg) (Peer myCfg)
     else if Encap myCfg =? EncapTypeIP K then
       newIPAddressPair (Local myCfg) (TunnelID myCfg) (Peer myCfg) (PeerTunnelID myCfg)
     else Err (Errorf "unrecognised encapsulation type %v" [ArgInt (Encap myCfg)])).

(** ** The context *)

Definition initDataPlane (d : DataPlane) : result DataPlane :=
  match d with
  | DataPlane_nil => Ok nullDataPlane
  | LinuxNetlinkDataPlane =>
      match newNetlinkDataPlane_err X with
      | None => Ok netlinkDataPlane
      | Some e => Err e
      end
  | _ => Ok d
  end.

(** [NewContext(dataPlane, logger)]; [now] is [time.Now().UnixNano()].  The
    logger has no part in what follows and is left out. *)
Definition NewContext (dataPlane : DataPlane) (now : Z) (w : World)
  : result Context * World :=
  let seeded := {| heap := heap w; seed := now; draws := 0; trace := trace w |} in
  match initDataPlane dataPlane with
  | Ok d =>
      (Ok {| tunnelsByName := ∅; tunnelsByID := ∅; dp := d;
             callSerial := prng X now 0 mod 2 ^ 32; eventHandlers := [] |},
       {| heap := heap w; seed := now; draws := 1; trace := trace w |})
  | Err e => (Err (Errorf "failed to initialise data plane: %v" [ArgError e]), seeded)
  end.

Definition findTunnelByName (name : string) : M (option tunnel) :=
  fun s => (Ret (tunnelsByName (ctx s) !! name), s).

Definition findTunnelByID (tid : Z) : M (option tunnel) :=
  fun s => (Ret (tunnelsByID (ctx s) !! tid), s).

Definition linkTunnel (tunl : tunnel) : M unit :=
  do c <- getCtx;
  do _ <- setCtx (with_tunnels (<[getName tunl := tunl]> (tunnelsByName c)) (tunnelsByID c) c);
  do cfg <- deref (getCfg tunl);
  do c <- getCtx;
  setCtx (with_tunnels (tunnelsByName c) (<[TunnelID cfg := tunl]> (tunnelsByID c)) c).

Definition unlinkTunnel (tunl : tunnel) : M unit :=
  do c <- getCtx;
  do _ <- setCtx (with_tunnels (delete (getName tunl) (tunnelsByName c)) (tunnelsByID c) c);
  do cfg <- deref (getCfg tunl);
  do c <- getCtx;
  setCtx (with_tunnels (tunnelsByName c) (delete (TunnelID cfg) (tunnelsByID c)) c).

Definition generateControlConnID (version : Z) : M Z :=
  if version =? ProtocolVersion2 then
    do r <- rand_Uint32; ret (r mod 2 ^ 16)
  else if version =? ProtocolVersion3 then
    do r <- rand_Uint32; ret r
  else fail (Errorf "unhandled version %v" [ArgInt version]).

(** The loop of [allocTid] with [n] turns left. *)
Fixpoint allocTid_loop (n : nat) (version : Z) : M Z :=
  match n with
  | O => fail (Errorf "ID space exhausted" [])
  | S n' =>
      do id <- wrapM (fun e => Errorf "failed to generate tunnel ID: %v" [ArgError e])
                     (generateControlConnID version);
      do found <- findTunnelByID id;
      if negb (isSome found) then ret id else allocTid_loop n' version
  end.

Definition allocTid (version : Z) : M Z := allocTid_loop 10 version.

Definition allocCallSerial : M Z :=
  do c <- getCtx;
  do _ <- setCtx (with_callSerial ((callSerial c + 1) mod 2 ^ 32) c);
  do c <- getCtx;
  ret (callSerial c).

(** ** Event handlers *)

Definition RegisterEventHandler (handler : EventHandler) : M unit :=
  do c <- getCtx;
  setCtx (with_eventHandlers (eventHandlers c ++ [handler]) c).

(** The loop of [UnregisterEventHandler] at index [i], [rest] being
    [all[i:]]: at the first match the list becomes
    [append(all[:], all[i+1:]...)]. *)
Fixpoint Unregister_loop (all : list EventHandler) (i : nat) (rest : list EventHandler)
  (handler : EventHandler) : list EventHandler :=
  match rest with
  | [] => all
  | hdlr :: rest' =>
      if Nat.eqb hdlr handler then all ++ drop (i + 1) all
      else Unregister_loop all (i + 1) rest' handler
  end.

Definition UnregisterEventHandler (handler : EventHandler) : M unit :=
  do c <- getCtx;
  setCtx (with_eventHandlers
            (Unregister_loop (eventHandlers c) 0 (eventHandlers c) handler) c).

Fixpoint handleUserEvent_loop (handlers : list EventHandler) (event : UserEvent) : M unit :=
  match handlers with
  | [] => ret tt
  | hdlr :: rest =>
      do _ <- emit (EvHandleEvent hdlr event);
      handleUserEvent_loop rest event
  end.

Definition handleUserEvent (event : UserEvent) : M unit :=
  do c <- getCtx;
  handleUserEvent_loop (eventHandlers c) event.

(** ** Tunnel objects *)

(** Modelled from the spec: [newDynamicTunnel], [newQuiescentTunnel] and
    [newStaticTunnel] are not among the sources.  Bringing the tunnel up can
    fail; when it succeeds the tunnel object keeps the name and the config
    pointer it was given (as [newBaseTunnel] stores them). *)
Definition newTunnel (kind : TunnelKind) (name : string) (sal sap : Sockaddr)
  (myCfg : TunnelConfig) : M tunnel :=
  match newTunnel_err X kind name sal sap myCfg with
  | Some e => fail e
  | None =>
      do p <- addressOf myCfg;
      let t := {| t_kind := kind; getName := name; getCfg := p |} in
      do _ <- emit (EvNewTunnel t);
      ret t
  end.


(** ** Tunnel factories *)

Definition NewDynamicTunnel (name : string) (cfg : ptr) : M tunnel :=
  do _ <- failIf (negb (isSome cfg)) (Errorf "invalid nil config" []);
  do myCfg <- deref cfg;
  do found <- findTunnelByName name;
  do _ <- failIf (isSome found) (Errorf "already have tunnel %q" [ArgString name]);
  do myCfg <-
     (if String.eqb (HostName myCfg) "" then
        do name' <- wrapM (fun e => Errorf "failed to look up host name: %v" [ArgError e])
                          (lift (os_Hostname X));
        ret (set_HostName name' myCfg)
      else ret myCfg);
  do myCfg <-
     ret (if StopCCNTimeout myCfg =? 0
          then set_StopCCNTimeout (31 * Second) myCfg else myCfg);
  do _ <- failIf (negb (Version myCfg =? ProtocolVersion3) && (Encap myCfg =? EncapTypeIP K))
                 (Errorf "IP encapsulation only supported for L2TPv3 tunnels" []);
  do _ <- failIf ((Version myCfg =? ProtocolVersion2) && (TunnelID myCfg >? 65535))
                 (Errorf "L2TPv2 connection ID %v out of range" [ArgInt (TunnelID myCfg)]);
  do _ <- failIf (negb (PeerTunnelID myCfg =? 0))
                 (Errorf "L2TPv2 peer connection ID cannot be specified for dynamic tunnels" []);
  do _ <- failIf (String.eqb (Peer myCfg) "")
                 (Errorf "must specify peer address for dynamic tunnel" []);
  do myCfg <-
     (if negb (TunnelID myCfg =? 0) then
        do found <- findTunnelByID (TunnelID myCfg);
        do _ <- failIf (isSome found)
                       (Errorf "already have tunnel with TID %q" [ArgInt (TunnelID myCfg)]);
        ret myCfg
      else
        do id <- wrapM (fun e => Errorf "failed to allocate a TID: %q" [ArgError e])
                       (allocTid (Version myCfg));
        ret (set_TunnelID id myCfg));
  do addrs <- lift (addressPair myCfg);
  do t <- newTunnel Dynamic name (fst addrs) (snd addrs) myCfg;
  do _ <- linkTunnel t;
  ret t.

Definition NewQuiescentTunnel (name : string) (cfg : ptr) : M tunnel :=
  do _ <- failIf (negb (isSome cfg)) (Errorf "invalid nil config" []);
  do myCfg <- deref cfg;
  do found <- findTunnelByName name;
  do _ <- failIf (isSome found) (Errorf "already have tunnel %q" [ArgString name]);
  do _ <- failIf (negb (Version myCfg =? ProtocolVersion3) && (Encap myCfg =? EncapTypeIP K))
                 (Errorf "IP encapsulation only supported for L2TPv3 tunnels" []);
  do _ <-
     (if Version myCfg =? ProtocolVersion2 then
        if (TunnelID myCfg =? 0) || (TunnelID myCfg >? 65535) then
          fail (Errorf "L2TPv2 connection ID %v out of range" [ArgInt (TunnelID myCfg)])
        else if (PeerTunnelID myCfg =? 0) || (PeerTunnelID myCfg >? 65535) then
          fail (Errorf "L2TPv2 peer connection ID %v out of range"
                  [ArgInt (PeerTunnelID myCfg)])
        else ret tt
      else
        failIf ((TunnelID myCfg =? 0) || (PeerTunnelID myCfg =? 0))
               (Errorf "L2TPv3 tunnel IDs %v and %v must both be > 0"
                  [ArgInt (TunnelID myCfg); ArgInt (PeerTunnelID myCfg)]));
  do _ <- failIf (String.eqb (Local myCfg) "")
                 (Errorf "must specify local address for quiescent tunnel" []);
  do _ <- failIf (String.eqb (Peer myCfg) "")
                 (Errorf "must specify peer address for quiescent tunnel" []);
  do found <- findTunnelByID (TunnelID myCfg);
  do _ <- failIf (isSome found)
                 (Errorf "already have tunnel with TID %q" [ArgInt (TunnelID myCfg)]);
  do addrs <- lift (addressPair myCfg);
  do t <- newTunnel Quiescent name (fst addrs) (snd addrs) myCfg;
  do _ <- linkTunnel t;
  ret t.

Definition NewStaticTunnel (name : string) (cfg : ptr) : M tunnel :=
  do _ <- failIf (negb (isSome cfg)) (Errorf "invalid nil config" []);
  do myCfg <- deref cfg;
  do found <- findTunnelByName name;
  do _ <- failIf (isSome found) (Errorf "already have tunnel %q" [ArgString name]);
  do _ <- failIf (negb (Version myCfg =? ProtocolVersion3))
                 (Errorf "static tunnels can be L2TPv3 only" []);
  do _ <- failIf ((TunnelID myCfg =? 0) || (PeerTunnelID myCfg =? 0))
                 (Errorf "L2TPv3 tunnel IDs %v and %v must both be > 0"
                    [ArgInt (TunnelID myCfg); ArgInt (PeerTunnelID myCfg)]);
  do _ <- failIf (String.eqb (Local myCfg) "")
                 (Errorf "must specify local address for static tunnel" []);
  do _ <- failIf (String.eqb (Peer myCfg) "")
                 (Errorf "must specify peer address for static tunnel" []);
  do found <- findTunnelByID (TunnelID myCfg);
  do _ <- failIf (isSome found)
                 (Errorf "already have tunnel with TID %q" [ArgInt (TunnelID myCfg)]);
  do addrs <- lift (addressPair myCfg);
  do t <- newTunnel Static name (fst addrs) (snd addrs) myCfg;
  do _ <- linkTunnel t;
  ret t.

(** ** Closing the context *)




(** ** Sessions of a tunnel *)

Definition newBaseTunnel (name : string) (config : ptr) : baseTunnel :=
  {| bt_name := name; bt_cfg := config; sessionsByName := ∅; sessionsByID := ∅ |}.

Definition linkSession (s : session) (bt : baseTunnel) : baseTunnel :=
  {| bt_name := bt_name bt; bt_cfg := bt_cfg bt;
     sessionsByName := <[s_getName s := s]> (sessionsByName bt);
     sessionsByID := <[Config.SessionID (s_getCfg s) := s]> (sessionsByID bt) |}.

Definition unlinkSession (s : session) (bt : baseTunnel) : baseTunnel :=
  {| bt_name := bt_name bt; bt_cfg := bt_cfg bt;
     sessionsByName := delete (s_getName s) (sessionsByName bt);
     sessionsByID := delete (Config.SessionID (s_getCfg s)) (sessionsByID bt) |}.

Definition findSessionByName (bt : baseTunnel) (name : string) : option session :=
  sessionsByName bt !! name.

Definition findSessionByID (bt : baseTunnel) (id : Z) : option session :=
  sessionsByID bt !! id.

(** The loop of [allocSid] with [n] turns left. *)
Fixpoint allocSid_loop (bt : baseTunnel) (n : nat) : M Z :=
  match n with
  | O => fail (Errorf "ID space exhausted" [])
  | S n' =>
      do cfg <- deref (bt_cfg bt);
      do id <- wrapM (fun e => Errorf "failed to generate session ID: %v" [ArgError e])
                     (generateControlConnID (Version cfg));
      if negb (isSome (findSessionByID bt id)) then ret id else allocSid_loop bt n'
  end.

Definition allocSid (bt : baseTunnel) : M Z := allocSid_loop bt 10.

(** [allSessions]: [order] lists the keys of [sessionsByName] in the order
    this run's [range] reaches them. *)
Fixpoint allSessions (order : list string) (bt : baseTunnel) : list session :=
  match order with
  | [] => []
  | name :: rest =>
      match sessionsByName bt !! name with
      | Some s => s :: allSessions rest bt
      | None => allSessions rest bt
      end
  end.

(** The first loop of [closeAllSessions], with [order] as in [allSessions]:
    the tunnel after the loop, and the sessions collected. *)
Fixpoint closeAllSessions_range (order : list string) (bt : baseTunnel)
  (sessions : list session) : baseTunnel * list session :=
  match order with
  | [] => (bt, sessions)
  | name :: rest =>
      match sessionsByName bt !! name with
      | None => closeAllSessions_range rest bt sessions
      | Some s =>
          closeAllSessions_range rest
            {| bt_name := bt_name bt; bt_cfg := bt_cfg bt;
               sessionsByName := delete name (sessionsByName bt);
               sessionsByID := delete (Config.SessionID (s_getCfg s)) (sessionsByID bt) |}
            (sessions ++ [s])
      end
  end.

(** [closeAllSessions]: the tunnel afterwards, and the sessions whose
    [kill()] is called, in order. *)
Definition closeAllSessions (order : list string) (bt : baseTunnel)
  : baseTunnel * list session :=
  closeAllSessions_range order bt [].

End WithExternals.

End L2tp.

(** * The netlink interface to the kernel (package nll2tp) *)
Module Nll2tp.

(** [TunnelConfig] of package nll2tp. *)
Record TunnelConfig : Type := {
  Tid : Z;
  Ptid : Z;
  Version : Z;
  Encap : Z;
  DebugFlags : Z
}.

(** [netlink.Attribute] *)
Record Attribute : Type := { Type_ : Z; Data : list Z }.

(** A request handed to [execute]: the generic netlink message (command,
    version, data), the family and the flags. *)
Record Request : Type := {
  Command : Z;
  MsgVersion : Z;
  MsgData : list Z;
  Family : Z;
  Flags : Z
}.

(** [Conn]: the family resolved by [Dial]. *)
Record Conn : Type := { genlFamily_ID : Z; genlFamily_Version : Z }.

(** What the code uses and the sources do not contain: the constants of the
    package, the encoders of nlenc, [netlink.MarshalAttributes], and the
    kernel's answer to a request (the error it returns, if any). *)
Record Externals : Type := {
  EncaptypeUdp : Z;
  EncaptypeIp : Z;
  AttrConnId : Z;
  AttrPeerConnId : Z;
  AttrProtoVersion : Z;
  AttrEncapType : Z;
  AttrDebug : Z;
  AttrFd : Z;
  AttrIpSaddr : Z;
  AttrIpDaddr : Z;
  AttrIp6Saddr : Z;
  AttrIp6Daddr : Z;
  AttrUdpSport : Z;
  AttrUdpDport : Z;
  CmdTunnelCreate : Z;
  CmdTunnelDelete : Z;
  RequestAcknowledge : Z;
  Uint8Bytes : Z -> list Z;
  Uint16Bytes : Z -> list Z;
  Uint32Bytes : Z -> list Z;
  MarshalAttributes : list Attribute -> result (list Z);
  Execute : Request -> option error
}.

Section WithExternals.
Variable N : Externals.

(** [errors.New(msg)] is an error without arguments. *)
Definition errors_New (msg : string) : error := Errorf msg [].

Definition tunnelCreateAttr (config : option TunnelConfig) : result (list Attribute) :=
  match config with
  | None => Err (errors_New "invalid nil tunnel config")
  | Some config =>
      if Tid config =? 0 then
        Err (errors_New "tunnel config must have a non-zero tunnel ID")
      else if Ptid config =? 0 then
        Err (errors_New "tunnel config must have a non-zero peer tunnel ID")
      else if (Version config <? ProtocolVersion2) || (Version config >? ProtocolVersion3) then
        Err (Errorf "invalid tunnel protocol version %d" [ArgInt (Version config)])
      else if negb (Encap config =? EncaptypeUdp N) && negb (Encap config =? EncaptypeIp N) then
        Err (errors_New "invalid tunnel encap (expect IP or UDP)")
      else if (Version config =? ProtocolVersion2) && (Tid config >? 65535) then
        Err (errors_New "L2TPv2 tunnel ID can't exceed 16-bit limit")
      else if (Version config =? ProtocolVersion2) && (Ptid config >? 65535) then
        Err (errors_New "L2TPv2 peer tunnel ID can't exceed 16-bit limit")
      else if (Version config =? ProtocolVersion2) && negb (Encap config =? EncaptypeUdp N) then
        Err (errors_New "L2TPv2 only supports UDP encapsuation")
      else
        Ok [ {| Type_ := AttrConnId N; Data := Uint32Bytes N (Tid config mod 2 ^ 32) |};
             {| Type_ := AttrPeerConnId N; Data := Uint32Bytes N (Ptid config mod 2 ^ 32) |};
             {| Type_ := AttrProtoVersion N; Data := Uint8Bytes N (Version config mod 2 ^ 8) |};
             {| Type_ := AttrEncapType N; Data := Uint16Bytes N (Encap config mod 2 ^ 16) |};
             {| Type_ := AttrDebug N; Data := Uint32Bytes N (DebugFlags config mod 2 ^ 32) |} ]
  end.

(** [c.execute(msg, family, flags)]: the request is handed to the kernel;
    the result is the error and the requests made. *)
Definition execute (req : Request) : option error * list Request :=
  (Execute N req, [req]).

Definition createTunnel (c : Conn) (attr : list Attribute) : option error * list Request :=
  match MarshalAttributes N attr with
  | Err e => (Some e, [])
  | Ok b =>
      execute {| Command := CmdTunnelCreate N; MsgVersion := genlFamily_Version c;
                 MsgData := b; Family := genlFamily_ID c;
                 Flags := RequestAcknowledge N |}
  end.

Definition CreateManagedTunnel (c : Conn) (fd : Z) (config : option TunnelConfig)
  : option error * list Request :=
  if fd <? 0 then
    (Some (errors_New "managed tunnel needs a valid socket file descriptor"), [])
  else
    match tunnelCreateAttr config with
    | Err e => (Some e, [])
    | Ok attr =>
        createTunnel c
          (attr ++ [ {| Type_ := AttrFd N; Data := Uint32Bytes N (fd mod 2 ^ 32) |} ])
    end.

(** How [CreateStaticTunnel] ends: with the error it returns ([None] is
    nil), or in a panic. *)
Inductive static_result : Type :=
| Returned (err : option error)
| Panicked (msg : string).

Definition CreateStaticTunnel (c : Conn) (localAddr : list Z) (localPort : Z)
  (peerAddr : list Z) (peerPort : Z) (config : option TunnelConfig)
  : static_result * list Request :=
  match config with
  | None => (Returned (Some (errors_New "invalid nil tunnel config pointer")), [])
  | Some cfg =>
      if (length localAddr =? 0)%nat then
        (Returned (Some (errors_New "unmanaged tunnel needs a valid local address")), [])
      else if (length peerAddr =? 0)%nat then
        (Returned (Some (errors_New "unmanaged tunnel needs a valid peer address")), [])
      else if negb (length localAddr =? length peerAddr)%nat then
        (Returned (Some (errors_New
           "local and peer IP addresses must be of the same address family")), [])
      else if (Encap cfg =? EncaptypeUdp N) && (localPort =? 0) then
        (Returned (Some (errors_New "unmanaged tunnel needs a valid local port")), [])
      else if (Encap cfg =? EncaptypeUdp N) && (peerPort =? 0) then
        (Returned (Some (errors_New "unmanaged tunnel needs a valid peer port")), [])
      else
        match tunnelCreateAttr config with
        | Err e => (Returned (Some e), [])
        | Ok attr =>
            let ports :=
              [ {| Type_ := AttrUdpSport N; Data := Uint16Bytes N localPort |};
                {| Type_ := AttrUdpDport N; Data := Uint16Bytes N peerPort |} ] in
            if (length localAddr =? 4)%nat then
              let (err, sent) :=
                createTunnel c
                  ((attr ++ [ {| Type_ := AttrIpSaddr N; Data := localAddr |};
                              {| Type_ := AttrIpDaddr N; Data := peerAddr |} ]) ++ ports) in
              (Returned err, sent)
            else if (length localAddr =? 16)%nat then
              let (err, sent) :=
                createTunnel c
                  ((attr ++ [ {| Type_ := AttrIp6Saddr N; Data := localAddr |};
                              {| Type_ := AttrIp6Daddr N; Data := peerAddr |} ]) ++ ports) in
              (Returned err, sent)
            else (Panicked "unexpected address length", [])
        end
  end.

Definition DeleteTunnel (c : Conn) (config : option TunnelConfig)
  : option error * list Request :=
  match config with
  | None => (Some (errors_New "invalid nil tunnel config"), [])
  | Some cfg =>
      match MarshalAttributes N
              [ {| Type_ := AttrConnId N; Data := Uint32Bytes N (Tid cfg mod 2 ^ 32) |} ] with
      | Err e => (Some e, [])
      | Ok b =>
          execute {| Command := CmdTunnelDelete N; MsgVersion := genlFamily_Version c;
                     MsgData := b; Family := genlFamily_ID c;
                     Flags := RequestAcknowledge N |}
      end
  end.

End WithExternals.

End Nll2tp.

(** * Predicates used to state the properties *)

(** The keys [newTunnelConfig] and [newSessionConfig] have a case for. *)
Definition tunnel_keys : list string :=
  ["local"; "peer"; "encap"; "version"; "tid"; "ptid"; "session"].

Definition session_keys : list string :=
  ["sid"; "psid"; "pseudowire"; "seqnum"; "reorder_timeout"; "cookie";
   "peer_cookie"; "interface_name"; "l2spec_type"].

(** The tree has a tunnel table with the key [k], which is not a tunnel key. *)
Definition has_unknown_tunnel_key (tree : list (string * Value)) (k : string) : Prop :=
  exists tunnels tname tmap v,
    lookup_key "tunnel" tree = Some (VMap tunnels) /\
    In (tname, VMap tmap) tunnels /\
    In (k, v) tmap /\
    ~ In k tunnel_keys.

(** The tree has a session table with the key [k], which is not a session
    key. *)
Definition has_unknown_session_key (tree : list (string * Value)) (k : string) : Prop :=
  exists tunnels tname tmap sessions sname smap v,
    lookup_key "tunnel" tree = Some (VMap tunnels) /\
    In (tname, VMap tmap) tunnels /\
    In ("session", VMap sessions) tmap /\
    In (sname, VMap smap) sessions /\
    In (k, v) smap /\
    ~ In k session_keys.

(** The error [e] has, at some depth, the error that [newTunnelConfig] and
    [newSessionConfig] raise for the key [k]. *)
Fixpoint reports_unrecognised (k : string) (e : error) : Prop :=
  e = Errorf "unrecognised parameter '%v'" [ArgString k] \/
  match e with
  | Errorf _ args =>
      (fix any (l : list fmtArg) : Prop :=
         match l with
         | [] => False
         | ArgError e' :: l' => reports_unrecognised k e' \/ any l'
         | _ :: l' => any l'
         end) args
  end.

(** The tunnel key [k] is reached by the loops before anything else is
    rejected: the tunnels visited before its tunnel load, and so do the keys
    visited before it in its tunnel. *)
Definition reaches_tunnel_key (K : Consts) (tree : list (string * Value))
  (tname k : string) : Prop :=
  exists tpre pre v post tpost,
    lookup_key "tunnel" tree =
      Some (VMap (tpre ++ (tname, VMap (pre ++ (k, v) :: post)) :: tpost)) /\
    is_Ok (Config.range (Config.loadTunnels_body K) {| Config.cm := tree; Config.tunnels := ∅ |} tpre) /\
    is_Ok (Config.newTunnelConfig K pre).

(** The same for the session key [k] of the session [sname] of the tunnel
    [tname]. *)
Definition reaches_session_key (K : Consts) (tree : list (string * Value))
  (tname sname k : string) : Prop :=
  exists tpre pre spre ppre v ppost spost post tpost tc,
    lookup_key "tunnel" tree =
      Some (VMap (tpre ++
        (tname, VMap (pre ++
           ("session", VMap (spre ++
              (sname, VMap (ppre ++ (k, v) :: ppost)) :: spost)) :: post)) :: tpost)) /\
    is_Ok (Config.range (Config.loadTunnels_body K) {| Config.cm := tree; Config.tunnels := ∅ |} tpre) /\
    Config.newTunnelConfig K pre = Ok tc /\
    is_Ok (Config.range (Config.loadSessions_body K) tc spre) /\
    is_Ok (Config.newSessionConfig K ppre).

(** The element [number] of a TOML array is the integer [b], a byte. *)
Definition byte_of (number : Value) (b : Z) : Prop :=
  (number = VInt64 b \/ number = VUint64 b) /\ 0 <= b <= 255.

(** What the loader leaves in a cookie field, given the value of the key. *)
Definition cookie_loaded (given : option Value) (cookie : list Z) : Prop :=
  match given with
  | None => cookie = []
  | Some v => exists numbers, v = VArray numbers /\ Forall2 byte_of numbers cookie
  end.

(** The constants as the Linux L2TP interface numbers them. *)
Definition linux_consts : Consts :=
  {| EncapTypeUDP := 0; EncapTypeIP := 1; PseudowireTypePPP := 7;
     PseudowireTypeEth := 5; L2SpecTypeNone := 0; L2SpecTypeDefault := 1 |}.

(** The error of a load that stops at the unknown key [k] of tunnel
    [tname]. *)
Definition unknown_tunnel_key_error (tname k : string) : error :=
  Errorf "failed to parse tunnels: %v"
    [ArgError (Errorf "tunnel %v: %v"
       [ArgString tname;
        ArgError (Errorf "unrecognised parameter '%v'" [ArgString k])])].

(** The error of a load that stops at the unknown key [k] of session [sname]
    of tunnel [tname]. *)
Definition unknown_session_key_error (tname sname k : string) : error :=
  Errorf "failed to parse tunnels: %v"
    [ArgError (Errorf "tunnel %v: %v"
       [ArgString tname;
        ArgError (Errorf "failed to process %v: %v"
          [ArgString "session";
           ArgError (Errorf "session %v: %v"
             [ArgString sname;
              ArgError (Errorf "unrecognised parameter '%v'" [ArgString k])])])])].


(** Example inputs: a tunnel with an unknown key only; the same tunnel
    where a key with a bad value is visited first; a session with a
    three-byte cookie; a tree without a tunnel table. *)
Definition tree_unknown_key : list (string * Value) :=
  [("tunnel", VMap [("t1", VMap [("foo", VInt64 1)])])].

Definition tree_bad_tid_first : list (string * Value) :=
  [("tunnel", VMap [("t1", VMap [("tid", VString "x"); ("foo", VInt64 1)])])].

Definition tree_unknown_session_key : list (string * Value) :=
  [("tunnel", VMap [("t1", VMap [("session", VMap [("s1", VMap [("bar", VBool true)])])])])].

Definition tree_cookie3 : list (string * Value) :=
  [("tunnel", VMap [("t1", VMap [("session", VMap [("s1", VMap
      [("cookie", VArray [VInt64 1; VInt64 2; VInt64 3])])])])])].


(** ** Predicates on the context *)

(** The serial numbers of [n] calls of [allocCallSerial] in a row, and the
    state they leave. *)
Fixpoint allocCallSerials (n : nat) (s : L2tp.State) : list Z * L2tp.State :=
  match n with
  | O => ([], s)
  | S n' =>
      match L2tp.allocCallSerial s with
      | (L2tp.Ret v, s') =>
          let (vs, s'') := allocCallSerials n' s' in (v :: vs, s'')
      | (_, s') => ([], s')
      end
  end.

(** The state [s] after [m]. *)
Definition after {A} (m : L2tp.M A) (s : L2tp.State) : L2tp.State := snd (m s).

(** The state [s] with the count of draws set to [d]. *)
Definition set_draws (d : nat) (s : L2tp.State) : L2tp.State :=
  {| L2tp.ctx := L2tp.ctx s;
     L2tp.world := {| L2tp.heap := L2tp.heap (L2tp.world s);
                      L2tp.seed := L2tp.seed (L2tp.world s);
                      L2tp.draws := d;
                      L2tp.trace := L2tp.trace (L2tp.world s) |} |}.



(** The ID that [generateControlConnID] makes of the draw at position
    [pos]: its low 16 bits for L2TPv2, all 32 bits otherwise. *)
Definition candidate (X : L2tp.Externals) (version : Z) (s : L2tp.State) (pos : nat) : Z :=
  let r := L2tp.prng X (L2tp.seed (L2tp.world s)) pos mod 2 ^ 32 in
  if version =? ProtocolVersion2 then r mod 2 ^ 16 else r.

(** The first of the [n] candidates from position [d] on that [taken] does
    not hold, with its position. *)
Fixpoint first_free (taken : Z -> bool) (cand : nat -> Z) (d n : nat) : option (nat * Z) :=
  match n with
  | O => None
  | S n' => if taken (cand d) then first_free taken cand (S d) n' else Some (d, cand d)
  end.

(** What an allocation loop of [n] turns yields in state [s], given which
    IDs are taken. *)
Definition alloc_outcome (X : L2tp.Externals) (version : Z) (taken : Z -> bool)
  (n : nat) (s : L2tp.State) : L2tp.outcome Z * L2tp.State :=
  match first_free taken (candidate X version s) (L2tp.draws (L2tp.world s)) n with
  | Some (k, id) => (L2tp.Ret id, set_draws (S k) s)
  | None => (L2tp.Fail (Errorf "ID space exhausted" []),
             set_draws (L2tp.draws (L2tp.world s) + n) s)
  end.

(** The two maps of the registry index the same tunnels, one by name and
    one by the tunnel ID of the tunnel's config. *)
Definition registry_consistent (s : L2tp.State) : Prop :=
  (forall name t,
     L2tp.tunnelsByName (L2tp.ctx s) !! name = Some t ->
     L2tp.getName t = name /\
     exists l c, L2tp.getCfg t = Some l /\ L2tp.heap (L2tp.world s) !! l = Some c /\
                 L2tp.tunnelsByID (L2tp.ctx s) !! L2tp.TunnelID c = Some t) /\
  (forall id t,
     L2tp.tunnelsByID (L2tp.ctx s) !! id = Some t ->
     exists l c, L2tp.getCfg t = Some l /\ L2tp.heap (L2tp.world s) !! l = Some c /\
                 L2tp.TunnelID c = id /\
                 L2tp.tunnelsByName (L2tp.ctx s) !! L2tp.getName t = Some t).

(** The state [s] is [s0] but for the count of draws. *)
Definition only_draws (s0 s : L2tp.State) : Prop := exists d, s = set_draws d s0.



(** Hoare triples on [M]: from a state with [P], a call that returns [a]
    leaves a state with [Q a], and one that fails or panics a state with
    [E]. *)
Definition triple {A} (P : L2tp.State -> Prop) (m : L2tp.M A)
  (Q : A -> L2tp.State -> Prop) (E : L2tp.State -> Prop) : Prop :=
  forall s, P s ->
    match m s with
    | (L2tp.Ret a, s') => Q a s'
    | (L2tp.Fail _, s') => E s'
    | (L2tp.Panic _, s') => E s'
    end.

(** [m] keeps the property [I] of the state, however it ends. *)
Definition keeps {A} (I : L2tp.State -> Prop) (m : L2tp.M A) : Prop :=
  triple I m (fun _ => I) I.

(** The struct at [l] is [c]. *)
Definition holds (l : L2tp.loc) (c : L2tp.TunnelConfig) (s : L2tp.State) : Prop :=
  L2tp.heap (L2tp.world s) !! l = Some c.

(** Example inputs: a world with one config at address 1, and contexts
    over it. *)
Definition cfg_v2 (tid ptid : Z) : L2tp.TunnelConfig :=
  {| L2tp.Local := "127.0.0.1:9000"; L2tp.Peer := "127.0.0.1:9001";
     L2tp.Encap := 0; L2tp.Version := 2; L2tp.TunnelID := tid;
     L2tp.PeerTunnelID := ptid; L2tp.HostName := ""; L2tp.StopCCNTimeout := 0;
     L2tp.WindowSize := 4; L2tp.HelloTimeout := 0; L2tp.RetryTimeout := 0;
     L2tp.MaxRetries := 3 |}.

Definition empty_context : L2tp.Context :=
  {| L2tp.tunnelsByName := ∅; L2tp.tunnelsByID := ∅; L2tp.dp := L2tp.nullDataPlane;
     L2tp.callSerial := 4294967295; L2tp.eventHandlers := [] |}.

Definition world_with (c : L2tp.TunnelConfig) : L2tp.World :=
  {| L2tp.heap := {[ 1%positive := c ]}; L2tp.seed := 0; L2tp.draws := 0;
     L2tp.trace := [] |}.

Definition state_with (c : L2tp.TunnelConfig) : L2tp.State :=
  {| L2tp.ctx := empty_context; L2tp.world := world_with c |}.

(** A tunnel object for the examples, and a context where the tunnel IDs
    [ids] are taken. *)
Definition example_tunnel : L2tp.tunnel :=
  {| L2tp.t_kind := L2tp.Dynamic; L2tp.getName := "t0"; L2tp.getCfg := Some 1%positive |}.

Definition state_ids_taken (ids : list Z) : L2tp.State :=
  {| L2tp.ctx :=
       {| L2tp.tunnelsByName := {[ "t0" := example_tunnel ]};
          L2tp.tunnelsByID := list_to_map (map (fun id => (id, example_tunnel)) ids);
          L2tp.dp := L2tp.nullDataPlane; L2tp.callSerial := 0;
          L2tp.eventHandlers := [] |};
     L2tp.world := world_with (cfg_v2 0 0) |}.

(** A context with one tunnel, "t0", whose config at address 1 has tunnel
    ID 7. *)
Definition state_one_tunnel : L2tp.State :=
  {| L2tp.ctx :=
       {| L2tp.tunnelsByName := {[ "t0" := example_tunnel ]};
          L2tp.tunnelsByID := {[ 7 := example_tunnel ]};
          L2tp.dp := L2tp.nullDataPlane; L2tp.callSerial := 0;
          L2tp.eventHandlers := [] |};
     L2tp.world := world_with (cfg_v2 7 0) |}.

(** Externals for the examples: a generator that draws 1, 2, 3, ..., a
    host name, a resolver that gives 127.0.0.1:1701 for every address, and
    tunnels that always come up. *)
Definition example_externals : L2tp.Externals :=
  {| L2tp.prng := fun _ n => Z.of_nat n + 1;
     L2tp.os_Hostname := Ok "lac";
     L2tp.net_ResolveUDPAddr := fun a => Ok {| L2tp.IP := [127; 0; 0; 1]; L2tp.Port := 1701 |};
     L2tp.newNetlinkDataPlane_err := None;
     L2tp.newTunnel_err := fun _ _ _ _ _ => None |}.

(** ** Predicates on loaded configurations *)

(** Two runs end alike: with the same value, or both with an error. *)
Definition same_outcome {S : Type} (r1 r2 : result S) : Prop :=
  match r1, r2 with
  | Ok a, Ok b => a = b
  | Err _, Err _ => True
  | _, _ => False
  end.

(** The values of a Go [uint32]. *)
Definition uint32 (x : Z) : Prop := 0 <= x < 2 ^ 32.

(** Every field of the session config holds a value of its Go type that the
    loader can have put there: IDs within [uint32], a reorder timeout of a
    whole number of milliseconds, the zero value or a named constant for the
    pseudowire and L2-specific sublayer types, bytes in the cookies. *)
Definition session_in_range (K : Consts) (sc : Config.SessionConfig) : Prop :=
  uint32 (Config.SessionID sc) /\
  uint32 (Config.PeerSessionID sc) /\
  (exists ms, uint32 ms /\ Config.ReorderTimeout sc = ms * 1000000) /\
  In (Config.Pseudowire sc) [0; PseudowireTypePPP K; PseudowireTypeEth K] /\
  In (Config.L2SpecType sc) [0; L2SpecTypeNone K; L2SpecTypeDefault K] /\
  Forall (fun b => 0 <= b <= 255) (Config.Cookie sc) /\
  Forall (fun b => 0 <= b <= 255) (Config.PeerCookie sc).

(** The same for a tunnel config and the sessions in it. *)
Definition tunnel_in_range (K : Consts) (tc : Config.TunnelConfig) : Prop :=
  uint32 (Config.TunnelID tc) /\
  uint32 (Config.PeerTunnelID tc) /\
  In (Config.Version tc) [0; ProtocolVersion2; ProtocolVersion3] /\
  In (Config.Encap tc) [0; EncapTypeUDP K; EncapTypeIP K] /\
  map_Forall (fun _ sc => session_in_range K sc) (Config.Sessions tc).

(** An integer from 0 to 4294967295, of either integer type. *)
Definition is_uint32_value (v : Value) : Prop :=
  exists x, (v = VInt64 x \/ v = VUint64 x) /\ 0 <= x <= 4294967295.

(** An array of integers from 0 to 255. *)
Definition is_byte_array (v : Value) : Prop :=
  exists numbers, v = VArray numbers /\ Forall (fun n => exists b, byte_of n b) numbers.

(** One of the strings [l]. *)
Definition is_string_in (l : list string) (v : Value) : Prop :=
  exists s, v = VString s /\ In s l.

(** The key [k] is a session parameter and [v] a value for it. *)
Definition session_entry_ok (k : string) (v : Value) : Prop :=
  ((k = "sid" \/ k = "psid" \/ k = "reorder_timeout") /\ is_uint32_value v) \/
  (k = "pseudowire" /\ is_string_in ["ppp"; "eth"] v) \/
  (k = "seqnum" /\ exists b, v = VBool b) \/
  ((k = "cookie" \/ k = "peer_cookie") /\ is_byte_array v) \/
  (k = "interface_name" /\ exists s, v = VString s) \/
  (k = "l2spec_type" /\ is_string_in ["none"; "default"] v).

(** A table of session tables, each with session parameters only. *)
Definition session_table_ok (v : Value) : Prop :=
  exists sessions,
    v = VMap sessions /\
    Forall (fun e => exists smap, e.2 = VMap smap /\
                       Forall (fun p => session_entry_ok p.1 p.2) smap) sessions.

(** The key [k] is a tunnel parameter and [v] a value for it. *)
Definition tunnel_entry_ok (k : string) (v : Value) : Prop :=
  ((k = "local" \/ k = "peer") /\ exists s, v = VString s) \/
  (k = "encap" /\ is_string_in ["udp"; "ip"] v) \/
  (k = "version" /\ is_string_in ["l2tpv2"; "l2tpv3"] v) \/
  ((k = "tid" \/ k = "ptid") /\ is_uint32_value v) \/
  (k = "session" /\ session_table_ok v).

(** ** Predicates on the tunnel factories, the handlers and the addresses *)

Import L2tp.

(** The tunnel object a factory builds in state [s]: its config is the
    struct at the next free address. *)
Definition new_tunnel (kind : TunnelKind) (name : string) (s : State) : tunnel :=
  {| t_kind := kind; getName := name;
     getCfg := Some (fresh (dom (heap (world s)))) |}.

(** The state [s] once the tunnel [new_tunnel kind name s] with the config
    [myCfg] is built and linked. *)
Definition linked (kind : TunnelKind) (name : string) (myCfg : TunnelConfig) (s : State) : State :=
  {| ctx := with_tunnels (<[name := new_tunnel kind name s]> (tunnelsByName (ctx s)))
                         (<[TunnelID myCfg := new_tunnel kind name s]> (tunnelsByID (ctx s)))
                         (ctx s);
     world := {| heap := <[fresh (dom (heap (world s))) := myCfg]> (heap (world s));
                 seed := seed (world s); draws := draws (world s);
                 trace := trace (world s) ++ [EvNewTunnel (new_tunnel kind name s)] |} |}.

(** What [NewStaticTunnel] asks of the config [c] and the context. *)
Definition static_accepts (K : Consts) (X : Externals) (name : string) (c : TunnelConfig)
  (s : State) : Prop :=
  tunnelsByName (ctx s) !! name = None /\
  Version c = ProtocolVersion3 /\
  TunnelID c <> 0 /\ PeerTunnelID c <> 0 /\
  Local c <> "" /\ Peer c <> "" /\
  tunnelsByID (ctx s) !! TunnelID c = None /\
  exists addrs, addressPair K X c = Ok addrs /\
                newTunnel_err X Static name (fst addrs) (snd addrs) c = None.

(** What [NewQuiescentTunnel] asks of the config [c] and the context. *)
Definition quiescent_accepts (K : Consts) (X : Externals) (name : string) (c : TunnelConfig)
  (s : State) : Prop :=
  tunnelsByName (ctx s) !! name = None /\
  (Encap c = EncapTypeIP K -> Version c = ProtocolVersion3) /\
  TunnelID c <> 0 /\ PeerTunnelID c <> 0 /\
  (Version c = ProtocolVersion2 -> TunnelID c <= 65535 /\ PeerTunnelID c <= 65535) /\
  Local c <> "" /\ Peer c <> "" /\
  tunnelsByID (ctx s) !! TunnelID c = None /\
  exists addrs, addressPair K X c = Ok addrs /\
                newTunnel_err X Quiescent name (fst addrs) (snd addrs) c = None.

(** What the copy [myCfg] that [NewDynamicTunnel] makes of the caller's
    config [c] holds: the caller's fields, but for a host name, a StopCCN
    timeout or a tunnel ID that the caller left unset. *)
Definition dynamic_copy (X : Externals) (c myCfg : TunnelConfig) : Prop :=
  Local myCfg = Local c /\ Peer myCfg = Peer c /\ Encap myCfg = Encap c /\
  Version myCfg = Version c /\ PeerTunnelID myCfg = PeerTunnelID c /\
  WindowSize myCfg = WindowSize c /\ HelloTimeout myCfg = HelloTimeout c /\
  RetryTimeout myCfg = RetryTimeout c /\ MaxRetries myCfg = MaxRetries c /\
  (if String.eqb (HostName c) "" then os_Hostname X = Ok (HostName myCfg)
   else HostName myCfg = HostName c) /\
  (if StopCCNTimeout c =? 0 then StopCCNTimeout myCfg = 31 * Second
   else StopCCNTimeout myCfg = StopCCNTimeout c) /\
  (TunnelID c <> 0 -> TunnelID myCfg = TunnelID c).

(** The state after the handlers [hs] are registered one after the other. *)
Definition registerAll (hs : list EventHandler) (s : State) : State :=
  fold_left (fun s h => after (RegisterEventHandler h) s) hs s.

(** A socket address as [newUDPTunnelAddress] builds them: IPv4 or IPv6. *)
Definition udp_sockaddr (sa : Sockaddr) : Prop :=
  match sa with
  | SockaddrInet4 _ a => length a = 4%nat
  | SockaddrInet6 _ a => length a = 16%nat
  | _ => False
  end.

(** A socket address as [newIPTunnelAddress] builds them for the connection
    ID [ccid]: L2TP/IP over IPv4 or IPv6. *)
Definition ip_sockaddr (ccid : Z) (sa : Sockaddr) : Prop :=
  match sa with
  | SockaddrL2TPIP a id => length a = 4%nat /\ id = ccid mod 2 ^ 32
  | SockaddrL2TPIP6 a id => length a = 16%nat /\ id = ccid mod 2 ^ 32
  | _ => False
  end.

(** The zero value of the struct behind [sa]: the unspecified address of its
    family, with port or connection ID 0. *)
Definition zero_sockaddr (sa : Sockaddr) : Sockaddr :=
  match sa with
  | SockaddrInet4 _ _ => SockaddrInet4 0 [0; 0; 0; 0]
  | SockaddrInet6 _ _ => SockaddrInet6 0 [0; 0; 0; 0; 0; 0; 0; 0; 0; 0; 0; 0; 0; 0; 0; 0]
  | SockaddrL2TPIP _ _ => SockaddrL2TPIP [0; 0; 0; 0] 0
  | SockaddrL2TPIP6 _ _ =>
      SockaddrL2TPIP6 [0; 0; 0; 0; 0; 0; 0; 0; 0; 0; 0; 0; 0; 0; 0; 0] 0
  end.

(** The data plane a context gets for the one handed to [NewContext]. *)
Definition data_plane_for (d : DataPlane) : DataPlane :=
  match d with
  | DataPlane_nil => nullDataPlane
  | LinuxNetlinkDataPlane => netlinkDataPlane
  | _ => d
  end.

(** The first twelve bytes of an IPv4 address in its 16-byte form. *)
Definition v4InV6Prefix : list Z := [0; 0; 0; 0; 0; 0; 0; 0; 0; 0; 255; 255].

(** Example inputs: an L2TPv3 config, a config that names no version, and
    the state a call of [NewContext] with a nil data plane leaves at time 0
    over an empty store. *)
Definition cfg_v3 (tid ptid : Z) : TunnelConfig :=
  {| Local := "127.0.0.1:9000"; Peer := "127.0.0.1:9001";
     Encap := 0; Version := 3; TunnelID := tid;
     PeerTunnelID := ptid; HostName := ""; StopCCNTimeout := 0;
     WindowSize := 4; HelloTimeout := 0; RetryTimeout := 0;
     MaxRetries := 3 |}.

Definition cfg_no_version : TunnelConfig :=
  {| Local := ""; Peer := "127.0.0.1:9001";
     Encap := 0; Version := 0; TunnelID := 0;
     PeerTunnelID := 0; HostName := "lac"; StopCCNTimeout := 0;
     WindowSize := 4; HelloTimeout := 0; RetryTimeout := 0;
     MaxRetries := 3 |}.


(** ** Predicates on the sessions of a tunnel *)

(** The two maps of a tunnel index the same sessions, one by name and one
    by the session ID of the session's config. *)
Definition sessions_consistent (bt : baseTunnel) : Prop :=
  (forall name s,
     sessionsByName bt !! name = Some s ->
     s_getName s = name /\
     sessionsByID bt !! Config.SessionID (s_getCfg s) = Some s) /\
  (forall id s,
     sessionsByID bt !! id = Some s ->
     Config.SessionID (s_getCfg s) = id /\
     sessionsByName bt !! s_getName s = Some s).

(** Example inputs: a tunnel with the one session "s1", whose ID is 9. *)
Definition example_session : session :=
  {| s_getName := "s1";
     s_getCfg := Config.set_SessionID 9 Config.SessionConfig_zero |}.

Definition tunnel_one_session : baseTunnel :=
  linkSession example_session (newBaseTunnel "t0" (Some 1%positive)).

(** ** Predicates on the netlink interface *)

(** The tunnel configs [tunnelCreateAttr] has no objection to. *)
Definition valid_tunnel (N : Nll2tp.Externals) (cfg : Nll2tp.TunnelConfig) : Prop :=
  Nll2tp.Tid cfg <> 0 /\ Nll2tp.Ptid cfg <> 0 /\
  ((Nll2tp.Version cfg = ProtocolVersion2 /\
    Nll2tp.Tid cfg <= 65535 /\ Nll2tp.Ptid cfg <= 65535 /\
    Nll2tp.Encap cfg = Nll2tp.EncaptypeUdp N) \/
   (Nll2tp.Version cfg = ProtocolVersion3 /\
    (Nll2tp.Encap cfg = Nll2tp.EncaptypeUdp N \/ Nll2tp.Encap cfg = Nll2tp.EncaptypeIp N))).

(** The request [createTunnel] makes of the marshalled attributes [b]. *)
Definition create_request (N : Nll2tp.Externals) (c : Nll2tp.Conn) (b : list Z)
  : Nll2tp.Request :=
  {| Nll2tp.Command := Nll2tp.CmdTunnelCreate N;
     Nll2tp.MsgVersion := Nll2tp.genlFamily_Version c;
     Nll2tp.MsgData := b;
     Nll2tp.Family := Nll2tp.genlFamily_ID c;
     Nll2tp.Flags := Nll2tp.RequestAcknowledge N |}.

(** What [CreateStaticTunnel] checks before it looks at the address length:
    a valid config, two addresses of the same, non-zero length, and ports
    for UDP. *)
Definition static_tunnel_checked (N : Nll2tp.Externals) (localAddr : list Z)
  (localPort : Z) (peerAddr : list Z) (peerPort : Z) (cfg : Nll2tp.TunnelConfig) : Prop :=
  valid_tunnel N cfg /\
  length localAddr = length peerAddr /\ length localAddr <> 0%nat /\
  (Nll2tp.Encap cfg = Nll2tp.EncaptypeUdp N -> localPort <> 0 /\ peerPort <> 0).

(** * Properties of the configuration loader *)

Lemma andThen_Ok {A B} (r : result A) (k : A -> result B) (b : B) :
  andThen r k = Ok b <-> exists a, r = Ok a /\ k a = Ok b.
Proof.
  destruct r as [a|e]; simpl; split.
  - intros H. exists a. auto.
  - intros (a' & Ha & Hk). injection Ha as ->. exact Hk.
  - discriminate.
  - intros (a' & Ha & _). discriminate.
Qed.

Lemma wrapErr_Ok {A} (w : error -> error) (r : result A) (a : A) :
  wrapErr w r = Ok a <-> r = Ok a.
Proof. destruct r; simpl; split; congruence. Qed.


Lemma is_Err_andThen_l {A B} (r : result A) (k : A -> result B) :
  is_Err r -> is_Err (andThen r k).
Proof. destruct r; simpl; tauto. Qed.

Lemma is_Err_wrapErr {A} (w : error -> error) (r : result A) :
  is_Err r -> is_Err (wrapErr w r).
Proof. destruct r; simpl; tauto. Qed.

Section RangeFacts.
Context {S : Type} (body : string -> Value -> S -> result S).

Lemma range_app (s : S) (m1 m2 : list (string * Value)) :
  Config.range body s (m1 ++ m2) = andThen (Config.range body s m1) (fun s' => Config.range body s' m2).
Proof.
  revert s. induction m1 as [|[k v] m1 IH]; intros s; simpl.
  - reflexivity.
  - destruct (body k v s) as [s'|e]; simpl; [apply IH | reflexivity].
Qed.

(** An entry that the body rejects in every state makes the loop fail,
    wherever it stands. *)
Lemma range_rejects (k : string) (v : Value) (m : list (string * Value)) :
  In (k, v) m -> (forall s, is_Err (body k v s)) -> forall s, is_Err (Config.range body s m).
Proof.
  intros Hin Hrej. induction m as [|[k' v'] m IH]; intros s; simpl.
  - destruct Hin.
  - destruct Hin as [Heq|Hin].
    + injection Heq as -> ->. apply is_Err_andThen_l, Hrej.
    + destruct (body k' v' s) as [s'|e]; simpl; [apply IH, Hin | exact I].
Qed.

(** The entry reached after an accepted prefix decides the result when the
    body rejects it. *)
Lemma range_first_rejected (s s' : S) (pre post : list (string * Value))
  (k : string) (v : Value) (e : error) :
  Config.range body s pre = Ok s' -> body k v s' = Err e ->
  Config.range body s (pre ++ (k, v) :: post) = Err e.
Proof.
  intros Hpre Hk. rewrite range_app, Hpre. simpl. rewrite Hk. reflexivity.
Qed.

End RangeFacts.

Lemma lookup_key_None (k : string) (m : list (string * Value)) :
  k ∉ map fst m -> lookup_key k m = None.
Proof.
  induction m as [|[k' v] m IH]; simpl; intros Hn; [reflexivity|].
  apply not_elem_of_cons in Hn as [Hne Hn].
  destruct (String.eqb_spec k k') as [->|_]; [congruence | apply IH, Hn].
Qed.

Section ConfigFacts.
Variable K : Consts.

Ltac split_key k s :=
  destruct (String.eqb_spec k s) as [->|?].

Lemma sessionParam_None (k : string) (v : Value) (sc : Config.SessionConfig) :
  ~ In k session_keys -> Config.sessionParam K k v sc = None.
Proof.
  intros Hn. unfold Config.sessionParam, session_keys in *.
  repeat match goal with
         | |- context [String.eqb k ?s] =>
             destruct (String.eqb_spec k s) as [->|?];
             [exfalso; apply Hn; simpl; tauto|]
         end.
  reflexivity.
Qed.

Lemma tunnelParam_None (k : string) (v : Value) (tc : Config.TunnelConfig) :
  ~ In k tunnel_keys -> Config.tunnelParam K k v tc = None.
Proof.
  intros Hn. unfold Config.tunnelParam, tunnel_keys in *.
  repeat match goal with
         | |- context [String.eqb k ?s] =>
             destruct (String.eqb_spec k s) as [->|?];
             [exfalso; apply Hn; simpl; tauto|]
         end.
  reflexivity.
Qed.

Lemma newSessionConfig_body_unknown (k : string) (v : Value) (sc : Config.SessionConfig) :
  ~ In k session_keys ->
  Config.newSessionConfig_body K k v sc =
    Err (Errorf "unrecognised parameter '%v'" [ArgString k]).
Proof.
  intros Hn. unfold Config.newSessionConfig_body.
  rewrite sessionParam_None by exact Hn. reflexivity.
Qed.

Lemma newTunnelConfig_body_unknown (k : string) (v : Value) (tc : Config.TunnelConfig) :
  ~ In k tunnel_keys ->
  Config.newTunnelConfig_body K k v tc =
    Err (Errorf "unrecognised parameter '%v'" [ArgString k]).
Proof.
  intros Hn. unfold Config.newTunnelConfig_body.
  rewrite tunnelParam_None by exact Hn. reflexivity.
Qed.

(** A session table with an unknown key is rejected. *)
Lemma newSessionConfig_unknown (smap : list (string * Value)) (k : string) (v : Value) :
  In (k, v) smap -> ~ In k session_keys -> is_Err (Config.newSessionConfig K smap).
Proof.
  intros Hin Hn. unfold Config.newSessionConfig.
  apply (range_rejects _ k v); [exact Hin|].
  intros sc. rewrite newSessionConfig_body_unknown by exact Hn. exact I.
Qed.

(** A tunnel table with an unknown key is rejected. *)
Lemma newTunnelConfig_unknown (tmap : list (string * Value)) (k : string) (v : Value) :
  In (k, v) tmap -> ~ In k tunnel_keys -> is_Err (Config.newTunnelConfig K tmap).
Proof.
  intros Hin Hn. unfold Config.newTunnelConfig.
  apply (range_rejects _ k v); [exact Hin|].
  intros tc. rewrite newTunnelConfig_body_unknown by exact Hn. exact I.
Qed.

(** A rejected session makes [loadSessions] fail. *)
Lemma loadSessions_rejects (sessions : list (string * Value)) (sname : string)
  (smap : list (string * Value)) (t : Config.TunnelConfig) :
  In (sname, VMap smap) sessions -> is_Err (Config.newSessionConfig K smap) ->
  is_Err (Config.loadSessions K t (VMap sessions)).
Proof.
  intros Hin Herr. simpl.
  apply (range_rejects _ sname (VMap smap)); [exact Hin|].
  intros t'. unfold Config.loadSessions_body.
  apply is_Err_andThen_l, is_Err_wrapErr, Herr.
Qed.

(** A tunnel table whose session table has a rejected session is rejected. *)
Lemma newTunnelConfig_session_rejects (tmap sessions : list (string * Value))
  (sname : string) (smap : list (string * Value)) :
  In ("session", VMap sessions) tmap -> In (sname, VMap smap) sessions ->
  is_Err (Config.newSessionConfig K smap) ->
  is_Err (Config.newTunnelConfig K tmap).
Proof.
  intros Hin Hs Herr. unfold Config.newTunnelConfig.
  apply (range_rejects _ "session" (VMap sessions)); [exact Hin|].
  intros tc. unfold Config.newTunnelConfig_body. cbn [Config.tunnelParam String.eqb Ascii.eqb Bool.eqb].
  apply is_Err_wrapErr. exact (loadSessions_rejects sessions sname smap tc Hs Herr).
Qed.

(** A rejected tunnel makes [newConfig] fail. *)
Lemma newConfig_rejects (tree tunnels : list (string * Value)) (tname : string)
  (tmap : list (string * Value)) :
  lookup_key "tunnel" tree = Some (VMap tunnels) ->
  In (tname, VMap tmap) tunnels -> is_Err (Config.newTunnelConfig K tmap) ->
  is_Err (Config.newConfig K tree).
Proof.
  intros Hl Hin Herr. unfold Config.newConfig, Config.loadTunnels. simpl.
  rewrite Hl. apply is_Err_wrapErr.
  apply (range_rejects _ tname (VMap tmap)); [exact Hin|].
  intros cfg. unfold Config.loadTunnels_body.
  apply is_Err_andThen_l, is_Err_wrapErr, Herr.
Qed.

End ConfigFacts.

Lemma is_Ok_inv {A} (r : result A) : is_Ok r -> exists a, r = Ok a.
Proof. destruct r as [a|e]; simpl; [eauto | tauto]. Qed.

Lemma reports_unrecognised_names (k : string) (e : error) :
  reports_unrecognised k e -> names k e.
Proof.
  revert e.
  fix IH 1. intros [format args] [Heq|Hsub].
  - injection Heq as _ ->. simpl. left. reflexivity.
  - simpl. revert Hsub.
    induction args as [|a args IHargs]; [tauto|].
    destruct a as [s|n|v|e']; try exact IHargs.
    + intros H. right. exact (IHargs H).
    + intros [H|H]; [left; exact (IH e' H) | right; exact (IHargs H)].
Qed.

Section LoaderClaims.
Variable K : Consts.
Variable toml_LoadFile : string -> result (list (string * Value)).
Variable toml_Load : string -> result (list (string * Value)).

Lemma unknown_key_rejected (tree : list (string * Value)) (k : string) :
  has_unknown_tunnel_key tree k \/ has_unknown_session_key tree k ->
  is_Err (Config.newConfig K tree).
Proof.
  intros [(tunnels & tname & tmap & v & Hl & Ht & Hk & Hn)
         |(tunnels & tname & tmap & sessions & sname & smap & v & Hl & Ht & Hs & Hm & Hk & Hn)].
  - apply (newConfig_rejects K tree tunnels tname tmap Hl Ht).
    exact (newTunnelConfig_unknown K tmap k v Hk Hn).
  - apply (newConfig_rejects K tree tunnels tname tmap Hl Ht).
    apply (newTunnelConfig_session_rejects K tmap sessions sname smap Hs Hm).
    exact (newSessionConfig_unknown K smap k v Hk Hn).
Qed.

Lemma reached_tunnel_key_error (tree : list (string * Value)) (tname k : string) :
  reaches_tunnel_key K tree tname k -> ~ In k tunnel_keys ->
  Config.newConfig K tree = Err (unknown_tunnel_key_error tname k).
Proof.
  intros (tpre & pre & v & post & tpost & Hl & Hpre & Hkeys) Hn.
  apply is_Ok_inv in Hpre as [cfg' Hpre]. apply is_Ok_inv in Hkeys as [tc Hkeys].
  unfold Config.newConfig, Config.loadTunnels. simpl. rewrite Hl.
  rewrite (range_first_rejected _ _ cfg' tpre tpost tname _
             (Errorf "tunnel %v: %v"
                [ArgString tname;
                 ArgError (Errorf "unrecognised parameter '%v'" [ArgString k])]) Hpre).
  - reflexivity.
  - unfold Config.loadTunnels_body, Config.newTunnelConfig.
    rewrite (range_first_rejected _ _ tc pre post k v
               (Errorf "unrecognised parameter '%v'" [ArgString k]) Hkeys).
    + reflexivity.
    + apply newTunnelConfig_body_unknown, Hn.
Qed.

Lemma reached_session_key_error (tree : list (string * Value)) (tname sname k : string) :
  reaches_session_key K tree tname sname k -> ~ In k session_keys ->
  Config.newConfig K tree = Err (unknown_session_key_error tname sname k).
Proof.
  intros (tpre & pre & spre & ppre & v & ppost & spost & post & tpost & tc
          & Hl & Hpre & Hkeys & Hspre & Hppre) Hn.
  apply is_Ok_inv in Hpre as [cfg' Hpre]. apply is_Ok_inv in Hspre as [t' Hspre].
  apply is_Ok_inv in Hppre as [sc Hppre].
  unfold Config.newConfig, Config.loadTunnels. simpl. rewrite Hl.
  erewrite (range_first_rejected _ _ cfg' tpre tpost tname _ _ Hpre).
  - reflexivity.
  - unfold Config.loadTunnels_body, Config.newTunnelConfig.
    erewrite (range_first_rejected _ _ tc pre post "session" _ _ Hkeys).
    + reflexivity.
    + unfold Config.newTunnelConfig_body.
      cbn [Config.tunnelParam String.eqb Ascii.eqb Bool.eqb Config.loadSessions].
      erewrite (range_first_rejected _ _ t' spre spost sname _ _ Hspre).
      * reflexivity.
      * unfold Config.loadSessions_body, Config.newSessionConfig.
        erewrite (range_first_rejected _ _ sc ppre ppost k v _ Hppre).
        -- reflexivity.
        -- apply newSessionConfig_body_unknown, Hn.
Qed.

(** C8 (as amended).  A configuration with a tunnel key outside
    local, peer, encap, version, tid, ptid, session, or a session key
    outside sid, psid, pseudowire, seqnum, reorder_timeout, cookie,
    peer_cookie, interface_name, l2spec_type, never loads: [newConfig], and
    so [LoadString] and [LoadFile], return an error and no [Config].  The
    error is that of the first entry the loops reject: when the unknown key
    is reached before any other rejected entry, the error is the
    "unrecognised parameter" error for that key, wrapped with the names of
    its tunnel (and session). *)
Theorem unknown_key_fails_loading (tree : list (string * Value)) (k src : string) :
  has_unknown_tunnel_key tree k \/ has_unknown_session_key tree k ->
  is_Err (Config.newConfig K tree) /\
  (toml_Load src = Ok tree -> is_Err (Config.LoadString K toml_Load src)) /\
  (toml_LoadFile src = Ok tree -> is_Err (Config.LoadFile K toml_LoadFile src)) /\
  (forall tname, reaches_tunnel_key K tree tname k -> ~ In k tunnel_keys ->
     Config.newConfig K tree = Err (unknown_tunnel_key_error tname k) /\
     reports_unrecognised k (unknown_tunnel_key_error tname k)) /\
  (forall tname sname, reaches_session_key K tree tname sname k -> ~ In k session_keys ->
     Config.newConfig K tree = Err (unknown_session_key_error tname sname k) /\
     reports_unrecognised k (unknown_session_key_error tname sname k)).
Proof.
  intros Hunk. pose proof (unknown_key_rejected tree k Hunk) as Herr.
  repeat split.
  - exact Herr.
  - intros Hp. unfold Config.LoadString. rewrite Hp. exact Herr.
  - intros Hp. unfold Config.LoadFile. rewrite Hp. exact Herr.
  - apply reached_tunnel_key_error; assumption.
  - simpl. tauto.
  - apply reached_session_key_error; assumption.
  - simpl. tauto.
Qed.


End LoaderClaims.

(** C8, witness: a tunnel whose only key is the unknown key "foo". *)
Lemma unknown_key_fails_loading_witness :
  (has_unknown_tunnel_key tree_unknown_key "foo" \/
   has_unknown_session_key tree_unknown_key "foo") /\
  is_Err (Config.newConfig linux_consts tree_unknown_key) /\
  Config.newConfig linux_consts tree_unknown_key =
    Err (unknown_tunnel_key_error "t1" "foo").
Proof.
  assert (Hn : ~ In "foo" tunnel_keys).
  { unfold tunnel_keys. simpl. intuition discriminate. }
  assert (Hunk : has_unknown_tunnel_key tree_unknown_key "foo" \/
                 has_unknown_session_key tree_unknown_key "foo").
  { left. exists [("t1", VMap [("foo", VInt64 1)])], "t1", [("foo", VInt64 1)], (VInt64 1).
    repeat split; [left; reflexivity | left; reflexivity | exact Hn]. }
  destruct (unknown_key_fails_loading linux_consts (fun _ => Ok tree_unknown_key)
              (fun _ => Ok tree_unknown_key) tree_unknown_key "foo" "" Hunk)
    as (Herr & _ & _ & Htun & _).
  split; [exact Hunk|]. split; [exact Herr|].
  apply (Htun "t1"); [|exact Hn].
  exists [], [], (VInt64 1), [], []. repeat split.
Defined.

(** C8, counterexample: tunnel "t1" has the unknown key "foo" and a "tid"
    that is not a number.  When the loop of [newTunnelConfig] visits "tid"
    first, loading fails with the error for "tid", which does not print
    "foo" anywhere. *)
Lemma unknown_key_error_names_other_entry :
  has_unknown_tunnel_key tree_bad_tid_first "foo" /\
  exists e, Config.newConfig linux_consts tree_bad_tid_first = Err e /\
            ~ names "foo" e.
Proof.
  split.
  - exists [("t1", VMap [("tid", VString "x"); ("foo", VInt64 1)])], "t1",
      [("tid", VString "x"); ("foo", VInt64 1)], (VInt64 1).
    repeat split; [left; reflexivity | right; left; reflexivity |].
    unfold tunnel_keys. simpl. intuition discriminate.
  - eexists. split; [reflexivity|]. simpl. intuition discriminate.
Qed.


(** ** Cookies *)

Lemma toByte_Ok (number : Value) (b : Z) :
  Config.toByte number = Ok b <-> byte_of number b.
Proof.
  unfold byte_of.
  destruct number as [x|n|n|x|x|x|x|x]; simpl;
    try (split; [discriminate | intros [[E|E] _]; discriminate]).
  - rewrite Z.gtb_ltb.
    destruct (Z.ltb_spec n 0) as [Hlo|Hlo]; destruct (Z.ltb_spec 255 n) as [Hhi|Hhi];
      simpl; split; try discriminate;
      try (intros [[E|E] ?]; [injection E as -> | discriminate]; lia).
    + intros E. injection E as <-. rewrite Z.mod_small by lia. split; [tauto | lia].
    + intros [[E|E] ?]; [injection E as -> | discriminate].
      rewrite Z.mod_small by lia. reflexivity.
  - rewrite Z.gtb_ltb.
    destruct (Z.ltb_spec n 0) as [Hlo|Hlo]; destruct (Z.ltb_spec 255 n) as [Hhi|Hhi];
      simpl; split; try discriminate;
      try (intros [[E|E] ?]; [discriminate | injection E as ->]; lia).
    + intros E. injection E as <-. rewrite Z.mod_small by lia. split; [tauto | lia].
    + intros [[E|E] ?]; [discriminate | injection E as ->].
      rewrite Z.mod_small by lia. reflexivity.
Qed.

Lemma toBytes_loop_Ok (numbers : list Value) (out bs : list Z) :
  Config.toBytes_loop out numbers = Ok bs <->
  exists tl, bs = out ++ tl /\ Forall2 byte_of numbers tl.
Proof.
  revert out. induction numbers as [|number rest IH]; intros out; simpl.
  - split.
    + intros H. injection H as <-. exists []. rewrite app_nil_r. split; constructor.
    + intros (tl & -> & Hall). inversion Hall. rewrite app_nil_r. reflexivity.
  - rewrite andThen_Ok. split.
    + intros (b & Hb & Hrest). apply IH in Hrest as (tl & -> & Hall).
      exists (b :: tl). rewrite <- app_assoc. split; [reflexivity|].
      constructor; [apply toByte_Ok, Hb | exact Hall].
    + intros (tl & -> & Hall). inversion Hall as [|? b ? tl' Hb Hall']. subst.
      exists b. split; [apply toByte_Ok, Hb|].
      apply IH. exists tl'. rewrite <- app_assoc. split; [reflexivity | exact Hall'].
Qed.

(** [toBytes] accepts exactly the arrays of integers in 0..255, of any
    length, and returns them as bytes. *)
Lemma toBytes_Ok (v : Value) (bs : list Z) :
  Config.toBytes v = Ok bs <->
  exists numbers, v = VArray numbers /\ Forall2 byte_of numbers bs.
Proof.
  destruct v as [x|x|x|x|x|numbers|x|x]; simpl;
    try (split; [discriminate | intros (? & H & _); discriminate]).
  rewrite toBytes_loop_Ok. split.
  - intros (tl & -> & Hall). exists numbers. split; [reflexivity | exact Hall].
  - intros (numbers' & H & Hall). injection H as <-. exists bs. split; [reflexivity | exact Hall].
Qed.

Section CookieFacts.
Variable K : Consts.

Ltac on_key k s tac := destruct (String.eqb_spec k s) as [->|?]; [tac|].

Ltac param_case :=
  let H := fresh "H" in
  let x := fresh "x" in
  let Hx := fresh "Hx" in
  let Hsc := fresh "Hsc" in
  cbn; intros H; apply wrapErr_Ok in H; apply andThen_Ok in H as (x & Hx & Hsc);
  injection Hsc as <-; cbn; split; first [assumption | reflexivity].

(** One turn of the loop of [newSessionConfig] sets the cookie fields from
    the keys "cookie" and "peer_cookie" and otherwise leaves them alone. *)
Lemma newSessionConfig_body_cookies (k : string) (v : Value)
  (sc sc' : Config.SessionConfig) :
  Config.newSessionConfig_body K k v sc = Ok sc' ->
  (if String.eqb k "cookie" then Config.toBytes v = Ok (Config.Cookie sc')
   else Config.Cookie sc' = Config.Cookie sc) /\
  (if String.eqb k "peer_cookie" then Config.toBytes v = Ok (Config.PeerCookie sc')
   else Config.PeerCookie sc' = Config.PeerCookie sc).
Proof.
  unfold Config.newSessionConfig_body, Config.sessionParam.
  on_key k "sid" param_case.
  on_key k "psid" param_case.
  on_key k "pseudowire" param_case.
  on_key k "seqnum" param_case.
  on_key k "reorder_timeout" param_case.
  on_key k "cookie" param_case.
  on_key k "peer_cookie" param_case.
  on_key k "interface_name" param_case.
  on_key k "l2spec_type" param_case.
  discriminate.
Qed.

Lemma newSessionConfig_range_cookies (scfg : list (string * Value))
  (sc0 sc : Config.SessionConfig) :
  NoDup (map fst scfg) ->
  Config.range (Config.newSessionConfig_body K) sc0 scfg = Ok sc ->
  match lookup_key "cookie" scfg with
  | Some v => Config.toBytes v = Ok (Config.Cookie sc)
  | None => Config.Cookie sc = Config.Cookie sc0
  end /\
  match lookup_key "peer_cookie" scfg with
  | Some v => Config.toBytes v = Ok (Config.PeerCookie sc)
  | None => Config.PeerCookie sc = Config.PeerCookie sc0
  end.
Proof.
  revert sc0. induction scfg as [|[k v] rest IH]; intros sc0 Hnd Hrun.
  - simpl in *. injection Hrun as <-. split; reflexivity.
  - simpl in Hnd. inversion Hnd as [|? ? Hnotin Hnd']. subst.
    simpl in Hrun. apply andThen_Ok in Hrun as (sc1 & Hbody & Hrest).
    apply newSessionConfig_body_cookies in Hbody as [Hc Hp].
    destruct (IH sc1 Hnd' Hrest) as [IHc IHp].
    cbn [lookup_key].
    rewrite (String.eqb_sym "cookie" k), (String.eqb_sym "peer_cookie" k).
    split.
    + destruct (String.eqb_spec k "cookie") as [->|Hne].
      * rewrite (lookup_key_None "cookie" rest Hnotin) in IHc. congruence.
      * destruct (lookup_key "cookie" rest); congruence.
    + destruct (String.eqb_spec k "peer_cookie") as [->|Hne].
      * rewrite (lookup_key_None "peer_cookie" rest Hnotin) in IHp. congruence.
      * destruct (lookup_key "peer_cookie" rest); congruence.
Qed.

(** C4 (as amended).  For every session table that [newSessionConfig]
    accepts, [Cookie] (and [PeerCookie]) is the array given under "cookie"
    ("peer_cookie"), element by element: each element is an integer in
    0..255 and the field has as many bytes as the array has elements,
    whatever that number is; without the key the field is empty.  A value
    that is not such an array fails loading. *)
Theorem loaded_cookie_is_the_given_array (scfg : list (string * Value))
  (sc : Config.SessionConfig) :
  NoDup (map fst scfg) ->
  Config.newSessionConfig K scfg = Ok sc ->
  cookie_loaded (lookup_key "cookie" scfg) (Config.Cookie sc) /\
  cookie_loaded (lookup_key "peer_cookie" scfg) (Config.PeerCookie sc).
Proof.
  intros Hnd Hrun.
  destruct (newSessionConfig_range_cookies scfg _ sc Hnd Hrun) as [Hc Hp].
  unfold cookie_loaded. split.
  - destruct (lookup_key "cookie" scfg) as [v|]; [apply toBytes_Ok, Hc | exact Hc].
  - destruct (lookup_key "peer_cookie" scfg) as [v|]; [apply toBytes_Ok, Hp | exact Hp].
Qed.

(** Every array of bytes is accepted as a cookie, whatever its length. *)
Lemma cookie_of_any_length_accepted (bs : list Z) :
  Forall (fun b => 0 <= b <= 255) bs ->
  Config.newSessionConfig K [("cookie", VArray (map VInt64 bs))] =
    Ok (Config.set_Cookie bs Config.SessionConfig_zero).
Proof.
  intros Hall.
  assert (Hb : Config.toBytes (VArray (map VInt64 bs)) = Ok bs).
  { apply toBytes_Ok. exists (map VInt64 bs). split; [reflexivity|].
    induction Hall as [|b bs Hb Hall IH]; simpl; constructor; [|exact IH].
    split; [left; reflexivity | exact Hb]. }
  unfold Config.newSessionConfig. simpl.
  unfold Config.newSessionConfig_body. cbn [Config.sessionParam String.eqb Ascii.eqb Bool.eqb].
  rewrite Hb. reflexivity.
Qed.

End CookieFacts.

(** C4, witness: a session table with a three-byte cookie. *)
Lemma loaded_cookie_is_the_given_array_witness :
  NoDup (map fst [("cookie", VArray [VInt64 1; VInt64 2; VInt64 3])]) /\
  Config.newSessionConfig linux_consts [("cookie", VArray [VInt64 1; VInt64 2; VInt64 3])] =
    Ok (Config.set_Cookie [1; 2; 3] Config.SessionConfig_zero) /\
  cookie_loaded (Some (VArray [VInt64 1; VInt64 2; VInt64 3])) [1; 2; 3].
Proof.
  assert (Hnd : NoDup (map fst [("cookie", VArray [VInt64 1; VInt64 2; VInt64 3])])).
  { simpl. apply NoDup_singleton. }
  split; [exact Hnd|]. split; [reflexivity|].
  exact (proj1 (loaded_cookie_is_the_given_array linux_consts
                  [("cookie", VArray [VInt64 1; VInt64 2; VInt64 3])]
                  (Config.set_Cookie [1; 2; 3] Config.SessionConfig_zero)
                  Hnd eq_refl)).
Defined.

(** C4, counterexample: the loader accepts a configuration whose session
    has a cookie of three bytes. *)
Lemma cookie_of_three_bytes_loads :
  exists cfg tc sc,
    Config.newConfig linux_consts tree_cookie3 = Ok cfg /\
    Config.tunnels cfg !! "t1" = Some tc /\
    Config.Sessions tc !! "s1" = Some sc /\
    Config.Cookie sc = [1; 2; 3] /\
    ~ In (length (Config.Cookie sc)) [0%nat; 4%nat; 8%nat].
Proof.
  do 3 eexists. split; [reflexivity|]. split; [reflexivity|]. split; [reflexivity|].
  split; [reflexivity|]. simpl. intuition discriminate.
Qed.

(** * Properties of the context *)

Import L2tp.

(** ** Call serial numbers *)

Lemma allocCallSerial_eq (s : State) :
  allocCallSerial s =
    (Ret ((callSerial (ctx s) + 1) mod 2 ^ 32),
     {| ctx := with_callSerial ((callSerial (ctx s) + 1) mod 2 ^ 32) (ctx s);
        world := world s |}).
Proof. reflexivity. Qed.

Lemma allocCallSerials_eq (n : nat) (s : State) :
  fst (allocCallSerials n s) =
    map (fun i => (callSerial (ctx s) + 1 + Z.of_nat i) mod 2 ^ 32) (seq 0 n).
Proof.
  revert s. induction n as [|n IH]; intros s; [reflexivity|].
  cbn [allocCallSerials]. rewrite allocCallSerial_eq.
  destruct (allocCallSerials n _) as [vs s''] eqn:Hrest.
  cbn [fst seq map]. f_equal.
  - f_equal. lia.
  - change vs with (fst (vs, s'')). rewrite <- Hrest, IH. cbn [ctx callSerial with_callSerial].
    rewrite <- seq_shift, map_map. apply map_ext. intros i.
    rewrite <- Zplus_assoc, Zplus_mod_idemp_l. f_equal. lia.
Qed.

Lemma mod_2_32_inj (c i j : Z) :
  0 <= i < 2 ^ 32 -> 0 <= j < 2 ^ 32 ->
  (c + i) mod 2 ^ 32 = (c + j) mod 2 ^ 32 -> i = j.
Proof.
  change (2 ^ 32) with 4294967296. intros Hi Hj Heq.
  pose proof (Z.div_mod (c + i) 4294967296 ltac:(lia)) as Hdi.
  pose proof (Z.div_mod (c + j) 4294967296 ltac:(lia)) as Hdj.
  rewrite Heq in Hdi. lia.
Qed.

Section SerialClaims.
Variable X : Externals.

(** C7.  Each call of [allocCallSerial] returns the counter plus one modulo
    2^32 and leaves the counter at that value; the counter of a new context
    is the first draw of the generator, a 32-bit number; so fewer than 2^32
    calls in a row on one context return pairwise distinct serial numbers. *)
Theorem call_serials_distinct (s : State) (n : nat) :
  Z.of_nat n < 2 ^ 32 ->
  fst (allocCallSerial s) = Ret ((callSerial (ctx s) + 1) mod 2 ^ 32) /\
  callSerial (ctx (after allocCallSerial s)) = (callSerial (ctx s) + 1) mod 2 ^ 32 /\
  (forall dataPlane now w c w',
     NewContext X dataPlane now w = (Ok c, w') ->
     callSerial c = prng X now 0 mod 2 ^ 32 /\ 0 <= callSerial c < 2 ^ 32) /\
  NoDup (fst (allocCallSerials n s)).
Proof.
  intros Hn. split; [reflexivity|]. split; [reflexivity|]. split.
  - intros dataPlane now w c w' Hnew. unfold NewContext in Hnew.
    destruct (initDataPlane X dataPlane); [|discriminate].
    injection Hnew as <- _. cbn [callSerial].
    split; [reflexivity | apply Z.mod_pos_bound; lia].
  - rewrite allocCallSerials_eq. apply NoDup_fmap_2_strong; [|apply NoDup_seq].
    intros i j Hi Hj Heq. apply elem_of_seq in Hi, Hj.
    apply mod_2_32_inj in Heq; lia.
Qed.

End SerialClaims.

(** C7, witness: three calls on a context whose counter is 2^32 - 1, so
    that the first call wraps to 0. *)
Lemma call_serials_distinct_witness :
  Z.of_nat 3 < 2 ^ 32 /\
  fst (allocCallSerials 3 (state_with (cfg_v2 0 0))) = [0; 1; 2] /\
  NoDup (fst (allocCallSerials 3 (state_with (cfg_v2 0 0)))).
Proof.
  assert (H3 : Z.of_nat 3 < 2 ^ 32) by (vm_compute; reflexivity).
  split; [exact H3|]. split; [reflexivity|].
  exact (proj2 (proj2 (proj2
    (call_serials_distinct example_externals (state_with (cfg_v2 0 0)) 3 H3)))).
Defined.

(** ** Event handlers *)

Lemma Unregister_loop_keeps_all (all rest : list EventHandler) (i : nat)
  (handler : EventHandler) :
  exists tl, Unregister_loop all i rest handler = all ++ tl.
Proof.
  revert i. induction rest as [|hdlr rest IH]; intros i; simpl.
  - exists []. rewrite app_nil_r. reflexivity.
  - destruct (Nat.eqb hdlr handler); [eexists; reflexivity | apply IH].
Qed.

(** When no handler before index [i] matched and the one at [i] does, the
    loop appends [all[i+1:]] to the whole of [all]. *)
Lemma Unregister_loop_first_match (pre post : list EventHandler) (handler : EventHandler) :
  ~ In handler pre ->
  Unregister_loop (pre ++ handler :: post) 0 (pre ++ handler :: post) handler =
    (pre ++ handler :: post) ++ post.
Proof.
  intros Hpre.
  assert (Hgen : forall all i rest,
             ~ In handler rest ->
             Unregister_loop all i (rest ++ handler :: post) handler =
               all ++ drop (i + length rest + 1) all).
  { intros all i rest. revert i. induction rest as [|h rest IH]; intros i Hn; simpl.
    - rewrite Nat.eqb_refl. do 2 f_equal. lia.
    - destruct (Nat.eqb_spec h handler) as [->|Hne].
      + exfalso. apply Hn. left. reflexivity.
      + rewrite IH by (intros Hin; apply Hn; right; exact Hin).
        do 2 f_equal. lia. }
  rewrite (Hgen _ 0%nat pre Hpre). f_equal.
  replace (0 + length pre + 1)%nat with (length (pre ++ [handler])).
  - rewrite (cons_middle handler pre post), app_assoc. apply drop_app_length.
  - rewrite length_app. simpl. lia.
Qed.

Lemma handleUserEvent_loop_eq (handlers : list EventHandler) (event : UserEvent) (s : State) :
  handleUserEvent_loop handlers event s =
    (Ret tt,
     {| ctx := ctx s;
        world := {| heap := heap (world s); seed := seed (world s);
                    draws := draws (world s);
                    trace := trace (world s) ++
                             map (fun h => EvHandleEvent h event) handlers |} |}).
Proof.
  revert s. induction handlers as [|h rest IH]; intros s; simpl.
  - rewrite app_nil_r. destruct s as [c [hp sd dr tr]]. reflexivity.
  - unfold bind, emit. rewrite IH. simpl. rewrite <- app_assoc. reflexivity.
Qed.

(** C1, on the code: [UnregisterEventHandler] does not remove the handler.
    After [RegisterEventHandler(h)] and [UnregisterEventHandler(h)] the
    handler [h] is still in the list of the context, and an event dispatched
    by [handleUserEvent] still reaches it.  On a context without handlers
    the list is [[h]] again and the dispatch calls [h] once. *)
Theorem UnregisterEventHandler_keeps_handler (s : State) (h : EventHandler) (ev : UserEvent) :
  let s1 := after (RegisterEventHandler h) s in
  let s2 := after (UnregisterEventHandler h) s1 in
  let s3 := after (handleUserEvent ev) s2 in
  In h (eventHandlers (ctx s2)) /\
  In (EvHandleEvent h ev) (trace (world s3)) /\
  (eventHandlers (ctx s) = [] ->
   eventHandlers (ctx s2) = [h] /\
   trace (world s3) = trace (world s) ++ [EvHandleEvent h ev]).
Proof.
  intros s1 s2 s3.
  assert (H2 : eventHandlers (ctx s2) =
               Unregister_loop (eventHandlers (ctx s) ++ [h]) 0
                 (eventHandlers (ctx s) ++ [h]) h) by reflexivity.
  assert (H3 : trace (world s3) =
               trace (world s) ++ map (fun h' => EvHandleEvent h' ev) (eventHandlers (ctx s2))).
  { unfold s3, after, handleUserEvent, bind, getCtx.
    rewrite handleUserEvent_loop_eq. reflexivity. }
  destruct (Unregister_loop_keeps_all (eventHandlers (ctx s) ++ [h])
              (eventHandlers (ctx s) ++ [h]) 0 h) as [tl Htl].
  assert (Hin : In h (eventHandlers (ctx s2))).
  { rewrite H2, Htl. apply in_or_app. left. apply in_or_app. right. left. reflexivity. }
  split; [exact Hin|]. split.
  - rewrite H3. apply in_or_app. right.
    apply (in_map (fun h' => EvHandleEvent h' ev)), Hin.
  - intros Hnil. rewrite H3, H2, Hnil. simpl. rewrite Nat.eqb_refl. simpl.
    split; reflexivity.
Qed.

(** With a second handler registered after [h], unregistering [h] leaves
    [h] in place and doubles the other handler, which a dispatch then calls
    twice. *)
Lemma UnregisterEventHandler_doubles_later_handler (s : State) (h g : EventHandler) :
  eventHandlers (ctx s) = [h; g] -> h <> g ->
  eventHandlers (ctx (after (UnregisterEventHandler h) s)) = [h; g; g].
Proof.
  intros Hl Hne. unfold after, UnregisterEventHandler, bind, getCtx, setCtx. simpl.
  rewrite Hl. exact (Unregister_loop_first_match [] [g] h (fun H => H)).
Qed.

(** ** Validation in the tunnel factories *)

Section FactoryClaims.
Variable K : Consts.
Variable X : Externals.

Ltac run_factory :=
  unfold NewDynamicTunnel, NewQuiescentTunnel, NewStaticTunnel,
    bind, failIf, deref, findTunnelByName, ret, fail, wrapM, lift;
  simpl.

(** C2.  A dynamic tunnel whose config asks for L2TPv2 and a tunnel ID above
    65535 (70000, say) is refused: [NewDynamicTunnel] returns an error and
    leaves the state as it was, so nothing is linked under the name or under
    any tunnel ID. *)
Theorem NewDynamicTunnel_v2_tid_out_of_range (s : State) (name : string) (l : loc)
  (c : TunnelConfig) :
  heap (world s) !! l = Some c ->
  Version c = ProtocolVersion2 ->
  TunnelID c > 65535 ->
  exists e, NewDynamicTunnel K X name (Some l) s = (Fail e, s).
Proof.
  intros Hh Hv Ht. run_factory. rewrite Hh.
  destruct (tunnelsByName (ctx s) !! name); simpl; [eauto|].
  assert (Hgt : (TunnelID c >? 65535) = true) by (apply Z.gtb_lt; lia).
  destruct (String.eqb (HostName c) ""); [destruct (os_Hostname X); [|eauto]|];
    destruct (StopCCNTimeout _ =? 0); simpl; rewrite ?Hv, ?Hgt; simpl;
    destruct (Encap c =? EncapTypeIP K); simpl; eauto.
Qed.

(** The error of C2 when nothing else is wrong with the call: the name is
    free, the host name is set and the encapsulation is not IP. *)
Lemma v2_tid_out_of_range_exact_error (s : State) (name : string) (l : loc)
  (c : TunnelConfig) :
  heap (world s) !! l = Some c ->
  Version c = ProtocolVersion2 ->
  TunnelID c > 65535 ->
  tunnelsByName (ctx s) !! name = None ->
  HostName c <> "" ->
  Encap c <> EncapTypeIP K ->
  NewDynamicTunnel K X name (Some l) s =
    (Fail (Errorf "L2TPv2 connection ID %v out of range" [ArgInt (TunnelID c)]), s).
Proof.
  intros Hh Hv Ht Hname Hhost Hencap. run_factory. rewrite Hh, Hname. simpl.
  assert (Hgt : (TunnelID c >? 65535) = true) by (apply Z.gtb_lt; lia).
  assert (Hh' : String.eqb (HostName c) "" = false) by (apply String.eqb_neq, Hhost).
  assert (He : (Encap c =? EncapTypeIP K) = false) by (apply Z.eqb_neq, Hencap).
  rewrite Hh'. simpl.
  destruct (StopCCNTimeout c =? 0); simpl; rewrite Hv, Hgt, He; reflexivity.
Qed.

(** C5.  [NewDynamicTunnel] returns an error when the peer tunnel ID of the
    config is not zero; [NewQuiescentTunnel] and [NewStaticTunnel] return an
    error when the tunnel ID or the peer tunnel ID is zero.  Each of these
    calls leaves the state as it was: no tunnel object is made and nothing
    is linked.  A nil config is an error in the same way. *)
Theorem factories_check_tunnel_ids (s : State) (name : string) (l : loc)
  (c : TunnelConfig) :
  heap (world s) !! l = Some c ->
  (PeerTunnelID c <> 0 ->
   exists e, NewDynamicTunnel K X name (Some l) s = (Fail e, s)) /\
  (TunnelID c = 0 \/ PeerTunnelID c = 0 ->
   (exists e, NewQuiescentTunnel K X name (Some l) s = (Fail e, s)) /\
   (exists e, NewStaticTunnel K X name (Some l) s = (Fail e, s))) /\
  (exists e, NewDynamicTunnel K X name None s = (Fail e, s)) /\
  (exists e, NewQuiescentTunnel K X name None s = (Fail e, s)) /\
  (exists e, NewStaticTunnel K X name None s = (Fail e, s)).
Proof.
  intros Hh. split; [|split; [|repeat split; run_factory; eauto]].
  - intros Hp. run_factory. rewrite Hh.
    destruct (tunnelsByName (ctx s) !! name); simpl; [eauto|].
    assert (Hne : (PeerTunnelID c =? 0) = false) by (apply Z.eqb_neq; exact Hp).
    destruct (String.eqb (HostName c) ""); [destruct (os_Hostname X); [|eauto]|];
      destruct (StopCCNTimeout _ =? 0); simpl;
      destruct (negb (Version c =? ProtocolVersion3) && (Encap c =? EncapTypeIP K));
      simpl; eauto;
      destruct ((Version c =? ProtocolVersion2) && (TunnelID c >? 65535));
      simpl; eauto; rewrite Hne; simpl; eauto.
  - intros Hz.
    assert (Hor : (TunnelID c =? 0) || (PeerTunnelID c =? 0) = true).
    { apply orb_true_iff. destruct Hz as [Hz|Hz]; [left|right]; apply Z.eqb_eq, Hz. }
    split; run_factory; rewrite Hh;
      (destruct (tunnelsByName (ctx s) !! name); simpl; [eauto|]).
    + destruct (negb (Version c =? ProtocolVersion3) && (Encap c =? EncapTypeIP K));
        simpl; [eauto|].
      destruct (Version c =? ProtocolVersion2); simpl.
      * destruct (Z.eqb_spec (TunnelID c) 0) as [_|Hne]; simpl; [eauto|].
        destruct (TunnelID c >? 65535); simpl; [eauto|].
        destruct Hz as [Hz|Hz]; [contradiction|].
        rewrite Hz. simpl. eauto.
      * rewrite Hor. simpl. eauto.
    + destruct (negb (Version c =? ProtocolVersion3)); simpl; [eauto|].
      rewrite Hor. simpl. eauto.
Qed.

End FactoryClaims.

(** C2, witness: an L2TPv2 config with tunnel ID 70000. *)
Lemma NewDynamicTunnel_v2_tid_out_of_range_witness :
  heap (world (state_with (cfg_v2 70000 0))) !! 1%positive = Some (cfg_v2 70000 0) /\
  Version (cfg_v2 70000 0) = ProtocolVersion2 /\
  TunnelID (cfg_v2 70000 0) > 65535 /\
  exists e, NewDynamicTunnel linux_consts example_externals "t1" (Some 1%positive)
              (state_with (cfg_v2 70000 0)) = (Fail e, state_with (cfg_v2 70000 0)).
Proof.
  assert (Hh : heap (world (state_with (cfg_v2 70000 0))) !! 1%positive
               = Some (cfg_v2 70000 0)) by reflexivity.
  assert (Ht : TunnelID (cfg_v2 70000 0) > 65535) by (simpl; lia).
  split; [exact Hh|]. split; [reflexivity|]. split; [exact Ht|].
  exact (NewDynamicTunnel_v2_tid_out_of_range linux_consts example_externals
           (state_with (cfg_v2 70000 0)) "t1" 1%positive (cfg_v2 70000 0)
           Hh eq_refl Ht).
Defined.

(** C5, witness: a config with peer tunnel ID 90 given to
    [NewDynamicTunnel]. *)
Lemma factories_check_tunnel_ids_witness :
  heap (world (state_with (cfg_v2 42 90))) !! 1%positive = Some (cfg_v2 42 90) /\
  PeerTunnelID (cfg_v2 42 90) <> 0 /\
  exists e, NewDynamicTunnel linux_consts example_externals "t1" (Some 1%positive)
              (state_with (cfg_v2 42 90)) = (Fail e, state_with (cfg_v2 42 90)).
Proof.
  assert (Hh : heap (world (state_with (cfg_v2 42 90))) !! 1%positive
               = Some (cfg_v2 42 90)) by reflexivity.
  assert (Hp : PeerTunnelID (cfg_v2 42 90) <> 0) by (simpl; lia).
  split; [exact Hh|]. split; [exact Hp|].
  exact (proj1 (factories_check_tunnel_ids linux_consts example_externals
                  (state_with (cfg_v2 42 90)) "t1" 1%positive (cfg_v2 42 90) Hh) Hp).
Defined.

(** ** ID allocation *)

Lemma first_free_None (taken : Z -> bool) (cand : nat -> Z) (d n : nat) :
  first_free taken cand d n = None <->
  forall j, (j < n)%nat -> taken (cand (d + j)%nat) = true.
Proof.
  revert d. induction n as [|n IH]; intros d; simpl.
  - split; [intros _ j Hj; lia | reflexivity].
  - destruct (taken (cand d)) eqn:Ht.
    + rewrite IH. split.
      * intros H j Hj. destruct j as [|j].
        -- rewrite Nat.add_0_r. exact Ht.
        -- replace (d + S j)%nat with (S d + j)%nat by lia. apply H. lia.
      * intros H j Hj. replace (S d + j)%nat with (d + S j)%nat by lia. apply H. lia.
    + split; [discriminate|]. intros H. specialize (H 0%nat ltac:(lia)).
      rewrite Nat.add_0_r in H. congruence.
Qed.

Lemma first_free_Some (taken : Z -> bool) (cand : nat -> Z) (d n j : nat) :
  (j < n)%nat ->
  (forall i, (i < j)%nat -> taken (cand (d + i)%nat) = true) ->
  taken (cand (d + j)%nat) = false ->
  first_free taken cand d n = Some ((d + j)%nat, cand (d + j)%nat).
Proof.
  revert d j. induction n as [|n IH]; intros d j Hj Hbefore Hfree; [lia|].
  simpl. destruct j as [|j].
  - rewrite Nat.add_0_r in *. rewrite Hfree. reflexivity.
  - pose proof (Hbefore 0%nat ltac:(lia)) as H0. rewrite Nat.add_0_r in H0. rewrite H0.
    replace (d + S j)%nat with (S d + j)%nat in * by lia.
    apply IH; [lia| |exact Hfree].
    intros i Hi. replace (S d + i)%nat with (d + S i)%nat by lia. apply Hbefore. lia.
Qed.

Lemma set_draws_same (s : State) : set_draws (draws (world s)) s = s.
Proof. destruct s as [c [hp sd dr tr]]. reflexivity. Qed.

Section AllocFacts.
Variable X : Externals.

Lemma generateControlConnID_eq (version : Z) (s : State) :
  version = ProtocolVersion2 \/ version = ProtocolVersion3 ->
  generateControlConnID X version s =
    (Ret (candidate X version s (draws (world s))), set_draws (S (draws (world s))) s).
Proof.
  intros [-> | ->]; reflexivity.
Qed.

Lemma allocTid_loop_eq (version : Z) (n : nat) (s : State) :
  version = ProtocolVersion2 \/ version = ProtocolVersion3 ->
  allocTid_loop X n version s =
    alloc_outcome X version (fun id => isSome (tunnelsByID (ctx s) !! id)) n s.
Proof.
  intros Hv. revert s. induction n as [|n IH]; intros s.
  - unfold alloc_outcome. simpl. rewrite Nat.add_0_r, set_draws_same. reflexivity.
  - cbn [allocTid_loop]. unfold bind, wrapM, findTunnelByID.
    rewrite (generateControlConnID_eq version s Hv).
    unfold alloc_outcome. cbn [first_free ctx set_draws].
    destruct (isSome (tunnelsByID (ctx s) !! candidate X version s (draws (world s)))) eqn:Hc;
      cbn [negb].
    + rewrite IH. unfold alloc_outcome. cbn [ctx set_draws world draws].
      change (candidate X version (set_draws (S (draws (world s))) s))
        with (candidate X version s).
      destruct (first_free _ _ (S (draws (world s))) n) as [[k id]|].
      * reflexivity.
      * unfold set_draws. cbn. repeat f_equal. lia.
    + reflexivity.
Qed.

Lemma allocSid_loop_eq (bt : baseTunnel) (l : loc) (c : TunnelConfig) (n : nat) (s : State) :
  bt_cfg bt = Some l -> heap (world s) !! l = Some c ->
  Version c = ProtocolVersion2 \/ Version c = ProtocolVersion3 ->
  allocSid_loop X bt n s =
    alloc_outcome X (Version c) (fun id => isSome (sessionsByID bt !! id)) n s.
Proof.
  intros Hp Hh Hv. revert s Hh. induction n as [|n IH]; intros s Hh.
  - unfold alloc_outcome. simpl. rewrite Nat.add_0_r, set_draws_same. reflexivity.
  - cbn [allocSid_loop]. unfold bind, wrapM, deref, findSessionByID. rewrite Hp, Hh.
    rewrite (generateControlConnID_eq (Version c) s Hv).
    unfold alloc_outcome. cbn [first_free ctx set_draws].
    destruct (isSome (sessionsByID bt !! candidate X (Version c) s (draws (world s)))) eqn:Hc;
      cbn [negb].
    + rewrite IH by exact Hh. unfold alloc_outcome. cbn [ctx set_draws world draws].
      change (candidate X (Version c) (set_draws (S (draws (world s))) s))
        with (candidate X (Version c) s).
      destruct (first_free _ _ (S (draws (world s))) n) as [[k id]|].
      * reflexivity.
      * unfold set_draws. cbn. repeat f_equal. lia.
    + reflexivity.
Qed.

(** An allocation loop fails with "ID space exhausted" exactly when all its
    candidates are taken, and otherwise returns the first that is free. *)
Lemma alloc_outcome_spec (version : Z) (taken : Z -> bool) (n : nat) (s : State) :
  let cand := fun k => candidate X version s (draws (world s) + k)%nat in
  (fst (alloc_outcome X version taken n s) = Fail (Errorf "ID space exhausted" []) <->
   forall k, (k < n)%nat -> taken (cand k) = true) /\
  (forall k, (k < n)%nat ->
     (forall j, (j < k)%nat -> taken (cand j) = true) ->
     taken (cand k) = false ->
     fst (alloc_outcome X version taken n s) = Ret (cand k)).
Proof.
  intros cand. unfold alloc_outcome. split.
  - destruct (first_free taken _ _ n) as [[k id]|] eqn:Hff; simpl.
    + split; [discriminate|]. intros Hall.
      apply first_free_None in Hall. unfold cand in Hall. congruence.
    + split; [|reflexivity]. intros _. apply first_free_None, Hff.
  - intros k Hk Hbefore Hfree.
    rewrite (first_free_Some taken _ _ n k Hk Hbefore Hfree). reflexivity.
Qed.

Lemma candidate_range (version : Z) (s : State) (pos : nat) :
  0 <= candidate X version s pos <
    (if version =? ProtocolVersion2 then 2 ^ 16 else 2 ^ 32).
Proof.
  unfold candidate. destruct (version =? ProtocolVersion2); apply Z.mod_pos_bound; lia.
Qed.

Lemma isSome_true {A} (o : option A) : isSome o = true <-> is_Some o.
Proof.
  destruct o; simpl; split; intros H; try discriminate; eauto.
  destruct H as [x Hx]. discriminate.
Qed.

Lemma isSome_false {A} (o : option A) : isSome o = false <-> o = None.
Proof. destruct o; simpl; split; congruence. Qed.

(** C3.  [allocTid] (on the tunnels of a context) and [allocSid] (on the
    sessions of a tunnel) draw candidates from the generator, 16 bits wide
    for L2TPv2 and 32 bits wide for L2TPv3, and skip those already in the
    registry.  They return the error "ID space exhausted" if and only if the
    ten candidates all collide, and otherwise return the first candidate
    that does not. *)
Theorem id_allocation_retries_ten_times (s : State) (version : Z) :
  version = ProtocolVersion2 \/ version = ProtocolVersion3 ->
  let cand := fun k => candidate X version s (draws (world s) + k)%nat in
  (forall k, 0 <= cand k < (if version =? ProtocolVersion2 then 2 ^ 16 else 2 ^ 32)) /\
  (fst (allocTid X version s) = Fail (Errorf "ID space exhausted" []) <->
   forall k, (k < 10)%nat -> is_Some (tunnelsByID (ctx s) !! cand k)) /\
  (forall k, (k < 10)%nat ->
     (forall j, (j < k)%nat -> is_Some (tunnelsByID (ctx s) !! cand j)) ->
     tunnelsByID (ctx s) !! cand k = None ->
     fst (allocTid X version s) = Ret (cand k)) /\
  (forall bt l c,
     bt_cfg bt = Some l -> heap (world s) !! l = Some c -> Version c = version ->
     (fst (allocSid X bt s) = Fail (Errorf "ID space exhausted" []) <->
      forall k, (k < 10)%nat -> is_Some (sessionsByID bt !! cand k)) /\
     (forall k, (k < 10)%nat ->
        (forall j, (j < k)%nat -> is_Some (sessionsByID bt !! cand j)) ->
        sessionsByID bt !! cand k = None ->
        fst (allocSid X bt s) = Ret (cand k))).
Proof.
  intros Hv cand.
  split; [intros k; apply candidate_range|].
  unfold allocTid, allocSid.
  rewrite (allocTid_loop_eq version 10 s Hv).
  destruct (alloc_outcome_spec version
              (fun id => isSome (tunnelsByID (ctx s) !! id)) 10 s) as [Ht1 Ht2].
  split; [|split].
  - rewrite Ht1. split; intros H k Hk; apply isSome_true, H, Hk.
  - intros k Hk Hbefore Hfree. apply Ht2; [exact Hk | |apply isSome_false, Hfree].
    intros j Hj. apply isSome_true, Hbefore, Hj.
  - intros bt l c Hp Hh <-.
    rewrite (allocSid_loop_eq bt l c 10 s Hp Hh Hv).
    destruct (alloc_outcome_spec (Version c)
                (fun id => isSome (sessionsByID bt !! id)) 10 s) as [Hs1 Hs2].
    split.
    + rewrite Hs1. split; intros H k Hk; apply isSome_true, H, Hk.
    + intros k Hk Hbefore Hfree. apply Hs2; [exact Hk | |apply isSome_false, Hfree].
      intros j Hj. apply isSome_true, Hbefore, Hj.
Qed.

End AllocFacts.

(** C3, witness: with the tunnel IDs 1 to 9 taken and a generator that
    draws 1, 2, 3, ..., [allocTid] returns 10, the one free candidate. *)
Lemma id_allocation_retries_ten_times_witness :
  (2 = ProtocolVersion2 \/ 2 = ProtocolVersion3) /\
  fst (allocTid example_externals 2 (state_ids_taken [1; 2; 3; 4; 5; 6; 7; 8; 9])) = Ret 10.
Proof.
  assert (Hv : 2 = ProtocolVersion2 \/ 2 = ProtocolVersion3) by (left; reflexivity).
  split; [exact Hv|].
  destruct (id_allocation_retries_ten_times example_externals
              (state_ids_taken [1; 2; 3; 4; 5; 6; 7; 8; 9]) 2 Hv) as (_ & _ & Hfree & _).
  apply (Hfree 9%nat).
  - lia.
  - intros j Hj.
    do 9 (destruct j as [|j]; [vm_compute; eauto|]). lia.
  - vm_compute. reflexivity.
Defined.

(** With the ten candidates 1 to 10 all taken, [allocTid] gives up. *)
Lemma allocTid_exhausted_example :
  fst (allocTid example_externals 2 (state_ids_taken [1; 2; 3; 4; 5; 6; 7; 8; 9; 10])) =
    Fail (Errorf "ID space exhausted" []).
Proof. vm_compute. reflexivity. Qed.

(** ** The caller's config *)

Lemma triple_bind {A B} (P : State -> Prop) (m : M A) (R : A -> State -> Prop)
  (k : A -> M B) (Q : B -> State -> Prop) (E : State -> Prop) :
  triple P m R E -> (forall a, triple (R a) (k a) Q E) -> triple P (bind m k) Q E.
Proof.
  intros Hm Hk s Hs. unfold bind. specialize (Hm s Hs).
  destruct (m s) as [[a|e|msg] s']; [exact (Hk a s' Hm) | exact Hm | exact Hm].
Qed.

Lemma triple_ret {A} (P : State -> Prop) (a : A) (Q : A -> State -> Prop) (E : State -> Prop) :
  (forall s, P s -> Q a s) -> triple P (ret a) Q E.
Proof. intros H s Hs. exact (H s Hs). Qed.

Section Keeps.
Variable I : State -> Prop.

Lemma keeps_bind {A B} (m : M A) (k : A -> M B) :
  keeps I m -> (forall a, keeps I (k a)) -> keeps I (bind m k).
Proof. intros Hm Hk. exact (triple_bind I m (fun _ => I) k (fun _ => I) I Hm Hk). Qed.

(** A call that leaves the state alone keeps everything. *)
Lemma keeps_pure {A} (m : M A) : (forall s, snd (m s) = s) -> keeps I m.
Proof.
  intros Hm s Hs. specialize (Hm s). destruct (m s) as [[a|e|msg] s']; simpl in Hm; subst; exact Hs.
Qed.

Lemma keeps_ret {A} (a : A) : keeps I (ret a).
Proof. apply keeps_pure. reflexivity. Qed.

Lemma keeps_fail {A} (e : error) : keeps I (@fail A e).
Proof. apply keeps_pure. reflexivity. Qed.

Lemma keeps_failIf (cond : bool) (e : error) : keeps I (failIf cond e).
Proof. apply keeps_pure. intros s. destruct cond; reflexivity. Qed.

Lemma keeps_lift {A} (r : result A) : keeps I (lift r).
Proof. apply keeps_pure. intros s. destruct r; reflexivity. Qed.

Lemma keeps_getCtx : keeps I getCtx.
Proof. apply keeps_pure. reflexivity. Qed.

Lemma keeps_deref (p : ptr) : keeps I (deref p).
Proof.
  apply keeps_pure. intros s. unfold deref.
  destruct p as [l|]; [destruct (heap (world s) !! l)|]; reflexivity.
Qed.

Lemma keeps_findTunnelByName (name : string) : keeps I (findTunnelByName name).
Proof. apply keeps_pure. reflexivity. Qed.

Lemma keeps_findTunnelByID (tid : Z) : keeps I (findTunnelByID tid).
Proof. apply keeps_pure. reflexivity. Qed.

Lemma keeps_wrapM {A} (w : error -> error) (m : M A) : keeps I m -> keeps I (wrapM w m).
Proof.
  intros Hm s Hs. unfold wrapM. specialize (Hm s Hs).
  destruct (m s) as [[a|e|msg] s']; exact Hm.
Qed.

End Keeps.

(** A call that leaves the store of configs alone keeps the struct at [l]. *)
Lemma keeps_heap {A} (l : loc) (c : TunnelConfig) (m : M A) :
  (forall s, heap (world (snd (m s))) = heap (world s)) -> keeps (holds l c) m.
Proof.
  intros Hm s Hs. specialize (Hm s). unfold holds in *.
  destruct (m s) as [[a|e|msg] s']; simpl in Hm; rewrite Hm; exact Hs.
Qed.

Lemma keeps_setCtx (l : loc) (c : TunnelConfig) (c' : Context) : keeps (holds l c) (setCtx c').
Proof. apply keeps_heap. reflexivity. Qed.

Lemma keeps_emit (l : loc) (c : TunnelConfig) (ev : Event) : keeps (holds l c) (emit ev).
Proof. apply keeps_heap. reflexivity. Qed.

(** The address of a new struct is not the address of a struct in use. *)
Lemma addressOf_fresh (l : loc) (c myCfg : TunnelConfig) :
  triple (holds l c) (addressOf myCfg)
    (fun p s => holds l c s /\ p <> Some l) (holds l c).
Proof.
  intros s Hs. unfold addressOf, holds in *. simpl.
  assert (Hne : fresh (dom (heap (world s))) <> l).
  { intros Heq. apply (is_fresh (dom (heap (world s)))).
    rewrite Heq. apply elem_of_dom. eauto. }
  split; [|congruence].
  rewrite lookup_insert_ne by exact Hne. exact Hs.
Qed.

Create HintDb keeps.
#[local] Hint Resolve keeps_ret keeps_fail keeps_failIf keeps_lift keeps_getCtx
  keeps_deref keeps_findTunnelByName keeps_findTunnelByID keeps_wrapM
  keeps_setCtx keeps_emit : keeps.

Ltac keeps_tac :=
  repeat (intros;
          match goal with
          | |- keeps _ (bind _ _) => apply keeps_bind
          | |- keeps _ (if ?b then _ else _) => destruct b
          | |- keeps _ _ => solve [eauto with keeps]
          end).

Section CallerConfig.
Variable K : Consts.
Variable X : Externals.
Variable l : loc.
Variable c : TunnelConfig.

Lemma keeps_rand_Uint32 : keeps (holds l c) (rand_Uint32 X).
Proof. apply keeps_heap. reflexivity. Qed.

Lemma keeps_generateControlConnID (version : Z) :
  keeps (holds l c) (generateControlConnID X version).
Proof.
  unfold generateControlConnID. pose proof keeps_rand_Uint32. keeps_tac.
Qed.

Lemma keeps_allocTid (version : Z) : keeps (holds l c) (allocTid X version).
Proof.
  unfold allocTid. generalize 10%nat. intros n.
  induction n as [|n IH]; cbn [allocTid_loop].
  - apply keeps_fail.
  - pose proof (keeps_generateControlConnID version). keeps_tac.
Qed.

Lemma keeps_linkTunnel (t : tunnel) : keeps (holds l c) (linkTunnel t).
Proof. unfold linkTunnel. keeps_tac. Qed.

Lemma keeps_unlinkTunnel (t : tunnel) : keeps (holds l c) (unlinkTunnel t).
Proof. unfold unlinkTunnel. keeps_tac. Qed.

(** A new tunnel object holds a config struct of its own. *)
Lemma newTunnel_fresh (kind : TunnelKind) (name : string) (sal sap : Sockaddr)
  (myCfg : TunnelConfig) :
  triple (holds l c) (newTunnel X kind name sal sap myCfg)
    (fun t s => holds l c s /\ getCfg t <> Some l) (holds l c).
Proof.
  unfold newTunnel. destruct (newTunnel_err X kind name sal sap myCfg).
  - intros s Hs. exact Hs.
  - apply (triple_bind _ _ _ _ _ _ (addressOf_fresh l c myCfg)). intros p.
    apply (triple_bind _ _ (fun _ s => holds l c s /\ p <> Some l)).
    + intros s [Hs Hp]. simpl. split; [exact Hs | exact Hp].
    + intros _. apply triple_ret. intros s Hs. exact Hs.
Qed.

(** The end of each factory: build the tunnel, link it, return it. *)
Lemma build_and_link_fresh (kind : TunnelKind) (name : string) (sal sap : Sockaddr)
  (myCfg : TunnelConfig) :
  triple (holds l c)
    (do t <- newTunnel X kind name sal sap myCfg; do _ <- linkTunnel t; ret t)
    (fun t s => holds l c s /\ getCfg t <> Some l) (holds l c).
Proof.
  apply (triple_bind _ _ _ _ _ _ (newTunnel_fresh kind name sal sap myCfg)). intros t.
  apply (triple_bind _ _ (fun _ s => holds l c s /\ getCfg t <> Some l)).
  - intros s [Hs Ht]. pose proof (keeps_linkTunnel t s Hs) as Hl.
    destruct (linkTunnel t s) as [[u|e|msg] s']; tauto.
  - intros _. apply triple_ret. tauto.
Qed.

Ltac factory_tac :=
  repeat (intros;
          match goal with
          | |- triple _ (bind (newTunnel _ _ _ _ _ _) _) _ _ => apply build_and_link_fresh
          | |- triple (holds l c) (bind ?m _) _ (holds l c) =>
              apply (triple_bind _ m (fun _ => holds l c))
          | |- triple (holds l c) ?m (fun _ => holds l c) (holds l c) =>
              change (keeps (holds l c) m); keeps_tac
          end).

Lemma NewDynamicTunnel_fresh (name : string) (cfg : ptr) :
  triple (holds l c) (NewDynamicTunnel K X name cfg)
    (fun t s => holds l c s /\ getCfg t <> Some l) (holds l c).
Proof.
  pose proof keeps_allocTid. unfold NewDynamicTunnel. factory_tac.
Qed.

Lemma NewQuiescentTunnel_fresh (name : string) (cfg : ptr) :
  triple (holds l c) (NewQuiescentTunnel K X name cfg)
    (fun t s => holds l c s /\ getCfg t <> Some l) (holds l c).
Proof. unfold NewQuiescentTunnel. factory_tac. Qed.

Lemma NewStaticTunnel_fresh (name : string) (cfg : ptr) :
  triple (holds l c) (NewStaticTunnel K X name cfg)
    (fun t s => holds l c s /\ getCfg t <> Some l) (holds l c).
Proof. unfold NewStaticTunnel. factory_tac. Qed.

Lemma triple_after {A} (m : M A) (Q : A -> State -> Prop) (s : State) :
  triple (holds l c) m (fun a s' => holds l c s' /\ Q a s') (holds l c) ->
  holds l c s ->
  holds l c (after m s) /\ (forall a s', m s = (Ret a, s') -> Q a s').
Proof.
  intros Hm Hs. specialize (Hm s Hs). unfold after.
  destruct (m s) as [[a|e|msg] s']; simpl; split; try tauto; try discriminate.
  intros a' s'' Heq. injection Heq as <- <-. tauto.
Qed.

(** C9.  Each tunnel factory works on a copy of the caller's config: the
    struct the caller passed is the same after the call as before, however
    the call ends, and the tunnel a successful call returns holds a config
    struct at another address, the one the defaults and the allocated tunnel
    ID went into. *)
Theorem factories_leave_caller_config (s : State) (name : string) :
  heap (world s) !! l = Some c ->
  (heap (world (after (NewDynamicTunnel K X name (Some l)) s)) !! l = Some c /\
   forall t s', NewDynamicTunnel K X name (Some l) s = (Ret t, s') -> getCfg t <> Some l) /\
  (heap (world (after (NewQuiescentTunnel K X name (Some l)) s)) !! l = Some c /\
   forall t s', NewQuiescentTunnel K X name (Some l) s = (Ret t, s') -> getCfg t <> Some l) /\
  (heap (world (after (NewStaticTunnel K X name (Some l)) s)) !! l = Some c /\
   forall t s', NewStaticTunnel K X name (Some l) s = (Ret t, s') -> getCfg t <> Some l).
Proof.
  intros Hs. split; [|split].
  - exact (triple_after _ _ s (NewDynamicTunnel_fresh name (Some l)) Hs).
  - exact (triple_after _ _ s (NewQuiescentTunnel_fresh name (Some l)) Hs).
  - exact (triple_after _ _ s (NewStaticTunnel_fresh name (Some l)) Hs).
Qed.

End CallerConfig.

(** A run of [NewDynamicTunnel] on a config without host name, timeout and
    tunnel ID: the tunnel's own struct, at address 2, has the host name, the
    31 s StopCCN timeout and the allocated tunnel ID; the caller's struct,
    at address 1, has none of them. *)
Lemma NewDynamicTunnel_fills_its_copy :
  exists t s',
    NewDynamicTunnel linux_consts example_externals "t1" (Some 1%positive)
      (state_with (cfg_v2 0 0)) = (Ret t, s') /\
    getCfg t = Some 2%positive /\
    heap (world s') !! 1%positive = Some (cfg_v2 0 0) /\
    heap (world s') !! 2%positive =
      Some (set_TunnelID 1 (set_StopCCNTimeout (31 * Second)
              (set_HostName "lac" (cfg_v2 0 0)))) /\
    tunnelsByName (ctx s') !! "t1" = Some t /\
    tunnelsByID (ctx s') !! 1 = Some t.
Proof.
  do 2 eexists. split; [vm_compute; reflexivity|].
  repeat split; vm_compute; reflexivity.
Qed.

(** C9, witness: the run above, on the caller's struct at address 1. *)
Lemma factories_leave_caller_config_witness :
  heap (world (state_with (cfg_v2 0 0))) !! 1%positive = Some (cfg_v2 0 0) /\
  heap (world (after (NewDynamicTunnel linux_consts example_externals "t1" (Some 1%positive))
                 (state_with (cfg_v2 0 0)))) !! 1%positive = Some (cfg_v2 0 0).
Proof.
  assert (Hh : heap (world (state_with (cfg_v2 0 0))) !! 1%positive = Some (cfg_v2 0 0))
    by reflexivity.
  split; [exact Hh|].
  exact (proj1 (proj1 (factories_leave_caller_config linux_consts example_externals
                         1%positive (cfg_v2 0 0) (state_with (cfg_v2 0 0)) "t1" Hh))).
Defined.

(** ** Closing the context *)










(** ** The registry stays consistent *)

Section Consistency.
Variable K : Consts.
Variable X : Externals.

Lemma consistent_set_draws (d : nat) (s : State) :
  registry_consistent (set_draws d s) <-> registry_consistent s.
Proof. split; intros H; exact H. Qed.

Lemma allocTid_loop_Ret (n : nat) (version : Z) (s s' : State) (id : Z) :
  allocTid_loop X n version s = (Ret id, s') ->
  tunnelsByID (ctx s) !! id = None /\ exists d, s' = set_draws d s.
Proof.
  revert s. induction n as [|n IH]; intros s; cbn [allocTid_loop]; [discriminate|].
  unfold bind, wrapM, findTunnelByID, generateControlConnID, rand_Uint32, ret, fail.
  assert (Hgo : forall id0,
    (if negb (isSome (tunnelsByID (ctx (set_draws (S (draws (world s))) s)) !! id0))
     then (fun s0 => (Ret id0, s0)) else allocTid_loop X n version)
      (set_draws (S (draws (world s))) s) = (Ret id, s') ->
    tunnelsByID (ctx s) !! id = None /\ exists d, s' = set_draws d s).
  { intros id0. simpl. destruct (isSome (tunnelsByID (ctx s) !! id0)) eqn:Hc; simpl.
    - intros H. apply IH in H as [H1 [d ->]]. split; [exact H1|]. exists d. reflexivity.
    - intros H. injection H as <- <-. split; [apply isSome_false, Hc | eauto]. }
  destruct (version =? ProtocolVersion2); [exact (Hgo _)|].
  destruct (version =? ProtocolVersion3); [exact (Hgo _)|discriminate].
Qed.


Lemma bind_Ret {A B} (m : M A) (k : A -> M B) (s s' : State) (b : B) :
  bind m k s = (Ret b, s') -> exists a s1, m s = (Ret a, s1) /\ k a s1 = (Ret b, s').
Proof.
  unfold bind. destruct (m s) as [[a|e|msg] s1]; try discriminate. eauto.
Qed.

Lemma failIf_Ret (cond : bool) (e : error) (s s' : State) (u : unit) :
  failIf cond e s = (Ret u, s') -> cond = false /\ s' = s.
Proof. destruct cond; simpl; [discriminate|]. intros H. injection H as _ <-. auto. Qed.

Lemma wrapM_Ret {A} (w : error -> error) (m : M A) (s s' : State) (a : A) :
  wrapM w m s = (Ret a, s') -> m s = (Ret a, s').
Proof. unfold wrapM. destruct (m s) as [[a'|e|msg] s1]; congruence. Qed.

Lemma lift_Ret {A} (r : result A) (s s' : State) (a : A) :
  lift r s = (Ret a, s') -> r = Ok a /\ s' = s.
Proof. destruct r; simpl; intros H; [injection H as <- <-; auto | discriminate]. Qed.

Lemma ret_Ret {A} (a b : A) (s s' : State) : ret a s = (Ret b, s') -> b = a /\ s' = s.
Proof. intros H. injection H as <- <-. auto. Qed.

Lemma deref_Ret (p : ptr) (s s' : State) (c : TunnelConfig) :
  deref p s = (Ret c, s') -> s' = s /\ exists l, p = Some l /\ heap (world s) !! l = Some c.
Proof.
  unfold deref. destruct p as [l|]; [|discriminate].
  destruct (heap (world s) !! l) eqn:Hl; [|discriminate].
  intros H. injection H as <- <-. eauto.
Qed.


Lemma findTunnelByName_Ret (name : string) (s s' : State) (found : option tunnel) :
  findTunnelByName name s = (Ret found, s') ->
  found = tunnelsByName (ctx s) !! name /\ s' = s.
Proof. intros H. injection H as <- <-. auto. Qed.

Lemma findTunnelByID_Ret (tid : Z) (s s' : State) (found : option tunnel) :
  findTunnelByID tid s = (Ret found, s') ->
  found = tunnelsByID (ctx s) !! tid /\ s' = s.
Proof. intros H. injection H as <- <-. auto. Qed.

(** Take the first call off a successful run: [passed] for an [if] that
    would have returned an error, [call] for any other call. *)
Ltac passed H Hc :=
  let u := fresh "u" in let s1 := fresh "s" in
  apply bind_Ret in H as (u & s1 & Hc & H); apply failIf_Ret in Hc as [Hc ->].

Ltac call H x sx Hx := apply bind_Ret in H as (x & sx & Hx & H).

Lemma allocTid_Ret (version : Z) (s s' : State) (id : Z) :
  allocTid X version s = (Ret id, s') ->
  tunnelsByID (ctx s) !! id = None /\ exists d, s' = set_draws d s.
Proof. apply allocTid_loop_Ret. Qed.





(** *** Runs that do not succeed *)

Lemma keeps_only_draws_rand_Uint32 (s0 : State) : keeps (only_draws s0) (rand_Uint32 X).
Proof. intros s [d ->]. exists (S d). reflexivity. Qed.

Lemma keeps_only_draws_generateControlConnID (s0 : State) (version : Z) :
  keeps (only_draws s0) (generateControlConnID X version).
Proof.
  unfold generateControlConnID. pose proof (keeps_only_draws_rand_Uint32 s0). keeps_tac.
Qed.

Lemma keeps_only_draws_allocTid (s0 : State) (version : Z) :
  keeps (only_draws s0) (allocTid X version).
Proof.
  unfold allocTid. generalize 10%nat. intros n.
  induction n as [|n IH]; cbn [allocTid_loop].
  - apply keeps_fail.
  - pose proof (keeps_only_draws_generateControlConnID s0 version). keeps_tac.
Qed.

(** Once the tunnel object is built, linking it cannot fail. *)
Lemma build_and_link_frame (s0 : State) (kind : TunnelKind) (name : string)
  (sal sap : Sockaddr) (myCfg : TunnelConfig) :
  triple (only_draws s0)
    (do t <- newTunnel X kind name sal sap myCfg; do _ <- linkTunnel t; ret t)
    (fun _ _ => True) (only_draws s0).
Proof.
  intros s Hs. unfold newTunnel.
  destruct (newTunnel_err X kind name sal sap myCfg); [exact Hs|].
  unfold bind, addressOf, emit, linkTunnel, bind, getCtx, setCtx, deref, ret. simpl.
  rewrite lookup_insert_eq. exact I.
Qed.

Ltac frame_tac s0 :=
  repeat (intros;
          match goal with
          | |- triple _ (bind (newTunnel _ _ _ _ _ _) _) _ _ => apply build_and_link_frame
          | |- triple (only_draws s0) (bind ?m _) _ (only_draws s0) =>
              apply (triple_bind _ m (fun _ => only_draws s0))
          | |- triple (only_draws s0) ?m (fun _ => only_draws s0) (only_draws s0) =>
              change (keeps (only_draws s0) m); keeps_tac
          end).

(** A factory that does not return a tunnel leaves the registry and the
    store of configs as they were. *)
Lemma NewDynamicTunnel_frame (s0 : State) (name : string) (cfg : ptr) :
  triple (only_draws s0) (NewDynamicTunnel K X name cfg) (fun _ _ => True) (only_draws s0).
Proof.
  pose proof (keeps_only_draws_allocTid s0). unfold NewDynamicTunnel. frame_tac s0.
Qed.







End Consistency.

(** * More properties of the configuration loader *)

Lemma toUint32_Ok (v : Value) (u : Z) :
  Config.toUint32 v = Ok u <-> (v = VInt64 u \/ v = VUint64 u) /\ 0 <= u <= 4294967295.
Proof.
  destruct v as [x|n|n|x|x|x|x|x]; simpl;
    try (split; [discriminate | intros [[E|E] _]; discriminate]).
  - rewrite Z.gtb_ltb.
    destruct (Z.ltb_spec n 0) as [Hlo|Hlo]; destruct (Z.ltb_spec 4294967295 n) as [Hhi|Hhi];
      simpl; split; try discriminate;
      try (intros [[E|E] ?]; [injection E as -> | discriminate]; lia).
    + intros E. injection E as <-. rewrite Z.mod_small by lia. split; [tauto | lia].
    + intros [[E|E] ?]; [injection E as -> | discriminate].
      rewrite Z.mod_small by lia. reflexivity.
  - rewrite Z.gtb_ltb.
    destruct (Z.ltb_spec n 0) as [Hlo|Hlo]; destruct (Z.ltb_spec 4294967295 n) as [Hhi|Hhi];
      simpl; split; try discriminate;
      try (intros [[E|E] ?]; [discriminate | injection E as ->]; lia).
    + intros E. injection E as <-. rewrite Z.mod_small by lia. split; [tauto | lia].
    + intros [[E|E] ?]; [discriminate | injection E as ->].
      rewrite Z.mod_small by lia. reflexivity.
Qed.

(** X1.  [toUint32] and [toCCID] accept exactly the integers from 0 to
    4294967295, whichever of the two integer types the decoder chose for
    them, and return the number as it is; [toDurationMs] accepts the same
    values and returns that many milliseconds. *)
Theorem numbers_are_accepted_exactly_in_range (v : Value) (x : Z) :
  (Config.toUint32 v = Ok x <->
   (v = VInt64 x \/ v = VUint64 x) /\ 0 <= x <= 4294967295) /\
  (Config.toCCID v = Ok x <->
   (v = VInt64 x \/ v = VUint64 x) /\ 0 <= x <= 4294967295) /\
  (Config.toDurationMs v = Ok x <->
   exists ms, (v = VInt64 ms \/ v = VUint64 ms) /\ 0 <= ms <= 4294967295 /\
              x = ms * 1000000).
Proof.
  split; [apply toUint32_Ok|]. split; [apply toUint32_Ok|].
  unfold Config.toDurationMs. rewrite andThen_Ok. split.
  - intros (u & Hu & H). injection H as <-. apply toUint32_Ok in Hu as [Hv Hr].
    exists u. split; [exact Hv|]. split; [exact Hr | reflexivity].
  - intros (ms & Hv & Hr & ->). exists ms. split; [|reflexivity].
    apply toUint32_Ok. split; assumption.
Qed.

Section RangeMore.
Context {S : Type} (body : string -> Value -> S -> result S).

Lemma range_preserves (P : S -> Prop) :
  (forall k v s s', P s -> body k v s = Ok s' -> P s') ->
  forall m s s', P s -> Config.range body s m = Ok s' -> P s'.
Proof.
  intros Hbody m. induction m as [|[k v] m IH]; intros s s' Hs Hrun; simpl in Hrun.
  - injection Hrun as <-. exact Hs.
  - apply andThen_Ok in Hrun as (s1 & Hk & Hrest).
    exact (IH s1 s' (Hbody k v s s1 Hs Hk) Hrest).
Qed.
End RangeMore.

Section InRange.
Variable K : Consts.

Ltac on_key k s tac := destruct (String.eqb_spec k s) as [->|?]; [tac|].

Lemma toUint32_uint32 (v : Value) (u : Z) : Config.toUint32 v = Ok u -> uint32 u.
Proof. intros H. apply toUint32_Ok in H as [_ H]. unfold uint32. lia. Qed.

Lemma toBytes_bytes (v : Value) (bs : list Z) :
  Config.toBytes v = Ok bs -> Forall (fun b => 0 <= b <= 255) bs.
Proof.
  intros H. apply toBytes_Ok in H as (numbers & _ & Hall).
  induction Hall as [|n b ns bs [_ Hb] _ IH]; constructor; assumption.
Qed.

Ltac param_in H x Hx :=
  cbn; intros H; apply wrapErr_Ok in H; apply andThen_Ok in H as (x & Hx & H);
  injection H as <-; unfold session_in_range; cbn.

Lemma newSessionConfig_body_in_range (k : string) (v : Value) (sc sc' : Config.SessionConfig) :
  session_in_range K sc -> Config.newSessionConfig_body K k v sc = Ok sc' ->
  session_in_range K sc'.
Proof.
  intros (H1 & H2 & H3 & H4 & H5 & H6 & H7).
  unfold Config.newSessionConfig_body, Config.sessionParam.
  on_key k "sid" ltac:(param_in H x Hx; apply toUint32_uint32 in Hx; tauto).
  on_key k "psid" ltac:(param_in H x Hx; apply toUint32_uint32 in Hx; tauto).
  on_key k "pseudowire" ltac:(param_in H x Hx).
  { unfold Config.toPseudowireType in Hx. apply andThen_Ok in Hx as (s & _ & Hx).
    destruct (String.eqb s "ppp"); [injection Hx as <-; simpl; tauto|].
    destruct (String.eqb s "eth"); [injection Hx as <-; simpl; tauto|discriminate]. }
  on_key k "seqnum" ltac:(param_in H x Hx; tauto).
  on_key k "reorder_timeout" ltac:(param_in H x Hx).
  { unfold Config.toDurationMs in Hx. apply andThen_Ok in Hx as (u & Hu & Hx).
    injection Hx as <-. apply toUint32_uint32 in Hu.
    split; [tauto|]. split; [tauto|]. split; [|tauto].
    exists u. split; [exact Hu | reflexivity]. }
  on_key k "cookie" ltac:(param_in H x Hx; apply toBytes_bytes in Hx; tauto).
  on_key k "peer_cookie" ltac:(param_in H x Hx; apply toBytes_bytes in Hx; tauto).
  on_key k "interface_name" ltac:(param_in H x Hx; tauto).
  on_key k "l2spec_type" ltac:(param_in H x Hx).
  { unfold Config.toL2SpecType in Hx. apply andThen_Ok in Hx as (s & _ & Hx).
    destruct (String.eqb s "none"); [injection Hx as <-; simpl; tauto|].
    destruct (String.eqb s "default"); [injection Hx as <-; simpl; tauto|discriminate]. }
  discriminate.
Qed.

Lemma session_zero_in_range : session_in_range K Config.SessionConfig_zero.
Proof.
  unfold session_in_range, uint32. simpl. repeat split; try lia; auto.
  exists 0. lia.
Qed.

Lemma newSessionConfig_in_range (scfg : list (string * Value)) (sc : Config.SessionConfig) :
  Config.newSessionConfig K scfg = Ok sc -> session_in_range K sc.
Proof.
  apply (range_preserves _ (session_in_range K)); [|apply session_zero_in_range].
  intros k v s s'. apply newSessionConfig_body_in_range.
Qed.

Lemma loadSessions_in_range (v : Value) (t t' : Config.TunnelConfig) :
  tunnel_in_range K t -> Config.loadSessions K t v = Ok t' -> tunnel_in_range K t'.
Proof.
  destruct v as [x|x|x|x|x|x|sessions|x]; simpl; try discriminate.
  intros Ht Hrun. revert Ht Hrun. apply range_preserves.
  clear. intros name got s s' (H1 & H2 & H3 & H4 & H5).
  unfold Config.loadSessions_body. destruct got as [x|x|x|x|x|x|smap|x]; try discriminate.
  intros H. apply andThen_Ok in H as (scfg & Hs & H). injection H as <-.
  apply wrapErr_Ok, newSessionConfig_in_range in Hs.
  unfold tunnel_in_range. cbn. refine (conj H1 (conj H2 (conj H3 (conj H4 _)))).
  apply map_Forall_insert_2; assumption.
Qed.

Ltac tparam_in H x Hx :=
  cbn; intros H; apply wrapErr_Ok in H; apply andThen_Ok in H as (x & Hx & H);
  injection H as <-; unfold tunnel_in_range; cbn.

Lemma newTunnelConfig_body_in_range (k : string) (v : Value) (tc tc' : Config.TunnelConfig) :
  tunnel_in_range K tc -> Config.newTunnelConfig_body K k v tc = Ok tc' ->
  tunnel_in_range K tc'.
Proof.
  intros Htc. pose proof Htc as (H1 & H2 & H3 & H4 & H5).
  unfold Config.newTunnelConfig_body, Config.tunnelParam.
  on_key k "local" ltac:(tparam_in H x Hx; tauto).
  on_key k "peer" ltac:(tparam_in H x Hx; tauto).
  on_key k "encap" ltac:(tparam_in H x Hx).
  { unfold Config.toEncapType in Hx. apply andThen_Ok in Hx as (s & _ & Hx).
    destruct (String.eqb s "udp"); [injection Hx as <-; simpl; tauto|].
    destruct (String.eqb s "ip"); [injection Hx as <-; simpl; tauto|discriminate]. }
  on_key k "version" ltac:(tparam_in H x Hx).
  { unfold Config.toVersion in Hx. apply andThen_Ok in Hx as (s & _ & Hx).
    destruct (String.eqb s "l2tpv2"); [injection Hx as <-; simpl; tauto|].
    destruct (String.eqb s "l2tpv3"); [injection Hx as <-; simpl; tauto|discriminate]. }
  on_key k "tid" ltac:(tparam_in H x Hx; apply toUint32_uint32 in Hx; tauto).
  on_key k "ptid" ltac:(tparam_in H x Hx; apply toUint32_uint32 in Hx; tauto).
  on_key k "session" ltac:(cbn; intros H; apply wrapErr_Ok in H;
                           exact (loadSessions_in_range v tc tc' Htc H)).
  discriminate.
Qed.

Lemma tunnel_zero_in_range : tunnel_in_range K Config.TunnelConfig_zero.
Proof.
  unfold tunnel_in_range, uint32. simpl.
  split; [lia|]. split; [lia|]. split; [auto|]. split; [auto|]. apply map_Forall_empty.
Qed.

Lemma newTunnelConfig_in_range (tcfg : list (string * Value)) (tc : Config.TunnelConfig) :
  Config.newTunnelConfig K tcfg = Ok tc -> tunnel_in_range K tc.
Proof.
  apply (range_preserves _ (tunnel_in_range K)); [|apply tunnel_zero_in_range].
  intros k v s s'. apply newTunnelConfig_body_in_range.
Qed.

(** X2.  Every number of a configuration that loads fits its Go type: tunnel
    and session IDs are within [uint32], the reorder timeout is a whole
    number of milliseconds below 2^32, version, encapsulation, pseudowire
    and L2-specific sublayer type are unset or one of the named constants,
    and cookies are strings of bytes. *)
Theorem loaded_config_in_range (tree : list (string * Value)) (cfg : Config.Config) :
  Config.newConfig K tree = Ok cfg ->
  map_Forall (fun _ tc => tunnel_in_range K tc) (Config.tunnels cfg).
Proof.
  unfold Config.newConfig, Config.loadTunnels. intros H. apply wrapErr_Ok in H.
  simpl in H. destruct (lookup_key "tunnel" tree) as [got|]; [|discriminate].
  destruct got as [x|x|x|x|x|x|tunnels|x]; try discriminate.
  revert H.
  apply (range_preserves _ (fun c => map_Forall (fun _ tc => tunnel_in_range K tc) (Config.tunnels c)));
    [|apply map_Forall_empty].
  intros name got s s' Hs. unfold Config.loadTunnels_body.
  destruct got as [x|x|x|x|x|x|tmap|x]; try discriminate.
  intros H. apply andThen_Ok in H as (tcfg & Ht & H). injection H as <-.
  apply wrapErr_Ok, newTunnelConfig_in_range in Ht.
  cbn. apply map_Forall_insert_2; assumption.
Qed.

End InRange.

Lemma same_outcome_refl {S} (r : result S) : same_outcome r r.
Proof. destruct r; simpl; auto. Qed.

Lemma same_outcome_sym {S} (r1 r2 : result S) : same_outcome r1 r2 -> same_outcome r2 r1.
Proof. destruct r1, r2; simpl; auto. Qed.

Lemma same_outcome_trans {S} (r1 r2 r3 : result S) :
  same_outcome r1 r2 -> same_outcome r2 r3 -> same_outcome r1 r3.
Proof. destruct r1, r2, r3; simpl; try tauto; congruence. Qed.

Section RangePerm.
Context {S : Type} (body : string -> Value -> S -> result S).

(** Whether an entry is rejected does not depend on the state. *)
Hypothesis reject_any_state :
  forall k v s s', is_Err (body k v s) -> is_Err (body k v s').

(** Two entries with different keys can be taken in either order. *)
Hypothesis commute :
  forall k1 v1 k2 v2 s s1 s12, k1 <> k2 ->
    body k1 v1 s = Ok s1 -> body k2 v2 s1 = Ok s12 ->
    exists s2, body k2 v2 s = Ok s2 /\ body k1 v1 s2 = Ok s12.

Lemma swap_outcome (k1 k2 : string) (v1 v2 : Value) (s : S) :
  k1 <> k2 ->
  same_outcome (andThen (body k1 v1 s) (body k2 v2)) (andThen (body k2 v2 s) (body k1 v1)).
Proof.
  intros Hne.
  destruct (body k1 v1 s) as [s1|e1] eqn:H1; simpl.
  - destruct (body k2 v2 s1) as [s12|e12] eqn:H12.
    + destruct (commute k1 v1 k2 v2 s s1 s12 Hne H1 H12) as (s2 & H2 & H21).
      rewrite H2. simpl. rewrite H21. reflexivity.
    + assert (He : is_Err (body k2 v2 s)).
      { apply (reject_any_state k2 v2 s1). rewrite H12. exact I. }
      destruct (body k2 v2 s); [destruct He | exact I].
  - destruct (body k2 v2 s) as [s2|e2] eqn:H2; simpl; [|exact I].
    assert (He : is_Err (body k1 v1 s2)).
    { apply (reject_any_state k1 v1 s). rewrite H1. exact I. }
    destruct (body k1 v1 s2); [destruct He | exact I].
Qed.

Lemma range_perm (m m' : list (string * Value)) :
  m ≡ₚ m' -> NoDup (map fst m) ->
  forall s, same_outcome (Config.range body s m) (Config.range body s m').
Proof.
  intros Hperm. induction Hperm as [|[k v] m m' Hperm IH|[k1 v1] [k2 v2] m|m m' m'' H1 IH1 H2 IH2];
    intros Hnd s.
  - apply same_outcome_refl.
  - simpl in *. apply NoDup_cons in Hnd as [_ Hnd].
    destruct (body k v s) as [s1|e]; simpl; [apply IH, Hnd | exact I].
  - simpl in Hnd. apply NoDup_cons in Hnd as [Hne _].
    apply not_elem_of_cons in Hne as [Hne _].
    cbn [Config.range].
    pose proof (swap_outcome k1 k2 v1 v2 s (not_eq_sym Hne)) as Hsw.
    destruct (body k1 v1 s) as [s1|e1]; simpl in *.
    + destruct (body k2 v2 s) as [s2|e2]; simpl in *.
      * destruct (body k2 v2 s1) as [s12|e12]; destruct (body k1 v1 s2) as [s21|e21];
          simpl in *; try contradiction; try exact I.
        subst. apply same_outcome_refl.
      * destruct (body k2 v2 s1); [contradiction | exact I].
    + destruct (body k2 v2 s) as [s2|e2]; simpl in *; [|exact I].
      destruct (body k1 v1 s2); [contradiction | exact I].
  - eapply same_outcome_trans; [apply IH1, Hnd|].
    apply IH2. rewrite <- H1. exact Hnd.
Qed.

End RangePerm.

Section Order.
Variable K : Consts.

Ltac on_key k s tac := destruct (String.eqb_spec k s) as [->|?]; [tac|].

Ltac open_param H x Hx :=
  apply wrapErr_Ok in H; apply andThen_Ok in H as (x & Hx & H); injection H as <-.

Ltac conv_case :=
  cbn; match goal with |- context [andThen ?r _] => destruct r end; simpl; tauto.

Lemma session_reject_any_state (k : string) (v : Value) (s s' : Config.SessionConfig) :
  is_Err (Config.newSessionConfig_body K k v s) ->
  is_Err (Config.newSessionConfig_body K k v s').
Proof.
  unfold Config.newSessionConfig_body, Config.sessionParam.
  on_key k "sid" conv_case. on_key k "psid" conv_case. on_key k "pseudowire" conv_case.
  on_key k "seqnum" conv_case. on_key k "reorder_timeout" conv_case.
  on_key k "cookie" conv_case. on_key k "peer_cookie" conv_case.
  on_key k "interface_name" conv_case. on_key k "l2spec_type" conv_case.
  tauto.
Qed.

Ltac second_key Hne k2 :=
  let fin x1 Hx1 :=
    (first [ congruence
           | let H2 := fresh "H2" in let x2 := fresh "x2" in let Hx2 := fresh "Hx2" in
             cbn; intros H2; open_param H2 x2 Hx2; rewrite Hx2, Hx1; cbn;
             eexists; split; reflexivity ]) in
  let H1 := fresh "H1" in let x1 := fresh "x1" in let Hx1 := fresh "Hx1" in
  cbn; intros H1; open_param H1 x1 Hx1;
  on_key k2 "sid" ltac:(fin x1 Hx1); on_key k2 "psid" ltac:(fin x1 Hx1);
  on_key k2 "pseudowire" ltac:(fin x1 Hx1); on_key k2 "seqnum" ltac:(fin x1 Hx1);
  on_key k2 "reorder_timeout" ltac:(fin x1 Hx1); on_key k2 "cookie" ltac:(fin x1 Hx1);
  on_key k2 "peer_cookie" ltac:(fin x1 Hx1); on_key k2 "interface_name" ltac:(fin x1 Hx1);
  on_key k2 "l2spec_type" ltac:(fin x1 Hx1); discriminate.

Lemma session_commute (k1 : string) (v1 : Value) (k2 : string) (v2 : Value)
  (s s1 s12 : Config.SessionConfig) :
  k1 <> k2 ->
  Config.newSessionConfig_body K k1 v1 s = Ok s1 ->
  Config.newSessionConfig_body K k2 v2 s1 = Ok s12 ->
  exists s2, Config.newSessionConfig_body K k2 v2 s = Ok s2 /\
             Config.newSessionConfig_body K k1 v1 s2 = Ok s12.
Proof.
  intros Hne. unfold Config.newSessionConfig_body, Config.sessionParam.
  on_key k1 "sid" ltac:(second_key Hne k2).
  on_key k1 "psid" ltac:(second_key Hne k2).
  on_key k1 "pseudowire" ltac:(second_key Hne k2).
  on_key k1 "seqnum" ltac:(second_key Hne k2).
  on_key k1 "reorder_timeout" ltac:(second_key Hne k2).
  on_key k1 "cookie" ltac:(second_key Hne k2).
  on_key k1 "peer_cookie" ltac:(second_key Hne k2).
  on_key k1 "interface_name" ltac:(second_key Hne k2).
  on_key k1 "l2spec_type" ltac:(second_key Hne k2).
  discriminate.
Qed.






Lemma same_outcome_Ok {S} (r1 r2 : result S) :
  same_outcome r1 r2 -> forall a, r1 = Ok a <-> r2 = Ok a.
Proof. destruct r1, r2; simpl; intros H a'; split; congruence || tauto || (try discriminate). Qed.

(** X3.  The order in which [range] visits the keys of a session table does
    not matter to what is loaded: two visiting orders of the same table give
    the same [SessionConfig], or fail both. *)
Theorem session_keys_in_any_order (scfg scfg' : list (string * Value)) :
  scfg ≡ₚ scfg' -> NoDup (map fst scfg) ->
  forall sc, Config.newSessionConfig K scfg = Ok sc <-> Config.newSessionConfig K scfg' = Ok sc.
Proof.
  intros Hp Hnd. apply same_outcome_Ok. unfold Config.newSessionConfig.
  apply range_perm; try assumption.
  - apply session_reject_any_state.
  - apply session_commute.
Qed.


End Order.

Lemma is_Ok_andThen {A B} (r : result A) (k : A -> result B) :
  is_Ok (andThen r k) <-> exists a, r = Ok a /\ is_Ok (k a).
Proof.
  destruct r as [a|e]; simpl; split.
  - intros H. eauto.
  - intros (a' & Ha & Hk). injection Ha as ->. exact Hk.
  - intros [].
  - intros (a' & Ha & _). discriminate.
Qed.

Lemma is_Ok_wrapErr {A} (w : error -> error) (r : result A) : is_Ok (wrapErr w r) <-> is_Ok r.
Proof. destruct r; simpl; tauto. Qed.

Section RangeAccepts.
Context {S : Type} (body : string -> Value -> S -> result S).
Hypothesis accept_any_state :
  forall k v s s', is_Ok (body k v s) -> is_Ok (body k v s').

Lemma range_accepts (m : list (string * Value)) (s : S) :
  is_Ok (Config.range body s m) <-> Forall (fun e => is_Ok (body e.1 e.2 s)) m.
Proof.
  revert s. induction m as [|[k v] m IH]; intros s; simpl.
  - split; [constructor | exact (fun _ => I)].
  - rewrite is_Ok_andThen, Forall_cons. simpl. split.
    + intros (s1 & Hk & Hrest). split; [rewrite Hk; exact I|].
      apply IH in Hrest. eapply Forall_impl; [exact Hrest|].
      intros [k' v'] H. simpl in *. exact (accept_any_state k' v' s1 s H).
    + intros [Hk Hrest]. destruct (body k v s) as [s1|e] eqn:Hb; [|destruct Hk].
      exists s1. split; [reflexivity|]. apply IH.
      eapply Forall_impl; [exact Hrest|].
      intros [k' v'] H. simpl in *. exact (accept_any_state k' v' s s1 H).
Qed.
End RangeAccepts.

Section Tables.
Variable K : Consts.

Lemma loadTunnels_body_Ok (name : string) (got : Value) (cfg cfg' : Config.Config) :
  Config.loadTunnels_body K name got cfg = Ok cfg' <->
  exists tmap tc, got = VMap tmap /\ Config.newTunnelConfig K tmap = Ok tc /\
                  cfg' = {| Config.cm := Config.cm cfg;
                            Config.tunnels := <[name := tc]> (Config.tunnels cfg) |}.
Proof.
  unfold Config.loadTunnels_body.
  destruct got as [x|x|x|x|x|x|tmap|x];
    try (split; [discriminate | intros (? & ? & E & _); discriminate]).
  rewrite andThen_Ok. split.
  - intros (tc & Ht & E). apply wrapErr_Ok in Ht. injection E as <-. eauto.
  - intros (tmap' & tc & E & Ht & ->). injection E as <-.
    exists tc. split; [apply wrapErr_Ok, Ht | reflexivity].
Qed.

Lemma loadTunnels_range_lookup (tunnels : list (string * Value)) (cfg0 cfg : Config.Config) :
  NoDup (map fst tunnels) ->
  Config.range (Config.loadTunnels_body K) cfg0 tunnels = Ok cfg ->
  Config.cm cfg = Config.cm cfg0 /\
  forall name tc,
    Config.tunnels cfg !! name = Some tc <->
    (exists tmap, In (name, VMap tmap) tunnels /\ Config.newTunnelConfig K tmap = Ok tc) \/
    ((name ∉ map fst tunnels) /\ Config.tunnels cfg0 !! name = Some tc).
Proof.
  revert cfg0. induction tunnels as [|[n got] rest IH]; intros cfg0 Hnd Hrun.
  - simpl in Hrun. injection Hrun as <-. split; [reflexivity|]. intros name tc. split.
    + intros H. right. split; [apply not_elem_of_nil | exact H].
    + intros [(tmap & [] & _)|[_ H]]. exact H.
  - simpl in Hnd. apply NoDup_cons in Hnd as [Hn Hnd].
    simpl in Hrun. apply andThen_Ok in Hrun as (cfg1 & Hbody & Hrest).
    apply loadTunnels_body_Ok in Hbody as (tmap & tc1 & -> & Ht1 & ->).
    destruct (IH _ Hnd Hrest) as [Hcm Hlk]. split; [exact Hcm|].
    intros name tc. rewrite Hlk. simpl. rewrite lookup_insert_Some, not_elem_of_cons. split.
    + intros [(tmap' & Hin & Ht)|[Hnotin [[<- <-]|[Hne H0]]]].
      * left. exists tmap'. auto.
      * left. exists tmap. auto.
      * right. auto.
    + intros [(tmap' & [Heq|Hin] & Ht)|[[Hne Hnotin] H0]].
      * injection Heq as <- <-. right. split; [exact Hn|]. left.
        split; [reflexivity | congruence].
      * left. eauto.
      * right. split; [exact Hnotin|]. right. auto.
Qed.

(** X5.  After a load that succeeds, [ToMap] returns the decoded tree as it
    was given, and [GetTunnels] has one entry for each table under [tunnel]
    and no other: under the table's name, what [newTunnelConfig] makes of the
    table. *)
Theorem loaded_tunnels_are_the_tables (tree tunnels : list (string * Value))
  (cfg : Config.Config) :
  Config.newConfig K tree = Ok cfg ->
  lookup_key "tunnel" tree = Some (VMap tunnels) ->
  NoDup (map fst tunnels) ->
  Config.ToMap cfg = tree /\
  forall name tc,
    Config.GetTunnels cfg !! name = Some tc <->
    exists tmap, In (name, VMap tmap) tunnels /\ Config.newTunnelConfig K tmap = Ok tc.
Proof.
  unfold Config.newConfig, Config.loadTunnels. simpl. intros Hrun Hl Hnd.
  rewrite Hl in Hrun. apply wrapErr_Ok in Hrun.
  destruct (loadTunnels_range_lookup tunnels _ cfg Hnd Hrun) as [Hcm Hlk].
  split; [exact Hcm|]. intros name tc. unfold Config.GetTunnels. rewrite Hlk. simpl. split.
  - intros [H|[_ H]]; [exact H|]. rewrite lookup_empty in H. discriminate.
  - intros H. left. exact H.
Qed.

(** A tree loads exactly when it has a [tunnel] table and every entry of it
    is a table that [newTunnelConfig] accepts. *)
Lemma newConfig_Ok_iff (tree : list (string * Value)) :
  is_Ok (Config.newConfig K tree) <->
  exists tunnels,
    lookup_key "tunnel" tree = Some (VMap tunnels) /\
    Forall (fun e => exists tmap, e.2 = VMap tmap /\ is_Ok (Config.newTunnelConfig K tmap))
      tunnels.
Proof.
  unfold Config.newConfig, Config.loadTunnels. simpl. rewrite is_Ok_wrapErr.
  assert (Hbody : forall cfg (e : string * Value),
            is_Ok (Config.loadTunnels_body K e.1 e.2 cfg) <->
            exists tmap, e.2 = VMap tmap /\ is_Ok (Config.newTunnelConfig K tmap)).
  { intros cfg [name got]. simpl. unfold Config.loadTunnels_body.
    destruct got as [x|x|x|x|x|x|tmap|x];
      try (split; [intros [] | intros (? & E & _); discriminate]).
    rewrite is_Ok_andThen. split.
    - intros (tc & Ht & _). apply wrapErr_Ok in Ht. exists tmap. rewrite Ht. split; [reflexivity | exact I].
    - intros (tmap' & E & Ht). injection E as <-.
      destruct (Config.newTunnelConfig K tmap) as [tc|e]; [|destruct Ht].
      exists tc. simpl. split; [reflexivity | exact I]. }
  destruct (lookup_key "tunnel" tree) as [got|]; [|split; [intros [] | intros (? & E & _); discriminate]].
  destruct got as [x|x|x|x|x|x|tunnels|x];
    try (split; [intros [] | intros (? & E & _); discriminate]).
  rewrite range_accepts.
  - split.
    + intros H. exists tunnels. split; [reflexivity|].
      eapply Forall_impl; [exact H|]. intros e He. simpl in He.
      apply (Hbody {| Config.cm := tree; Config.tunnels := ∅ |} e), He.
    + intros (tunnels' & E & H). injection E as <-.
      eapply Forall_impl; [exact H|]. intros e He. simpl.
      apply (Hbody {| Config.cm := tree; Config.tunnels := ∅ |} e), He.
  - intros k v s s' H. apply (Hbody s' (k, v)). apply (Hbody s (k, v)). exact H.
Qed.

(** A [tunnel] table without entries loads, and gives no tunnels. *)
Lemma empty_tunnel_table_loads (tree : list (string * Value)) :
  lookup_key "tunnel" tree = Some (VMap []) ->
  Config.newConfig K tree = Ok {| Config.cm := tree; Config.tunnels := ∅ |}.
Proof.
  intros Hl. unfold Config.newConfig, Config.loadTunnels. simpl. rewrite Hl. reflexivity.
Qed.
End Tables.

(** ** The configurations that load *)

Lemma is_Ok_andThen_Ok {A B} (r : result A) (f : A -> B) :
  is_Ok (andThen r (fun x => Ok (f x))) <-> is_Ok r.
Proof. destruct r; simpl; tauto. Qed.

Lemma is_Ok_toUint32 (v : Value) : is_Ok (Config.toUint32 v) <-> is_uint32_value v.
Proof.
  unfold is_uint32_value. split.
  - intros H. apply is_Ok_inv in H as [x Hx]. apply toUint32_Ok in Hx. eauto.
  - intros (x & Hx). apply toUint32_Ok in Hx. rewrite Hx. exact I.
Qed.

Lemma is_Ok_toString (v : Value) : is_Ok (Config.toString v) <-> exists s, v = VString s.
Proof.
  destruct v as [x|x|x|x|s|x|x|x]; simpl;
    try (split; [tauto | intros [s' Hs]; discriminate]).
  split; [intros _; exists s; reflexivity | tauto].
Qed.

Lemma is_Ok_toBool (v : Value) : is_Ok (Config.toBool v) <-> exists b, v = VBool b.
Proof.
  destruct v as [b|x|x|x|x|x|x|x]; simpl;
    try (split; [tauto | intros [b' Hb]; discriminate]).
  split; [intros _; exists b; reflexivity | tauto].
Qed.

Lemma is_Ok_toBytes (v : Value) : is_Ok (Config.toBytes v) <-> is_byte_array v.
Proof.
  unfold is_byte_array. split.
  - intros H. apply is_Ok_inv in H as [bs Hbs].
    apply toBytes_Ok in Hbs as (numbers & -> & Hall).
    exists numbers. split; [reflexivity|].
    induction Hall as [|n b ns bs Hb _ IH]; constructor; eauto.
  - intros (numbers & -> & Hall).
    assert (exists bs, Forall2 byte_of numbers bs) as [bs Hbs].
    { induction Hall as [|n ns [b Hb] _ [bs IH]]; [exists []; constructor|].
      exists (b :: bs). constructor; assumption. }
    assert (H : Config.toBytes (VArray numbers) = Ok bs) by (apply toBytes_Ok; eauto).
    rewrite H. exact I.
Qed.

Lemma is_Ok_two_strings {A} (v : Value) (s1 s2 : string) (a1 a2 : A) (e : error) :
  is_Ok (andThen (Config.toString v) (fun s =>
           if String.eqb s s1 then Ok a1 else if String.eqb s s2 then Ok a2 else Err e)) <->
  is_string_in [s1; s2] v.
Proof.
  unfold is_string_in. destruct v as [x|x|x|x|s|x|x|x]; simpl;
    try (split; [tauto | intros (s' & Hs & _); discriminate]).
  destruct (String.eqb_spec s s1) as [->|H1]; [|destruct (String.eqb_spec s s2) as [->|H2]];
    simpl; split; try tauto.
  - intros _. exists s1. split; [reflexivity | left; reflexivity].
  - intros _. exists s2. split; [reflexivity | right; left; reflexivity].
  - intros (s' & Hs & Hin). injection Hs as <-. destruct Hin as [E|[E|[]]]; congruence.
Qed.

Section Accepts.
Variable K : Consts.

Ltac on_key k s tac := destruct (String.eqb_spec k s) as [->|?]; [tac|].

Ltac key_case lem :=
  cbn; rewrite is_Ok_wrapErr, ?is_Ok_andThen_Ok; rewrite lem;
  unfold session_entry_ok, tunnel_entry_ok;
  split; [intros ?; tauto | intros ?; intuition discriminate].

Lemma is_Ok_toDurationMs (v : Value) : is_Ok (Config.toDurationMs v) <-> is_uint32_value v.
Proof. unfold Config.toDurationMs. rewrite is_Ok_andThen_Ok. apply is_Ok_toUint32. Qed.

Lemma session_body_Ok_iff (k : string) (v : Value) (sc : Config.SessionConfig) :
  is_Ok (Config.newSessionConfig_body K k v sc) <-> session_entry_ok k v.
Proof.
  unfold Config.newSessionConfig_body, Config.sessionParam, Config.toCCID,
    Config.toPseudowireType, Config.toL2SpecType.
  on_key k "sid" ltac:(key_case is_Ok_toUint32).
  on_key k "psid" ltac:(key_case is_Ok_toUint32).
  on_key k "pseudowire" ltac:(key_case (@is_Ok_two_strings Z)).
  on_key k "seqnum" ltac:(key_case is_Ok_toBool).
  on_key k "reorder_timeout" ltac:(key_case is_Ok_toDurationMs).
  on_key k "cookie" ltac:(key_case is_Ok_toBytes).
  on_key k "peer_cookie" ltac:(key_case is_Ok_toBytes).
  on_key k "interface_name" ltac:(key_case is_Ok_toString).
  on_key k "l2spec_type" ltac:(key_case (@is_Ok_two_strings Z)).
  simpl. unfold session_entry_ok. split; [tauto | intuition congruence].
Qed.

Lemma newSessionConfig_Ok_iff (smap : list (string * Value)) :
  is_Ok (Config.newSessionConfig K smap) <->
  Forall (fun p => session_entry_ok p.1 p.2) smap.
Proof.
  unfold Config.newSessionConfig. rewrite range_accepts.
  - apply Forall_iff. intros [k v]. apply session_body_Ok_iff.
  - intros k v s s' H. apply session_body_Ok_iff. apply session_body_Ok_iff in H. exact H.
Qed.

Lemma loadSessions_body_Ok_iff (name : string) (got : Value) (t : Config.TunnelConfig) :
  is_Ok (Config.loadSessions_body K name got t) <->
  exists smap, got = VMap smap /\ Forall (fun p => session_entry_ok p.1 p.2) smap.
Proof.
  unfold Config.loadSessions_body.
  destruct got as [x|x|x|x|x|x|smap|x];
    try (split; [intros [] | intros (? & E & _); discriminate]).
  rewrite is_Ok_andThen_Ok, is_Ok_wrapErr, newSessionConfig_Ok_iff. split.
  - intros H. eauto.
  - intros (smap' & E & H). injection E as <-. exact H.
Qed.

Lemma loadSessions_Ok_iff (v : Value) (t : Config.TunnelConfig) :
  is_Ok (Config.loadSessions K t v) <-> session_table_ok v.
Proof.
  unfold session_table_ok.
  destruct v as [x|x|x|x|x|x|sessions|x];
    try (split; [intros [] | intros (? & E & _); discriminate]).
  cbn [Config.loadSessions]. rewrite range_accepts.
  - split.
    + intros H. exists sessions. split; [reflexivity|].
      eapply Forall_impl; [exact H|]. intros [name got] Hb.
      apply loadSessions_body_Ok_iff in Hb. exact Hb.
    + intros (sessions' & E & H). injection E as <-.
      eapply Forall_impl; [exact H|]. intros [name got] Hb.
      apply loadSessions_body_Ok_iff. exact Hb.
  - intros k v s s' H. apply loadSessions_body_Ok_iff.
    apply loadSessions_body_Ok_iff in H. exact H.
Qed.

Lemma tunnel_body_Ok_iff (k : string) (v : Value) (tc : Config.TunnelConfig) :
  is_Ok (Config.newTunnelConfig_body K k v tc) <-> tunnel_entry_ok k v.
Proof.
  unfold Config.newTunnelConfig_body, Config.tunnelParam, Config.toCCID,
    Config.toEncapType, Config.toVersion.
  on_key k "local" ltac:(key_case is_Ok_toString).
  on_key k "peer" ltac:(key_case is_Ok_toString).
  on_key k "encap" ltac:(key_case (@is_Ok_two_strings Z)).
  on_key k "version" ltac:(key_case (@is_Ok_two_strings Z)).
  on_key k "tid" ltac:(key_case is_Ok_toUint32).
  on_key k "ptid" ltac:(key_case is_Ok_toUint32).
  on_key k "session" ltac:(cbn -[Config.loadSessions]; rewrite is_Ok_wrapErr, loadSessions_Ok_iff;
                           unfold tunnel_entry_ok;
                           split; [intros ?; tauto | intros ?; intuition discriminate]).
  simpl. unfold tunnel_entry_ok. split; [tauto | intuition congruence].
Qed.

Lemma newTunnelConfig_Ok_iff (tmap : list (string * Value)) :
  is_Ok (Config.newTunnelConfig K tmap) <->
  Forall (fun p => tunnel_entry_ok p.1 p.2) tmap.
Proof.
  unfold Config.newTunnelConfig. rewrite range_accepts.
  - apply Forall_iff. intros [k v]. apply tunnel_body_Ok_iff.
  - intros k v s s' H. apply tunnel_body_Ok_iff. apply tunnel_body_Ok_iff in H. exact H.
Qed.

(** X6.  The configurations that load are exactly the trees with a [tunnel]
    table whose entries are tables of tunnel parameters: [local] and [peer]
    with a string, [encap] with "udp" or "ip", [version] with "l2tpv2" or
    "l2tpv3", [tid] and [ptid] with an integer from 0 to 4294967295, and
    [session] with a table of tables of session parameters, which are [sid],
    [psid] and [reorder_timeout] with such an integer, [pseudowire] with
    "ppp" or "eth", [seqnum] with a boolean, [cookie] and [peer_cookie] with
    an array of integers from 0 to 255, [interface_name] with a string and
    [l2spec_type] with "none" or "default".  An empty [tunnel] table is
    enough, and the order of the entries plays no part. *)
Theorem loader_accepts_exactly (tree : list (string * Value)) :
  is_Ok (Config.newConfig K tree) <->
  exists tunnels,
    lookup_key "tunnel" tree = Some (VMap tunnels) /\
    Forall (fun e => exists tmap, e.2 = VMap tmap /\
                       Forall (fun p => tunnel_entry_ok p.1 p.2) tmap) tunnels.
Proof.
  rewrite newConfig_Ok_iff. split; intros (tunnels & Hl & H); exists tunnels;
    (split; [exact Hl|]); (eapply Forall_impl; [exact H|]);
    intros e (tmap & He & Ht); exists tmap; (split; [exact He|]);
    apply newTunnelConfig_Ok_iff; exact Ht.
Qed.

End Accepts.

(** X2, witness: the tree with the three-byte cookie. *)
Lemma loaded_config_in_range_witness :
  exists cfg,
    Config.newConfig linux_consts tree_cookie3 = Ok cfg /\
    map_Forall (fun _ tc => tunnel_in_range linux_consts tc) (Config.tunnels cfg).
Proof.
  eexists. split; [vm_compute; reflexivity|].
  apply (loaded_config_in_range linux_consts tree_cookie3). vm_compute. reflexivity.
Defined.

(** X3, witness: a session table with the keys [sid] and [psid], visited in
    either order. *)
Lemma session_keys_in_any_order_witness :
  [("sid", VInt64 1); ("psid", VInt64 2)] ≡ₚ [("psid", VInt64 2); ("sid", VInt64 1)] /\
  Config.newSessionConfig linux_consts [("psid", VInt64 2); ("sid", VInt64 1)] =
    Ok (Config.set_PeerSessionID 2 (Config.set_SessionID 1 Config.SessionConfig_zero)).
Proof.
  assert (Hp : [("sid", VInt64 1); ("psid", VInt64 2)] ≡ₚ
               [("psid", VInt64 2); ("sid", VInt64 1)]) by apply perm_swap.
  assert (Hnd : NoDup (map fst [("sid", VInt64 1); ("psid", VInt64 2)])).
  { simpl. apply NoDup_cons_2; [|apply NoDup_singleton].
    intros Hin. apply list_elem_of_singleton in Hin. discriminate. }
  split; [exact Hp|].
  exact (proj1 (session_keys_in_any_order linux_consts _ _ Hp Hnd
                  (Config.set_PeerSessionID 2 (Config.set_SessionID 1 Config.SessionConfig_zero)))
               eq_refl).
Defined.


(** X5, witness: the tree with the one tunnel "t1". *)
Lemma loaded_tunnels_are_the_tables_witness :
  exists cfg,
    Config.newConfig linux_consts tree_cookie3 = Ok cfg /\
    Config.ToMap cfg = tree_cookie3 /\
    is_Some (Config.GetTunnels cfg !! "t1").
Proof.
  eexists. split; [vm_compute; reflexivity|].
  assert (Hnd : NoDup (map fst [("t1", VMap [("session", VMap [("s1", VMap
                   [("cookie", VArray [VInt64 1; VInt64 2; VInt64 3])])])])])).
  { simpl. apply NoDup_singleton. }
  destruct (loaded_tunnels_are_the_tables linux_consts tree_cookie3 _ _
              ltac:(vm_compute; reflexivity) eq_refl Hnd) as [Hmap _].
  split; [exact Hmap|]. vm_compute. eauto.
Defined.

(** * More properties of the context *)

Section MoreContextFacts.
Variable K : Consts.
Variable X : Externals.

(** As before: take the first call off a successful run. *)
Ltac passed H Hc :=
  let u := fresh "u" in let s1 := fresh "s" in
  apply bind_Ret in H as (u & s1 & Hc & H); apply failIf_Ret in Hc as [Hc ->].
Ltac call H x sx Hx := apply bind_Ret in H as (x & sx & Hx & H).

Lemma build_and_link_eq (kind : TunnelKind) (name : string) (sal sap : Sockaddr)
  (myCfg : TunnelConfig) (s s1 s' : State) (t : tunnel) (u : unit) :
  newTunnel X kind name sal sap myCfg s = (Ret t, s1) ->
  linkTunnel t s1 = (Ret u, s') ->
  t = new_tunnel kind name s /\ s' = linked kind name myCfg s /\
  newTunnel_err X kind name sal sap myCfg = None.
Proof.
  unfold newTunnel. destruct (newTunnel_err X kind name sal sap myCfg); [discriminate|].
  unfold bind, addressOf, emit, ret. simpl. intros H. injection H as <- <-.
  unfold linkTunnel, bind, getCtx, setCtx, deref. simpl.
  rewrite lookup_insert_eq. intros H. injection H as _ <-.
  repeat split.
Qed.

Lemma build_and_link_run (kind : TunnelKind) (name : string) (sal sap : Sockaddr)
  (myCfg : TunnelConfig) (s : State) :
  newTunnel_err X kind name sal sap myCfg = None ->
  (do t <- newTunnel X kind name sal sap myCfg; do _ <- linkTunnel t; ret t) s =
    (Ret (new_tunnel kind name s), linked kind name myCfg s).
Proof.
  intros He. unfold newTunnel. rewrite He.
  unfold bind, addressOf, emit, ret, linkTunnel, bind, getCtx, setCtx, deref. simpl.
  rewrite lookup_insert_eq. reflexivity.
Qed.

Lemma bind_run {A B} (m : M A) (k : A -> M B) (s s1 : State) (a : A) :
  m s = (Ret a, s1) -> bind m k s = k a s1.
Proof. intros H. unfold bind. rewrite H. reflexivity. Qed.

Lemma failIf_run {B} (cond : bool) (e : error) (k : unit -> M B) (s : State) :
  cond = false -> bind (failIf cond e) k s = k tt s.
Proof. intros ->. reflexivity. Qed.

(** What a run of [NewStaticTunnel] or [NewQuiescentTunnel] that returns a
    tunnel has checked, and what it leaves. *)
Lemma NewStaticTunnel_Ret (name : string) (cfg : ptr) (s s' : State) (t : tunnel) :
  NewStaticTunnel K X name cfg s = (Ret t, s') ->
  exists l c, cfg = Some l /\ heap (world s) !! l = Some c /\
              static_accepts K X name c s /\ t = new_tunnel Static name s /\
              s' = linked Static name c s.
Proof.
  intros H. unfold NewStaticTunnel in H.
  passed H Hnil.
  call H c s0 Hc. apply deref_Ret in Hc as [-> (l & -> & Hl)].
  call H found s0 Hf. apply findTunnelByName_Ret in Hf as [-> ->].
  passed H Hname. apply isSome_false in Hname.
  passed H Hver. apply negb_false_iff, Z.eqb_eq in Hver.
  passed H Hids. apply orb_false_iff in Hids as [Htid Hptid].
  apply Z.eqb_neq in Htid, Hptid.
  passed H Hlocal. passed H Hpeer.
  apply String.eqb_neq in Hlocal, Hpeer.
  call H found s1 Hf. apply findTunnelByID_Ret in Hf as [-> ->].
  passed H Hclash. apply isSome_false in Hclash.
  call H addrs s1 Haddr. apply lift_Ret in Haddr as [Haddr ->].
  call H t0 s1 Hnew. call H ul s2 Hlink. apply ret_Ret in H as [-> ->].
  destruct (build_and_link_eq _ _ _ _ _ _ _ _ _ _ Hnew Hlink) as (-> & -> & Herr).
  exists l, c. split; [reflexivity|]. split; [exact Hl|].
  split; [|split; reflexivity].
  repeat (split; [assumption|]). exists addrs. split; assumption.
Qed.

Lemma NewQuiescentTunnel_Ret (name : string) (cfg : ptr) (s s' : State) (t : tunnel) :
  NewQuiescentTunnel K X name cfg s = (Ret t, s') ->
  exists l c, cfg = Some l /\ heap (world s) !! l = Some c /\
              quiescent_accepts K X name c s /\ t = new_tunnel Quiescent name s /\
              s' = linked Quiescent name c s.
Proof.
  intros H. unfold NewQuiescentTunnel in H.
  passed H Hnil.
  call H c s0 Hc. apply deref_Ret in Hc as [-> (l & -> & Hl)].
  call H found s0 Hf. apply findTunnelByName_Ret in Hf as [-> ->].
  passed H Hname. apply isSome_false in Hname.
  passed H Hencap.
  call H uids s1 Hids.
  assert (s1 = s /\ TunnelID c <> 0 /\ PeerTunnelID c <> 0 /\
          (Version c = ProtocolVersion2 -> TunnelID c <= 65535 /\ PeerTunnelID c <= 65535))
    as (-> & Htid & Hptid & Hv2).
  { destruct (Z.eqb_spec (Version c) ProtocolVersion2) as [Hv|Hv].
    - destruct ((TunnelID c =? 0) || (TunnelID c >? 65535)) eqn:E1; [discriminate|].
      destruct ((PeerTunnelID c =? 0) || (PeerTunnelID c >? 65535)) eqn:E2; [discriminate|].
      apply ret_Ret in Hids as [_ ->].
      apply orb_false_iff in E1 as [E1 E1']. apply orb_false_iff in E2 as [E2 E2'].
      apply Z.eqb_neq in E1, E2. repeat split; try assumption; lia.
    - apply failIf_Ret in Hids as [E ->]. apply orb_false_iff in E as [E1 E2].
      apply Z.eqb_neq in E1, E2. repeat split; try assumption; contradiction. }
  passed H Hlocal. passed H Hpeer.
  apply String.eqb_neq in Hlocal, Hpeer.
  call H found s1 Hf. apply findTunnelByID_Ret in Hf as [-> ->].
  passed H Hclash. apply isSome_false in Hclash.
  call H addrs s1 Haddr. apply lift_Ret in Haddr as [Haddr ->].
  call H t0 s1 Hnew. call H ul s2 Hlink. apply ret_Ret in H as [-> ->].
  destruct (build_and_link_eq _ _ _ _ _ _ _ _ _ _ Hnew Hlink) as (-> & -> & Herr).
  exists l, c. split; [reflexivity|]. split; [exact Hl|].
  split; [|split; reflexivity].
  split; [assumption|]. split.
  { intros He. apply andb_false_iff in Hencap as [Hv|Hne].
    - apply negb_false_iff, Z.eqb_eq in Hv. exact Hv.
    - apply Z.eqb_neq in Hne. contradiction. }
  repeat (split; [assumption|]). exists addrs. split; assumption.
Qed.

(** X7.  [NewStaticTunnel] returns a tunnel exactly when the name is free,
    the config asks for L2TPv3, both tunnel IDs are set, both addresses are
    given, the tunnel ID is free, the addresses resolve and the tunnel comes
    up.  The tunnel then has a copy of the caller's config at a new address
    and is linked under its name and its tunnel ID; nothing else changes. *)
Theorem NewStaticTunnel_succeeds_iff (name : string) (l : loc) (c : TunnelConfig)
  (s s' : State) (t : tunnel) :
  heap (world s) !! l = Some c ->
  NewStaticTunnel K X name (Some l) s = (Ret t, s') <->
  static_accepts K X name c s /\ t = new_tunnel Static name s /\
  s' = linked Static name c s.
Proof.
  intros Hl. split.
  - intros H.
    destruct (NewStaticTunnel_Ret name (Some l) s s' t H)
      as (l0 & c0 & Heq & Hl0 & Hacc & Ht & Hs).
    injection Heq as <-. rewrite Hl in Hl0. injection Hl0 as <-. auto.
  - intros ((Hname & Hver & Htid & Hptid & Hlocal & Hpeer & Hclash & addrs & Haddr & Herr)
            & -> & ->).
    unfold NewStaticTunnel.
    rewrite failIf_run by reflexivity.
    rewrite (bind_run (deref (Some l)) _ s s c) by (unfold deref; rewrite Hl; reflexivity).
    rewrite (bind_run (findTunnelByName name) _ s s None)
      by (unfold findTunnelByName; rewrite Hname; reflexivity).
    rewrite failIf_run by reflexivity.
    rewrite failIf_run by (apply negb_false_iff, Z.eqb_eq; exact Hver).
    rewrite failIf_run
      by (apply orb_false_iff; split; apply Z.eqb_neq; assumption).
    rewrite failIf_run by (apply String.eqb_neq; exact Hlocal).
    rewrite failIf_run by (apply String.eqb_neq; exact Hpeer).
    rewrite (bind_run (findTunnelByID (TunnelID c)) _ s s None)
      by (unfold findTunnelByID; rewrite Hclash; reflexivity).
    rewrite failIf_run by reflexivity.
    rewrite (bind_run (lift (addressPair K X c)) _ s s addrs)
      by (unfold lift; rewrite Haddr; reflexivity).
    apply build_and_link_run. exact Herr.
Qed.

(** X8.  [NewQuiescentTunnel] returns a tunnel exactly when the name is free,
    IP encapsulation comes with L2TPv3 only, both tunnel IDs are set (and at
    most 65535 for L2TPv2), both addresses are given, the tunnel ID is free,
    the addresses resolve and the tunnel comes up.  What it leaves is as for
    a static tunnel. *)
Theorem NewQuiescentTunnel_succeeds_iff (name : string) (l : loc) (c : TunnelConfig)
  (s s' : State) (t : tunnel) :
  heap (world s) !! l = Some c ->
  NewQuiescentTunnel K X name (Some l) s = (Ret t, s') <->
  quiescent_accepts K X name c s /\ t = new_tunnel Quiescent name s /\
  s' = linked Quiescent name c s.
Proof.
  intros Hl. split.
  - intros H.
    destruct (NewQuiescentTunnel_Ret name (Some l) s s' t H)
      as (l0 & c0 & Heq & Hl0 & Hacc & Ht & Hs).
    injection Heq as <-. rewrite Hl in Hl0. injection Hl0 as <-. auto.
  - intros ((Hname & Hencap & Htid & Hptid & Hv2 & Hlocal & Hpeer & Hclash & addrs & Haddr & Herr)
            & -> & ->).
    unfold NewQuiescentTunnel.
    rewrite failIf_run by reflexivity.
    rewrite (bind_run (deref (Some l)) _ s s c) by (unfold deref; rewrite Hl; reflexivity).
    rewrite (bind_run (findTunnelByName name) _ s s None)
      by (unfold findTunnelByName; rewrite Hname; reflexivity).
    rewrite failIf_run by reflexivity.
    rewrite failIf_run.
    2:{ destruct (Z.eqb_spec (Encap c) (EncapTypeIP K)) as [He|He].
        - rewrite (Hencap He). reflexivity.
        - apply andb_false_r. }
    erewrite (bind_run _ _ s s tt).
    2:{ destruct (Z.eqb_spec (Version c) ProtocolVersion2) as [Hv|Hv].
        - destruct (Hv2 Hv) as [H1 H2].
          replace ((TunnelID c =? 0) || (TunnelID c >? 65535)) with false
            by (symmetry; apply orb_false_iff; split; [apply Z.eqb_neq; assumption | lia]).
          replace ((PeerTunnelID c =? 0) || (PeerTunnelID c >? 65535)) with false
            by (symmetry; apply orb_false_iff; split; [apply Z.eqb_neq; assumption | lia]).
          reflexivity.
        - replace ((TunnelID c =? 0) || (PeerTunnelID c =? 0)) with false
            by (symmetry; apply orb_false_iff; split; apply Z.eqb_neq; assumption).
          reflexivity. }
    rewrite failIf_run by (apply String.eqb_neq; exact Hlocal).
    rewrite failIf_run by (apply String.eqb_neq; exact Hpeer).
    rewrite (bind_run (findTunnelByID (TunnelID c)) _ s s None)
      by (unfold findTunnelByID; rewrite Hclash; reflexivity).
    rewrite failIf_run by reflexivity.
    rewrite (bind_run (lift (addressPair K X c)) _ s s addrs)
      by (unfold lift; rewrite Haddr; reflexivity).
    apply build_and_link_run. exact Herr.
Qed.

(** ** ID allocation: what it draws *)

Lemma allocTid_loop_draws (n : nat) (version : Z) (s : State) :
  exists d, snd (allocTid_loop X n version s) = set_draws d s /\
            (draws (world s) <= d <= draws (world s) + n)%nat.
Proof.
  revert s. induction n as [|n IH]; intros s; cbn [allocTid_loop].
  - exists (draws (world s)). split; [symmetry; apply set_draws_same | lia].
  - unfold bind, wrapM, findTunnelByID, generateControlConnID, rand_Uint32, ret, fail.
    assert (Hgo : forall id0,
      exists d,
        snd ((if negb (isSome (tunnelsByID (ctx (set_draws (S (draws (world s))) s)) !! id0))
              then (fun s0 => (Ret id0, s0)) else allocTid_loop X n version)
               (set_draws (S (draws (world s))) s)) = set_draws d s /\
        (draws (world s) <= d <= draws (world s) + S n)%nat).
    { intros id0. simpl. destruct (isSome (tunnelsByID (ctx s) !! id0)); simpl.
      - destruct (IH (set_draws (S (draws (world s))) s)) as (d & Hd & Hb).
        exists d. split; [exact Hd | simpl in Hb; lia].
      - exists (S (draws (world s))). split; [reflexivity | lia]. }
    destruct (version =? ProtocolVersion2); [exact (Hgo _)|].
    destruct (version =? ProtocolVersion3); [exact (Hgo _)|].
    simpl. exists (draws (world s)). split; [symmetry; apply set_draws_same | lia].
Qed.

Lemma allocTid_loop_unhandled (n : nat) (version : Z) (s : State) :
  version <> ProtocolVersion2 -> version <> ProtocolVersion3 ->
  allocTid_loop X (S n) version s =
    (Fail (Errorf "failed to generate tunnel ID: %v"
             [ArgError (Errorf "unhandled version %v" [ArgInt version])]), s).
Proof.
  intros H2 H3. cbn [allocTid_loop].
  unfold bind, wrapM, generateControlConnID, fail.
  apply Z.eqb_neq in H2, H3. rewrite H2, H3. reflexivity.
Qed.

(** X14.  [allocTid] changes nothing but the position of the random
    generator, which it moves by at most ten draws, by at least one when it
    returns an ID, and not at all for a version that is neither 2 nor 3,
    where it fails at once; an ID it returns is free. *)
Theorem allocTid_draws_at_most_ten (version : Z) (s : State) :
  exists d,
    after (allocTid X version) s = set_draws d s /\
    (draws (world s) <= d <= draws (world s) + 10)%nat /\
    (forall id, fst (allocTid X version s) = Ret id ->
       tunnelsByID (ctx s) !! id = None /\ (draws (world s) < d)%nat) /\
    (version <> ProtocolVersion2 -> version <> ProtocolVersion3 ->
       d = draws (world s) /\
       fst (allocTid X version s) =
         Fail (Errorf "failed to generate tunnel ID: %v"
                 [ArgError (Errorf "unhandled version %v" [ArgInt version])])).
Proof.
  destruct (allocTid_loop_draws 10 version s) as (d & Hd & Hb).
  destruct (Z.eq_dec version ProtocolVersion2) as [H2|H2];
    [|destruct (Z.eq_dec version ProtocolVersion3) as [H3|H3]].
  1,2: exists d; split; [exact Hd|]; split; [exact Hb|]; split; [|intros; congruence];
    intros id Hid; unfold allocTid in *;
    destruct (allocTid_loop X 10 version s) as [o s1] eqn:Hrun; simpl in Hid; subst o;
    pose proof (allocTid_loop_Ret X _ _ _ _ _ Hrun) as [Hfree _];
    (split; [exact Hfree|]);
    rewrite allocTid_loop_eq in Hrun by auto;
    unfold alloc_outcome in Hrun;
    destruct (first_free _ _ _ _) as [[k i]|] eqn:Hff; [|discriminate];
    injection Hrun as _ <-; simpl in Hd;
    assert (d = S k) as -> by (unfold set_draws in Hd; congruence);
    clear -Hff; revert Hff; generalize (draws (world s)); generalize 10%nat;
    intros n; induction n as [|n IH]; intros d0; simpl; [discriminate|];
    destruct (isSome _); [intros H; apply IH in H; lia | intros H; injection H as <- _; lia].
  exists (draws (world s)). unfold after, allocTid.
  rewrite allocTid_loop_unhandled by assumption. simpl.
  split; [symmetry; apply set_draws_same|]. split; [lia|].
  split; [discriminate|]. intros _ _. split; reflexivity.
Qed.

(** ** What a successful factory leaves *)

Lemma NewDynamicTunnel_Ret (name : string) (l : loc) (c : TunnelConfig)
  (s s' : State) (t : tunnel) :
  heap (world s) !! l = Some c ->
  NewDynamicTunnel K X name (Some l) s = (Ret t, s') ->
  exists myCfg d,
    dynamic_copy X c myCfg /\
    t = new_tunnel Dynamic name s /\
    s' = linked Dynamic name myCfg (set_draws d s) /\
    tunnelsByName (ctx s) !! name = None /\
    tunnelsByID (ctx s) !! TunnelID myCfg = None /\
    PeerTunnelID c = 0 /\ Peer c <> "" /\
    (draws (world s) <= d <= draws (world s) + 10)%nat /\
    (TunnelID c <> 0 -> d = draws (world s)).
Proof.
  intros Hl H. unfold NewDynamicTunnel in H.
  passed H Hnil.
  call H c0 s0 Hc. apply deref_Ret in Hc as [-> (l0 & Hl0 & Hc)].
  injection Hl0 as <-. rewrite Hl in Hc. injection Hc as <-.
  call H found s0 Hf. apply findTunnelByName_Ret in Hf as [-> ->].
  passed H Hname. apply isSome_false in Hname.
  call H c1 s1 Hhost.
  assert (s1 = s /\
          (if String.eqb (HostName c) "" then os_Hostname X = Ok (HostName c1)
           else HostName c1 = HostName c) /\
          c1 = set_HostName (HostName c1) c)
    as (-> & Hhn & Hc1).
  { destruct (String.eqb (HostName c) "").
    - call Hhost name' s2 Hh. apply wrapM_Ret, lift_Ret in Hh as [Hh ->].
      apply ret_Ret in Hhost as [-> ->]. repeat split. exact Hh.
    - apply ret_Ret in Hhost as [-> ->]. repeat split. destruct c; reflexivity. }
  call H c2 s1 Hdef. apply ret_Ret in Hdef as [-> ->].
  passed H Hencap. passed H Hrange. passed H Hpeer. passed H Hpaddr.
  apply negb_false_iff, Z.eqb_eq in Hpeer. apply String.eqb_neq in Hpaddr.
  call H c3 s2 Htid.
  set (c2 := if StopCCNTimeout c1 =? 0 then set_StopCCNTimeout (31 * Second) c1 else c1) in *.
  assert (Hfields : Local c2 = Local c /\ Peer c2 = Peer c /\ Encap c2 = Encap c /\
            Version c2 = Version c /\ PeerTunnelID c2 = PeerTunnelID c /\
            WindowSize c2 = WindowSize c /\ HelloTimeout c2 = HelloTimeout c /\
            RetryTimeout c2 = RetryTimeout c /\ MaxRetries c2 = MaxRetries c /\
            HostName c2 = HostName c1 /\ TunnelID c2 = TunnelID c /\
            (if StopCCNTimeout c =? 0 then StopCCNTimeout c2 = 31 * Second
             else StopCCNTimeout c2 = StopCCNTimeout c)).
  { assert (Hs : StopCCNTimeout c1 = StopCCNTimeout c) by (rewrite Hc1; reflexivity).
    unfold c2. rewrite Hs. rewrite Hc1.
    destruct (StopCCNTimeout c =? 0); simpl; repeat split; try reflexivity; exact Hs. }
  destruct Hfields as (F1 & F2 & F3 & F4 & F5 & F6 & F7 & F8 & F9 & F10 & F11 & F12).
  assert (tunnelsByID (ctx s) !! TunnelID c3 = None /\
          exists d, s2 = set_draws d s /\
            (draws (world s) <= d <= draws (world s) + 10)%nat /\
            (TunnelID c <> 0 -> d = draws (world s)) /\
            (TunnelID c <> 0 -> TunnelID c3 = TunnelID c) /\
            c3 = set_TunnelID (TunnelID c3) c2)
    as (Hfree & d & -> & Hb & Hd & Hsame & Hc3).
  { destruct (Z.eqb_spec (TunnelID c2) 0) as [Hz|Hnz]; simpl in Htid.
    - call Htid newid s3 Ha. apply wrapM_Ret in Ha.
      apply ret_Ret in Htid as [-> ->]. simpl.
      pose proof (allocTid_Ret X _ _ _ _ Ha) as [Hid _].
      split; [exact Hid|].
      destruct (allocTid_loop_draws 10 (Version c2) s) as (d & Hd & Hb).
      unfold allocTid in Ha. rewrite Ha in Hd. simpl in Hd. subst s3.
      exists d. split; [reflexivity|]. split; [exact Hb|].
      rewrite <- F11. repeat split; intros; try contradiction. 
    - call Htid found s3 Hf. apply findTunnelByID_Ret in Hf as [-> ->].
      passed Htid Hclash. apply isSome_false in Hclash.
      apply ret_Ret in Htid as [-> ->].
      split; [exact Hclash|]. exists (draws (world s)).
      split; [symmetry; apply set_draws_same|]. split; [lia|].
      repeat split; try (intros; assumption). destruct c2; reflexivity. }
  call H addrs s3 Haddr. apply lift_Ret in Haddr as [_ ->].
  call H t0 s3 Hnew. call H ul s4 Hlink. apply ret_Ret in H as [-> ->].
  destruct (build_and_link_eq _ _ _ _ _ _ _ _ _ _ Hnew Hlink) as (-> & -> & _).
  exists c3, d. split.
  { unfold dynamic_copy. rewrite Hc3. simpl.
    rewrite F1, F2, F3, F4, F5, F6, F7, F8, F9, F10.
    repeat (split; [reflexivity|]). split; [exact Hhn|]. split; [exact F12|].
    intros Hne. rewrite <- (Hsame Hne). rewrite Hc3. reflexivity. }
  repeat split; try assumption; try lia.
  rewrite <- F2. exact Hpaddr.
Qed.

(** X9.  A run of [NewDynamicTunnel] that returns a tunnel has found the name
    free, the peer tunnel ID unset and a peer address given.  The tunnel's
    config is a struct of its own, with the caller's fields but for a host
    name taken from the system, a StopCCN timeout of 31 s and a tunnel ID
    where the caller left them unset; the tunnel ID was free, and a tunnel ID
    that the caller gave costs no draw of the generator, one that is
    allocated at most ten.  The tunnel is linked under its name and its
    tunnel ID, and nothing else changes. *)
Theorem NewDynamicTunnel_success (name : string) (l : loc) (c : TunnelConfig)
  (s s' : State) (t : tunnel) :
  heap (world s) !! l = Some c ->
  NewDynamicTunnel K X name (Some l) s = (Ret t, s') ->
  exists myCfg d,
    dynamic_copy X c myCfg /\
    t = new_tunnel Dynamic name s /\
    s' = linked Dynamic name myCfg (set_draws d s) /\
    tunnelsByName (ctx s) !! name = None /\
    tunnelsByID (ctx s) !! TunnelID myCfg = None /\
    PeerTunnelID c = 0 /\ Peer c <> "" /\
    (draws (world s) <= d <= draws (world s) + 10)%nat /\
    (TunnelID c <> 0 -> d = draws (world s)).
Proof. exact (NewDynamicTunnel_Ret name l c s s' t). Qed.

(** Whichever factory it is, a tunnel that is returned was linked under a
    name and an ID that were free. *)
Lemma factory_Ret (F : string -> ptr -> M tunnel) (name : string) (cfg : ptr)
  (s s' : State) (t : tunnel) :
  In F [NewDynamicTunnel K X; NewQuiescentTunnel K X; NewStaticTunnel K X] ->
  F name cfg s = (Ret t, s') ->
  exists kind myCfg d,
    t = new_tunnel kind name s /\ s' = linked kind name myCfg (set_draws d s) /\
    tunnelsByName (ctx s) !! name = None /\
    tunnelsByID (ctx s) !! TunnelID myCfg = None.
Proof.
  intros [<-|[<-|[<-|[]]]] H.
  - assert (exists l c, cfg = Some l /\ heap (world s) !! l = Some c) as (l & c & -> & Hl).
    { unfold NewDynamicTunnel in H. passed H Hnil.
      call H c s0 Hc. apply deref_Ret in Hc as [_ (l & -> & Hl)]. eauto. }
    destruct (NewDynamicTunnel_Ret name l c s s' t Hl H)
      as (myCfg & d & _ & -> & -> & Hn & Hi & _).
    exists Dynamic, myCfg, d. repeat split; assumption.
  - destruct (NewQuiescentTunnel_Ret name cfg s s' t H)
      as (l & c & _ & _ & (Hn & _ & _ & _ & _ & _ & _ & Hi & _) & -> & ->).
    exists Quiescent, c, (draws (world s)). rewrite set_draws_same.
    repeat split; assumption.
  - destruct (NewStaticTunnel_Ret name cfg s s' t H)
      as (l & c & _ & _ & (Hn & _ & _ & _ & _ & _ & Hi & _) & -> & ->).
    exists Static, c, (draws (world s)). rewrite set_draws_same.
    repeat split; assumption.
Qed.

(** X10.  A tunnel that a factory returns is found under its name, and
    [unlinkTunnel] on it gives back the registry as it was before the
    factory was called, both the map by name and the map by ID; it touches
    nothing outside the context. *)
Theorem unlinking_a_new_tunnel_restores_the_registry (F : string -> ptr -> M tunnel)
  (name : string) (cfg : ptr) (s s1 : State) (t : tunnel) :
  In F [NewDynamicTunnel K X; NewQuiescentTunnel K X; NewStaticTunnel K X] ->
  F name cfg s = (Ret t, s1) ->
  fst (findTunnelByName name s1) = Ret (Some t) /\
  fst (unlinkTunnel t s1) = Ret tt /\
  tunnelsByName (ctx (after (unlinkTunnel t) s1)) = tunnelsByName (ctx s) /\
  tunnelsByID (ctx (after (unlinkTunnel t) s1)) = tunnelsByID (ctx s) /\
  world (after (unlinkTunnel t) s1) = world s1.
Proof.
  intros HF H.
  destruct (factory_Ret F name cfg s s1 t HF H) as (kind & myCfg & d & -> & -> & Hn & Hi).
  unfold after, unlinkTunnel, bind, getCtx, setCtx, deref, findTunnelByName. simpl.
  rewrite !lookup_insert_eq. simpl.
  rewrite (delete_insert_id _ _ _ Hn), (delete_insert_id _ _ _ Hi).
  repeat split.
Qed.

(** ** What a factory that fails leaves *)

Lemma build_and_link_unchanged (s0 : State) (kind : TunnelKind) (name : string)
  (sal sap : Sockaddr) (myCfg : TunnelConfig) :
  triple (eq s0)
    (do t <- newTunnel X kind name sal sap myCfg; do _ <- linkTunnel t; ret t)
    (fun _ _ => True) (eq s0).
Proof.
  intros s Hs. unfold newTunnel.
  destruct (newTunnel_err X kind name sal sap myCfg); [exact Hs|].
  unfold bind, addressOf, emit, linkTunnel, bind, getCtx, setCtx, deref, ret. simpl.
  rewrite lookup_insert_eq. exact I.
Qed.

Ltac unchanged_tac s0 :=
  repeat (intros;
          match goal with
          | |- triple _ (bind (newTunnel _ _ _ _ _ _) _) _ _ => apply build_and_link_unchanged
          | |- triple (eq s0) (bind ?m _) _ (eq s0) =>
              apply (triple_bind _ m (fun _ => eq s0))
          | |- triple (eq s0) ?m (fun _ => eq s0) (eq s0) =>
              change (keeps (eq s0) m); keeps_tac
          end).

Lemma NewQuiescentTunnel_unchanged (s0 : State) (name : string) (cfg : ptr) :
  triple (eq s0) (NewQuiescentTunnel K X name cfg) (fun _ _ => True) (eq s0).
Proof. unfold NewQuiescentTunnel. unchanged_tac s0. Qed.

Lemma NewStaticTunnel_unchanged (s0 : State) (name : string) (cfg : ptr) :
  triple (eq s0) (NewStaticTunnel K X name cfg) (fun _ _ => True) (eq s0).
Proof. unfold NewStaticTunnel. unchanged_tac s0. Qed.

(** X11.  A factory that returns no tunnel, because it returns an error or
    panics, leaves the state as it was: exactly so for [NewQuiescentTunnel]
    and [NewStaticTunnel]; for [NewDynamicTunnel] but for the draws of the
    random generator that an allocation of a tunnel ID has made. *)
Theorem failed_factory_changes_nothing (name : string) (cfg : ptr) (s : State) :
  ((forall t, fst (NewQuiescentTunnel K X name cfg s) <> Ret t) ->
   after (NewQuiescentTunnel K X name cfg) s = s) /\
  ((forall t, fst (NewStaticTunnel K X name cfg s) <> Ret t) ->
   after (NewStaticTunnel K X name cfg) s = s) /\
  ((forall t, fst (NewDynamicTunnel K X name cfg s) <> Ret t) ->
   exists d, after (NewDynamicTunnel K X name cfg) s = set_draws d s).
Proof.
  split; [|split]; intros Hfail; unfold after.
  - pose proof (NewQuiescentTunnel_unchanged s name cfg s eq_refl) as H.
    destruct (NewQuiescentTunnel K X name cfg s) as [[t|e|msg] s']; simpl in *;
      [destruct (Hfail t eq_refl) | symmetry; exact H | symmetry; exact H].
  - pose proof (NewStaticTunnel_unchanged s name cfg s eq_refl) as H.
    destruct (NewStaticTunnel K X name cfg s) as [[t|e|msg] s']; simpl in *;
      [destruct (Hfail t eq_refl) | symmetry; exact H | symmetry; exact H].
  - pose proof (NewDynamicTunnel_frame K X s name cfg s
                  (ex_intro _ (draws (world s)) (eq_sym (set_draws_same s)))) as H.
    destruct (NewDynamicTunnel K X name cfg s) as [[t|e|msg] s']; simpl in *;
      [destruct (Hfail t eq_refl) | exact H | exact H].
Qed.

(** ** Names that are taken, versions that are not handled *)

(** X12.  Each factory refuses a name under which a tunnel is linked, with
    the error "already have tunnel", before it looks at anything else of the
    config, and leaves the state as it was. *)
Theorem factories_reject_a_name_in_use (name : string) (l : loc) (c : TunnelConfig)
  (t0 : tunnel) (s : State) (F : string -> ptr -> M tunnel) :
  In F [NewDynamicTunnel K X; NewQuiescentTunnel K X; NewStaticTunnel K X] ->
  heap (world s) !! l = Some c ->
  tunnelsByName (ctx s) !! name = Some t0 ->
  F name (Some l) s = (Fail (Errorf "already have tunnel %q" [ArgString name]), s).
Proof.
  intros [<-|[<-|[<-|[]]]] Hl Hn;
    unfold NewDynamicTunnel, NewQuiescentTunnel, NewStaticTunnel,
      bind, failIf, deref, findTunnelByName; simpl; rewrite Hl, Hn; reflexivity.
Qed.

(** X13.  A config that leaves the tunnel ID unset and whose version is
    neither L2TPv2 nor L2TPv3 (the zero value, for one) cannot get a dynamic
    tunnel: [NewDynamicTunnel] returns an error and leaves the state as it
    was, no draw of the generator made. *)
Theorem NewDynamicTunnel_needs_a_version_to_allocate (name : string) (l : loc)
  (c : TunnelConfig) (s : State) :
  heap (world s) !! l = Some c ->
  TunnelID c = 0 ->
  Version c <> ProtocolVersion2 -> Version c <> ProtocolVersion3 ->
  exists e, NewDynamicTunnel K X name (Some l) s = (Fail e, s).
Proof.
  intros Hl Hz H2 H3.
  unfold NewDynamicTunnel, bind, failIf, deref, findTunnelByName, ret, fail, wrapM, lift.
  simpl. rewrite Hl.
  destruct (tunnelsByName (ctx s) !! name); simpl; [eauto|].
  assert (E2 : (Version c =? ProtocolVersion2) = false) by (apply Z.eqb_neq; exact H2).
  assert (E3 : (Version c =? ProtocolVersion3) = false) by (apply Z.eqb_neq; exact H3).
  assert (Hrun : forall c', Version c' = Version c ->
            allocTid X (Version c') s =
              (Fail (Errorf "failed to generate tunnel ID: %v"
                 [ArgError (Errorf "unhandled version %v" [ArgInt (Version c')])]), s)).
  { intros c' ->. apply allocTid_loop_unhandled; assumption. }
  destruct (String.eqb (HostName c) ""); [destruct (os_Hostname X); [|eauto]|];
    destruct (StopCCNTimeout _ =? 0); simpl; rewrite ?E2, ?E3; simpl;
    (destruct (Encap c =? EncapTypeIP K); simpl; [eauto|]);
    (destruct (PeerTunnelID c =? 0); simpl; [|eauto]);
    (destruct (String.eqb (Peer c) ""); simpl; [eauto|]);
    rewrite Hz; simpl; rewrite Hrun by reflexivity; eauto.
Qed.

(** ** Event handlers *)

Lemma registerAll_eq (hs : list EventHandler) (s : State) :
  registerAll hs s =
    {| ctx := with_eventHandlers (eventHandlers (ctx s) ++ hs) (ctx s); world := world s |}.
Proof.
  revert s. induction hs as [|h hs IH]; intros s; simpl.
  - rewrite app_nil_r. destruct s as [[] ?]. reflexivity.
  - rewrite IH. unfold after, RegisterEventHandler, bind, getCtx, setCtx. simpl.
    unfold with_eventHandlers. simpl. rewrite <- app_assoc. reflexivity.
Qed.

(** X15.  Handlers are kept in the order they are registered, after those
    that were there, and [handleUserEvent] calls each of them once, in that
    order, with the event; it changes nothing of the context. *)
Theorem handlers_are_called_in_registration_order (hs : list EventHandler)
  (ev : UserEvent) (s : State) :
  let s1 := registerAll hs s in
  let s2 := after (handleUserEvent ev) s1 in
  eventHandlers (ctx s1) = eventHandlers (ctx s) ++ hs /\
  fst (handleUserEvent ev s1) = Ret tt /\
  trace (world s2) =
    trace (world s) ++ map (fun h => EvHandleEvent h ev) (eventHandlers (ctx s) ++ hs) /\
  ctx s2 = ctx s1 /\ heap (world s2) = heap (world s).
Proof.
  simpl. rewrite registerAll_eq.
  unfold after, handleUserEvent, bind, getCtx. simpl.
  rewrite handleUserEvent_loop_eq. simpl. repeat split.
Qed.

Lemma Unregister_loop_no_match (all rest : list EventHandler) (i : nat)
  (handler : EventHandler) :
  ~ In handler rest -> Unregister_loop all i rest handler = all.
Proof.
  revert i. induction rest as [|h rest IH]; intros i Hn; simpl; [reflexivity|].
  destruct (Nat.eqb_spec h handler) as [->|Hne].
  - exfalso. apply Hn. left. reflexivity.
  - apply IH. intros Hin. apply Hn. right. exact Hin.
Qed.

(** X16.  [UnregisterEventHandler] leaves everything but the list of
    handlers as it is.  A handler that is not in the list leaves the list as
    it is too; for one that is, the list afterwards is the whole list
    followed by the part that came after the first occurrence of the
    handler: nothing is taken out. *)
Theorem UnregisterEventHandler_never_shortens (h : EventHandler) (s : State) :
  let s' := after (UnregisterEventHandler h) s in
  (~ In h (eventHandlers (ctx s)) -> s' = s) /\
  (forall pre post,
     eventHandlers (ctx s) = pre ++ h :: post -> ~ In h pre ->
     eventHandlers (ctx s') = pre ++ h :: post ++ post) /\
  world s' = world s /\
  tunnelsByName (ctx s') = tunnelsByName (ctx s) /\
  tunnelsByID (ctx s') = tunnelsByID (ctx s) /\
  callSerial (ctx s') = callSerial (ctx s).
Proof.
  simpl. unfold after, UnregisterEventHandler, bind, getCtx, setCtx. simpl.
  split; [|split; [|repeat split]].
  - intros Hn. rewrite Unregister_loop_no_match by exact Hn.
    destruct s as [[] ?]. reflexivity.
  - intros pre post Heq Hn. rewrite Heq.
    rewrite Unregister_loop_first_match by exact Hn.
    rewrite <- app_assoc. reflexivity.
Qed.

(** ** A new context *)

(** X17.  [NewContext] seeds the random generator with the time, whether it
    succeeds or not.  It fails exactly when the Linux netlink data plane is
    asked for and cannot be set up, with that error wrapped.  Otherwise the
    context has no tunnels and no handlers, the null data plane for a nil
    one, and the first draw of the generator as its call serial. *)
Theorem NewContext_result (dataPlane : DataPlane) (now : Z) (w : World) :
  let r := NewContext X dataPlane now w in
  seed (snd r) = now /\ heap (snd r) = heap w /\ trace (snd r) = trace w /\
  (forall e, fst r = Err e <->
     exists e', dataPlane = LinuxNetlinkDataPlane /\
                newNetlinkDataPlane_err X = Some e' /\
                e = Errorf "failed to initialise data plane: %v" [ArgError e']) /\
  (forall c, fst r = Ok c ->
     tunnelsByName c = ∅ /\ tunnelsByID c = ∅ /\ eventHandlers c = [] /\
     dp c = data_plane_for dataPlane /\
     callSerial c = prng X now 0 mod 2 ^ 32 /\ draws (snd r) = 1%nat).
Proof.
  simpl. unfold NewContext, initDataPlane.
  destruct dataPlane; try destruct (newNetlinkDataPlane_err X) as [e'|]; simpl;
    (split; [reflexivity|]); (split; [reflexivity|]); (split; [reflexivity|]);
    (split; [intros e; split;
       [intros He; try discriminate; injection He as <-; eauto
       |intros (e0 & Hd & He & ->); try discriminate; congruence]
     |intros c Hc; try discriminate; injection Hc as <-; repeat split]).
Qed.

(** ** Address pairs *)

Lemma newUDPTunnelAddress_Ok (address : string) (sa : Sockaddr) :
  newUDPTunnelAddress X address = Ok sa -> udp_sockaddr sa.
Proof.
  unfold newUDPTunnelAddress. intros H.
  apply andThen_Ok in H as (u & _ & H).
  destruct (To4 (IP u)); [injection H as <-; reflexivity|].
  destruct (To16 (IP u)); [injection H as <-; reflexivity|discriminate].
Qed.

Lemma newIPTunnelAddress_Ok (address : string) (ccid : Z) (sa : Sockaddr) :
  newIPTunnelAddress X address ccid = Ok sa -> ip_sockaddr ccid sa.
Proof.
  unfold newIPTunnelAddress. intros H.
  apply andThen_Ok in H as (u & _ & H).
  destruct (To4 (IP u)); [injection H as <-; split; reflexivity|].
  destruct (To16 (IP u)); [injection H as <-; split; reflexivity|discriminate].
Qed.

(** X18.  [newUDPTunnelAddress] keeps the port and the bytes of the address
    that was resolved: a 4-byte address and a 16-byte address with the
    IPv4-in-IPv6 prefix give an IPv4 socket address, any other 16-byte
    address an IPv6 one, and an address of any other length (an empty one,
    say) the error "unhandled address family". *)
Theorem newUDPTunnelAddress_keeps_the_resolved_address (address : string) (u : UDPAddr) :
  net_ResolveUDPAddr X address = Ok u ->
  (length (IP u) = 4%nat ->
   newUDPTunnelAddress X address = Ok (SockaddrInet4 (Port u) (IP u))) /\
  (length (IP u) = 16%nat -> take 12 (IP u) = v4InV6Prefix ->
   newUDPTunnelAddress X address = Ok (SockaddrInet4 (Port u) (drop 12 (IP u)))) /\
  (length (IP u) = 16%nat -> take 12 (IP u) <> v4InV6Prefix ->
   newUDPTunnelAddress X address = Ok (SockaddrInet6 (Port u) (IP u))) /\
  (length (IP u) <> 4%nat -> length (IP u) <> 16%nat ->
   newUDPTunnelAddress X address = Err (Errorf "unhandled address family" [])).
Proof.
  intros Hres. unfold newUDPTunnelAddress. rewrite Hres. cbn [wrapErr andThen].
  destruct u as [ip port]. cbn [IP Port].
  split; [|split; [|split]].
  - intros Hlen. do 4 (destruct ip as [|? ip]; [discriminate|]).
    destruct ip; [|discriminate]. reflexivity.
  - intros Hlen Hpre. do 16 (destruct ip as [|? ip]; [discriminate|]).
    destruct ip; [|discriminate]. injection Hpre as -> -> -> -> -> -> -> -> -> -> -> ->.
    reflexivity.
  - intros Hlen Hpre. do 16 (destruct ip as [|? ip]; [discriminate|]).
    destruct ip; [|discriminate].
    unfold To4, To16. cbn [length Nat.eqb andb take isZeros forallb ix nth].
    match goal with |- context [if ?b then _ else _] => destruct b eqn:E end;
      [|reflexivity].
    exfalso. apply Hpre.
    repeat match goal with
           | H : _ && _ = true |- _ => apply andb_true_iff in H as [? ?]
           end.
    repeat match goal with H : (_ =? _) = true |- _ => apply Z.eqb_eq in H end.
    subst. reflexivity.
  - intros H4 H16. unfold To4, To16.
    apply Nat.eqb_neq in H4, H16. rewrite H4, H16. reflexivity.
Qed.

(** X19.  [newUDPAddressPair] returns the peer address as
    [newUDPTunnelAddress] gives it.  With no local address the local side is
    the zero address of the peer's family, port 0; with one, what
    [newUDPTunnelAddress] gives for it, whatever the peer's family.  The
    only errors are those of the two addresses, wrapped with the address:
    the branch for an unknown family is never taken. *)
Theorem newUDPAddressPair_shape (local remote : string) :
  (forall sal sap,
     newUDPAddressPair X local remote = Ok (sal, sap) ->
     newUDPTunnelAddress X remote = Ok sap /\ udp_sockaddr sap /\ udp_sockaddr sal /\
     (local = "" -> sal = zero_sockaddr sap) /\
     (local <> "" -> newUDPTunnelAddress X local = Ok sal)) /\
  (forall e,
     newUDPAddressPair X local remote = Err e ->
     (exists e', newUDPTunnelAddress X remote = Err e' /\
                 e = Errorf "remote address %q: %v" [ArgString remote; ArgError e']) \/
     (exists e', local <> "" /\ newUDPTunnelAddress X local = Err e' /\
                 e = Errorf "local address %q: %v" [ArgString local; ArgError e'])).
Proof.
  unfold newUDPAddressPair. split.
  - intros sal sap H. apply andThen_Ok in H as (sap0 & Hr & H).
    apply wrapErr_Ok in Hr. pose proof (newUDPTunnelAddress_Ok _ _ Hr) as Hsap.
    destruct (String.eqb_spec local "") as [->|Hne]; simpl in H.
    + destruct sap0; simpl in Hsap; try contradiction; injection H as <- <-;
        repeat split; try assumption; try reflexivity; intros; congruence.
    + apply andThen_Ok in H as (sal0 & Hlo & H). apply wrapErr_Ok in Hlo.
      injection H as <- <-. repeat split; try assumption; try (intros; assumption).
      * exact (newUDPTunnelAddress_Ok _ _ Hlo).
      * intros. contradiction.
  - intros e H.
    destruct (newUDPTunnelAddress X remote) as [sap|e'] eqn:Hr; simpl in H.
    + right. pose proof (newUDPTunnelAddress_Ok _ _ Hr) as Hsap.
      destruct (String.eqb_spec local "") as [->|Hne]; simpl in H.
      * destruct sap; simpl in Hsap; try contradiction; discriminate.
      * destruct (newUDPTunnelAddress X local) as [sal|e'] eqn:Hlo; simpl in H;
          [discriminate|]. injection H as <-. exists e'. repeat split. exact Hne.
    + left. injection H as <-. exists e'. split; reflexivity.
Qed.

(** X20.  The same for [newIPAddressPair]: the peer address carries the peer
    connection ID, a local address that is given the local connection ID,
    and with no local address the local side is the zero address of the
    peer's family with connection ID 0. *)
Theorem newIPAddressPair_shape (local remote : string) (ccid pccid : Z) :
  (forall sal sap,
     newIPAddressPair X local ccid remote pccid = Ok (sal, sap) ->
     newIPTunnelAddress X remote pccid = Ok sap /\ ip_sockaddr pccid sap /\
     (local = "" -> sal = zero_sockaddr sap) /\
     (local <> "" -> newIPTunnelAddress X local ccid = Ok sal /\ ip_sockaddr ccid sal)) /\
  (forall e,
     newIPAddressPair X local ccid remote pccid = Err e ->
     (exists e', newIPTunnelAddress X remote pccid = Err e' /\
                 e = Errorf "remote address %q: %v" [ArgString remote; ArgError e']) \/
     (exists e', local <> "" /\ newIPTunnelAddress X local ccid = Err e' /\
                 e = Errorf "local address %q: %v" [ArgString local; ArgError e'])).
Proof.
  unfold newIPAddressPair. split.
  - intros sal sap H. apply andThen_Ok in H as (sap0 & Hr & H).
    apply wrapErr_Ok in Hr. pose proof (newIPTunnelAddress_Ok _ _ _ Hr) as Hsap.
    destruct (String.eqb_spec local "") as [->|Hne]; simpl in H.
    + destruct sap0; simpl in Hsap; try contradiction; injection H as <- <-;
        repeat split; try tauto; try reflexivity; intros; congruence.
    + apply andThen_Ok in H as (sal0 & Hlo & H). apply wrapErr_Ok in Hlo.
      injection H as <- <-. split; [assumption|]. split; [assumption|].
      split; [intros; contradiction|]. intros _. split; [assumption|].
      exact (newIPTunnelAddress_Ok _ _ _ Hlo).
  - intros e H.
    destruct (newIPTunnelAddress X remote pccid) as [sap|e'] eqn:Hr; simpl in H.
    + right. pose proof (newIPTunnelAddress_Ok _ _ _ Hr) as Hsap.
      destruct (String.eqb_spec local "") as [->|Hne]; simpl in H.
      * destruct sap; simpl in Hsap; try contradiction; discriminate.
      * destruct (newIPTunnelAddress X local ccid) as [sal|e'] eqn:Hlo; simpl in H;
          [discriminate|]. injection H as <-. exists e'. repeat split. exact Hne.
    + left. injection H as <-. exists e'. split; reflexivity.
Qed.

(** ** The registry of a reachable context *)


End MoreContextFacts.

(** X7, witness: an L2TPv3 config with the tunnel IDs 5 and 6, on an empty
    context. *)
Lemma NewStaticTunnel_succeeds_iff_witness :
  heap (world (state_with (cfg_v3 5 6))) !! 1%positive = Some (cfg_v3 5 6) /\
  NewStaticTunnel linux_consts example_externals "t1" (Some 1%positive)
    (state_with (cfg_v3 5 6)) =
    (Ret (new_tunnel Static "t1" (state_with (cfg_v3 5 6))),
     linked Static "t1" (cfg_v3 5 6) (state_with (cfg_v3 5 6))).
Proof.
  split; [reflexivity|].
  apply (proj2 (NewStaticTunnel_succeeds_iff linux_consts example_externals "t1" 1%positive
                  (cfg_v3 5 6) (state_with (cfg_v3 5 6)) _ _ eq_refl)).
  split; [|split; reflexivity].
  split; [reflexivity|]. split; [reflexivity|]. split; [discriminate|].
  split; [discriminate|]. split; [discriminate|]. split; [discriminate|].
  split; [reflexivity|]. eexists. split; vm_compute; reflexivity.
Defined.

(** X8, witness: an L2TPv2 config with the tunnel IDs 5 and 6. *)
Lemma NewQuiescentTunnel_succeeds_iff_witness :
  heap (world (state_with (cfg_v2 5 6))) !! 1%positive = Some (cfg_v2 5 6) /\
  NewQuiescentTunnel linux_consts example_externals "t1" (Some 1%positive)
    (state_with (cfg_v2 5 6)) =
    (Ret (new_tunnel Quiescent "t1" (state_with (cfg_v2 5 6))),
     linked Quiescent "t1" (cfg_v2 5 6) (state_with (cfg_v2 5 6))).
Proof.
  split; [reflexivity|].
  apply (proj2 (NewQuiescentTunnel_succeeds_iff linux_consts example_externals "t1" 1%positive
                  (cfg_v2 5 6) (state_with (cfg_v2 5 6)) _ _ eq_refl)).
  split; [|split; reflexivity].
  split; [reflexivity|]. split; [discriminate|]. split; [discriminate|].
  split; [discriminate|]. split; [intros _; simpl; lia|].
  split; [discriminate|]. split; [discriminate|].
  split; [reflexivity|]. eexists. split; vm_compute; reflexivity.
Defined.

(** X9, witness: a config without host name, timeout and tunnel ID. *)
Lemma NewDynamicTunnel_success_witness :
  exists t s',
    NewDynamicTunnel linux_consts example_externals "t1" (Some 1%positive)
      (state_with (cfg_v2 0 0)) = (Ret t, s') /\
    exists myCfg d,
      dynamic_copy example_externals (cfg_v2 0 0) myCfg /\
      t = new_tunnel Dynamic "t1" (state_with (cfg_v2 0 0)) /\
      s' = linked Dynamic "t1" myCfg (set_draws d (state_with (cfg_v2 0 0))).
Proof.
  do 2 eexists. split; [vm_compute; reflexivity|].
  destruct (NewDynamicTunnel_success linux_consts example_externals "t1" 1%positive
              (cfg_v2 0 0) (state_with (cfg_v2 0 0)) _ _ eq_refl
              ltac:(vm_compute; reflexivity))
    as (myCfg & d & Hcopy & Ht & Hs & _).
  exists myCfg, d. split; [exact Hcopy|]. split; [exact Ht | exact Hs].
Defined.

(** X10, witness: the static tunnel of the witness of X7, unlinked
    again. *)
Lemma unlinking_a_new_tunnel_restores_the_registry_witness :
  tunnelsByName (ctx (after (unlinkTunnel (new_tunnel Static "t1" (state_with (cfg_v3 5 6))))
                        (linked Static "t1" (cfg_v3 5 6) (state_with (cfg_v3 5 6))))) = ∅ /\
  tunnelsByID (ctx (after (unlinkTunnel (new_tunnel Static "t1" (state_with (cfg_v3 5 6))))
                      (linked Static "t1" (cfg_v3 5 6) (state_with (cfg_v3 5 6))))) = ∅.
Proof.
  destruct (unlinking_a_new_tunnel_restores_the_registry linux_consts example_externals
              (NewStaticTunnel linux_consts example_externals) "t1" (Some 1%positive)
              (state_with (cfg_v3 5 6))
              (linked Static "t1" (cfg_v3 5 6) (state_with (cfg_v3 5 6)))
              (new_tunnel Static "t1" (state_with (cfg_v3 5 6)))
              ltac:(right; right; left; reflexivity)
              ltac:(vm_compute; reflexivity))
    as (_ & _ & Hn & Hi & _).
  split; [exact Hn | exact Hi].
Defined.

(** X12, witness: the name "t0" in the context that has a tunnel "t0". *)
Lemma factories_reject_a_name_in_use_witness :
  tunnelsByName (ctx state_one_tunnel) !! "t0" = Some example_tunnel /\
  NewStaticTunnel linux_consts example_externals "t0" (Some 1%positive) state_one_tunnel =
    (Fail (Errorf "already have tunnel %q" [ArgString "t0"]), state_one_tunnel).
Proof.
  split; [reflexivity|].
  exact (factories_reject_a_name_in_use linux_consts example_externals "t0" 1%positive
           (cfg_v2 7 0) example_tunnel state_one_tunnel
           (NewStaticTunnel linux_consts example_externals)
           ltac:(right; right; left; reflexivity) eq_refl eq_refl).
Defined.

(** X13, witness: a config that names no version and no tunnel ID. *)
Lemma NewDynamicTunnel_needs_a_version_to_allocate_witness :
  TunnelID cfg_no_version = 0 /\
  Version cfg_no_version <> ProtocolVersion2 /\
  Version cfg_no_version <> ProtocolVersion3 /\
  exists e, NewDynamicTunnel linux_consts example_externals "t1" (Some 1%positive)
              (state_with cfg_no_version) = (Fail e, state_with cfg_no_version).
Proof.
  assert (H2 : Version cfg_no_version <> ProtocolVersion2) by discriminate.
  assert (H3 : Version cfg_no_version <> ProtocolVersion3) by discriminate.
  split; [reflexivity|]. split; [exact H2|]. split; [exact H3|].
  exact (NewDynamicTunnel_needs_a_version_to_allocate linux_consts example_externals "t1"
           1%positive cfg_no_version (state_with cfg_no_version) eq_refl eq_refl H2 H3).
Defined.

(** X18, witness: the address 127.0.0.1:1701, resolved to four bytes. *)
Lemma newUDPTunnelAddress_keeps_the_resolved_address_witness :
  net_ResolveUDPAddr example_externals "127.0.0.1:1701" =
    Ok {| IP := [127; 0; 0; 1]; Port := 1701 |} /\
  newUDPTunnelAddress example_externals "127.0.0.1:1701" =
    Ok (SockaddrInet4 1701 [127; 0; 0; 1]).
Proof.
  split; [reflexivity|].
  exact (proj1 (newUDPTunnelAddress_keeps_the_resolved_address example_externals
                  "127.0.0.1:1701" {| IP := [127; 0; 0; 1]; Port := 1701 |} eq_refl)
               eq_refl).
Defined.



(** * Properties of the sessions of a tunnel *)

Lemma allSessions_omap (order : list string) (bt : baseTunnel) :
  allSessions order bt = omap (fun name => sessionsByName bt !! name) order.
Proof.
  induction order as [|name rest IH]; simpl; [reflexivity|].
  destruct (sessionsByName bt !! name); rewrite IH; reflexivity.
Qed.

Lemma omap_lookup_map_to_list {V} (m : gmap string V) :
  omap (fun name => m !! name) (map_to_list m).*1 = (map_to_list m).*2.
Proof.
  assert (H : Forall (fun kv => m !! kv.1 = Some kv.2) (map_to_list m)).
  { apply Forall_forall. intros [k v] Hin. apply elem_of_map_to_list in Hin. exact Hin. }
  induction H as [|[k v] l Hkv _ IH]; simpl; [reflexivity|].
  simpl in Hkv. rewrite Hkv. f_equal. exact IH.
Qed.

Lemma omap_lookup_delete {V} (m : gmap string V) (name : string) (rest : list string) :
  name ∉ rest ->
  omap (fun n => delete name m !! n) rest = omap (fun n => m !! n) rest.
Proof.
  induction rest as [|n rest IH]; intros Hnotin; [reflexivity|].
  apply not_elem_of_cons in Hnotin as [Hne Hrest].
  cbn [omap list_omap]. rewrite lookup_delete_ne by congruence.
  rewrite (IH Hrest). reflexivity.
Qed.

Lemma closeAllSessions_range_spec (order : list string) (bt : baseTunnel)
  (acc : list session) :
  NoDup order ->
  exists bt',
    closeAllSessions_range order bt acc =
      (bt', acc ++ omap (fun name => sessionsByName bt !! name) order) /\
    bt_name bt' = bt_name bt /\ bt_cfg bt' = bt_cfg bt /\
    (forall k, sessionsByName bt' !! k =
               if decide (k ∈ order) then None else sessionsByName bt !! k) /\
    (forall id, sessionsByID bt' !! id = None \/
                (sessionsByID bt' !! id = sessionsByID bt !! id /\
                 forall s, s ∈ omap (fun name => sessionsByName bt !! name) order ->
                           Config.SessionID (s_getCfg s) <> id)).
Proof.
  revert bt acc. induction order as [|name rest IH]; intros bt acc Hnd.
  - exists bt. cbn [closeAllSessions_range omap list_omap]. rewrite app_nil_r.
    split; [reflexivity|]. split; [reflexivity|]. split; [reflexivity|]. split.
    + intros k. destruct (decide (k ∈ [])) as [Hin|_]; [|reflexivity].
      apply elem_of_nil in Hin as [].
    + intros id. right. split; [reflexivity|]. intros s Hs. apply elem_of_nil in Hs as [].
  - apply NoDup_cons in Hnd as [Hnotin Hnd]. cbn [closeAllSessions_range omap list_omap].
    destruct (sessionsByName bt !! name) as [s|] eqn:Hs.
    + set (bt1 := {| bt_name := bt_name bt; bt_cfg := bt_cfg bt;
                     sessionsByName := delete name (sessionsByName bt);
                     sessionsByID := delete (Config.SessionID (s_getCfg s)) (sessionsByID bt) |}).
      destruct (IH bt1 (acc ++ [s]) Hnd) as (bt' & Hrun & Hn & Hc & Hby & Hid).
      assert (Hsame : omap (fun n => sessionsByName bt1 !! n) rest =
                      omap (fun n => sessionsByName bt !! n) rest).
      { exact (omap_lookup_delete (sessionsByName bt) name rest Hnotin). }
      exists bt'. rewrite Hrun, Hsame, <- app_assoc. simpl.
      split; [reflexivity|]. split; [exact Hn|]. split; [exact Hc|]. split.
      * intros k. rewrite Hby. simpl.
        destruct (decide (k = name)) as [->|Hne].
        -- rewrite decide_False by exact Hnotin. rewrite lookup_delete_eq.
           rewrite decide_True by apply list_elem_of_here. reflexivity.
        -- rewrite lookup_delete_ne by congruence.
           destruct (decide (k ∈ rest)) as [Hin|Hnin].
           ++ rewrite decide_True by (apply list_elem_of_further; exact Hin). reflexivity.
           ++ rewrite decide_False; [reflexivity|].
              intros Hin. apply elem_of_cons in Hin as [?|?]; contradiction.
      * intros id. destruct (Hid id) as [Hnone|[Heq Hne]]; [left; exact Hnone|].
        simpl in Heq. destruct (decide (Config.SessionID (s_getCfg s) = id)) as [He|Hd].
        -- left. rewrite Heq, <- He. apply lookup_delete_eq.
        -- right. rewrite lookup_delete_ne in Heq by exact Hd. split; [exact Heq|].
           intros s0 Hin. apply elem_of_cons in Hin as [->|Hin]; [exact Hd|].
           apply Hne. rewrite Hsame. exact Hin.
    + destruct (IH bt acc Hnd) as (bt' & Hrun & Hn & Hc & Hby & Hid).
      exists bt'. split; [exact Hrun|]. split; [exact Hn|]. split; [exact Hc|]. split.
      * intros k. rewrite Hby.
        destruct (decide (k = name)) as [->|Hne].
        -- rewrite decide_False by exact Hnotin.
           rewrite decide_True by apply list_elem_of_here. exact Hs.
        -- destruct (decide (k ∈ rest)) as [Hin|Hnin].
           ++ rewrite decide_True by (apply list_elem_of_further; exact Hin). reflexivity.
           ++ rewrite decide_False; [reflexivity|].
              intros Hin. apply elem_of_cons in Hin as [?|?]; contradiction.
      * exact Hid.
Qed.

Lemma order_covers_sessions (m : gmap string session) (order : list string) :
  order ≡ₚ (map_to_list m).*1 ->
  NoDup order /\ forall k, k ∈ order <-> is_Some (m !! k).
Proof.
  intros Hp. split.
  - rewrite Hp. apply NoDup_fst_map_to_list.
  - intros k. rewrite Hp. rewrite list_elem_of_fmap. split.
    + intros ([k' v] & -> & Hin). apply elem_of_map_to_list in Hin. eauto.
    + intros [v Hv]. exists (k, v). split; [reflexivity|]. apply elem_of_map_to_list. exact Hv.
Qed.

(** X23.  [allSessions] returns every session of the tunnel once, whatever
    the order of the [range]: as many sessions as the map by name has
    entries, and a session is in the list exactly when it is found under
    some name. *)
Theorem allSessions_lists_every_session_once (order : list string) (bt : baseTunnel) :
  order ≡ₚ (map_to_list (sessionsByName bt)).*1 ->
  allSessions order bt ≡ₚ (map_to_list (sessionsByName bt)).*2 /\
  length (allSessions order bt) = size (sessionsByName bt) /\
  (forall s, s ∈ allSessions order bt <-> exists name, findSessionByName bt name = Some s).
Proof.
  intros Hp.
  assert (Hperm : allSessions order bt ≡ₚ (map_to_list (sessionsByName bt)).*2).
  { rewrite allSessions_omap, Hp. rewrite omap_lookup_map_to_list. reflexivity. }
  split; [exact Hperm|]. split.
  - rewrite Hperm. rewrite length_fmap. apply length_map_to_list.
  - intros s. rewrite Hperm. rewrite list_elem_of_fmap. unfold findSessionByName. split.
    + intros ([k v] & -> & Hin). apply elem_of_map_to_list in Hin. eauto.
    + intros [name Hn]. exists (name, s). split; [reflexivity|].
      apply elem_of_map_to_list. exact Hn.
Qed.

(** X24.  [closeAllSessions] leaves no session in the map by name, and kills
    each session that was there once, in the order the [range] met them (the
    list [allSessions] would have given); the name and the config of the
    tunnel stay.  The map by ID is empty afterwards too when the two maps
    indexed the same sessions. *)
Theorem closeAllSessions_empties_the_tunnel (order : list string) (bt : baseTunnel) :
  order ≡ₚ (map_to_list (sessionsByName bt)).*1 ->
  let bt' := fst (closeAllSessions order bt) in
  let killed := snd (closeAllSessions order bt) in
  sessionsByName bt' = ∅ /\
  killed = allSessions order bt /\
  killed ≡ₚ (map_to_list (sessionsByName bt)).*2 /\
  bt_name bt' = bt_name bt /\ bt_cfg bt' = bt_cfg bt /\
  (sessions_consistent bt -> sessionsByID bt' = ∅).
Proof.
  intros Hp. destruct (order_covers_sessions _ _ Hp) as [Hnd Hcover].
  destruct (closeAllSessions_range_spec order bt [] Hnd) as (bt' & Hrun & Hn & Hc & Hby & Hid).
  unfold closeAllSessions. rewrite Hrun. simpl.
  split; [|split; [|split; [|split; [|split]]]].
  - apply map_eq. intros k. rewrite Hby, lookup_empty.
    destruct (decide (k ∈ order)) as [Hin|Hnin]; [reflexivity|].
    destruct (sessionsByName bt !! k) eqn:Hk; [|reflexivity].
    exfalso. apply Hnin, Hcover. eauto.
  - symmetry. apply allSessions_omap.
  - rewrite Hp. rewrite omap_lookup_map_to_list. reflexivity.
  - exact Hn.
  - exact Hc.
  - intros [_ Hids]. apply map_eq. intros id. rewrite lookup_empty.
    destruct (Hid id) as [Hnone|[Heq Hne]]; [exact Hnone|].
    rewrite Heq. destruct (sessionsByID bt !! id) as [s|] eqn:Hs; [|reflexivity].
    exfalso. destruct (Hids id s Hs) as [Hsid Hname].
    apply (Hne s); [|exact Hsid].
    apply list_elem_of_omap. exists (s_getName s). split; [|exact Hname].
    apply Hcover. eauto.
Qed.

(** X25.  The two maps of a new tunnel index the same sessions (none), and
    they still do after [linkSession] of a session whose name and ID are
    free, and after [unlinkSession] of a session that is linked.  A session
    that was linked is found by name and by ID, one that was unlinked by
    neither; and unlinking a session right after linking it gives the tunnel
    back as it was. *)
Theorem session_index_stays_consistent (s : session) (bt : baseTunnel) :
  (forall name config, sessions_consistent (newBaseTunnel name config)) /\
  (sessions_consistent bt ->
   findSessionByName bt (s_getName s) = None ->
   findSessionByID bt (Config.SessionID (s_getCfg s)) = None ->
   sessions_consistent (linkSession s bt) /\
   findSessionByName (linkSession s bt) (s_getName s) = Some s /\
   findSessionByID (linkSession s bt) (Config.SessionID (s_getCfg s)) = Some s /\
   unlinkSession s (linkSession s bt) = bt) /\
  (sessions_consistent bt ->
   findSessionByName bt (s_getName s) = Some s ->
   sessions_consistent (unlinkSession s bt) /\
   findSessionByName (unlinkSession s bt) (s_getName s) = None /\
   findSessionByID (unlinkSession s bt) (Config.SessionID (s_getCfg s)) = None).
Proof.
  unfold findSessionByName, findSessionByID. split; [|split].
  - intros name config. split; simpl; intros k s0 Hk; rewrite lookup_empty in Hk; discriminate.
  - intros [Hnames Hids] Hn Hi. split; [split|]; simpl.
    + intros name s0 Hk. apply lookup_insert_Some in Hk as [[<- <-]|[Hne Hk]].
      * split; [reflexivity|]. apply lookup_insert_eq.
      * destruct (Hnames name s0 Hk) as [Hgn Hi0]. split; [exact Hgn|].
        rewrite lookup_insert_ne; [exact Hi0|]. intros Heq. rewrite Heq in Hi. congruence.
    + intros id s0 Hk. apply lookup_insert_Some in Hk as [[<- <-]|[Hne Hk]].
      * split; [reflexivity|]. apply lookup_insert_eq.
      * destruct (Hids id s0 Hk) as [Hsid Hn0]. split; [exact Hsid|].
        rewrite lookup_insert_ne; [exact Hn0|]. intros Heq. rewrite Heq in Hn. congruence.
    + rewrite !lookup_insert_eq. split; [reflexivity|]. split; [reflexivity|].
      unfold unlinkSession, linkSession. simpl.
      rewrite (delete_insert_id _ _ _ Hn), (delete_insert_id _ _ _ Hi).
      destruct bt; reflexivity.
  - intros [Hnames Hids] Hn. split; [split|]; simpl.
    + intros name s0 Hk. apply lookup_delete_Some in Hk as [Hne Hk].
      destruct (Hnames name s0 Hk) as [Hgn Hi0]. split; [exact Hgn|].
      rewrite lookup_delete_ne; [exact Hi0|].
      intros Heq. rewrite <- Heq in Hi0.
      destruct (Hnames _ s Hn) as [_ Hi1]. rewrite Hi1 in Hi0. congruence.
    + intros id s0 Hk. apply lookup_delete_Some in Hk as [Hne Hk].
      destruct (Hids id s0 Hk) as [Hsid Hn0]. split; [exact Hsid|].
      rewrite lookup_delete_ne; [exact Hn0|].
      intros Heq. rewrite <- Heq in Hn0. rewrite Hn in Hn0. congruence.
    + rewrite !lookup_delete_eq. split; reflexivity.
Qed.

(** X23, witness: the tunnel with the one session "s1". *)
Lemma allSessions_lists_every_session_once_witness :
  ["s1"] ≡ₚ (map_to_list (sessionsByName tunnel_one_session)).*1 /\
  length (allSessions ["s1"] tunnel_one_session) = size (sessionsByName tunnel_one_session).
Proof.
  assert (Hp : ["s1"] ≡ₚ (map_to_list (sessionsByName tunnel_one_session)).*1).
  { simpl. rewrite insert_empty, map_to_list_singleton. reflexivity. }
  split; [exact Hp|].
  exact (proj1 (proj2 (allSessions_lists_every_session_once ["s1"] tunnel_one_session Hp))).
Defined.

(** X24, witness: the same tunnel, closed. *)
Lemma closeAllSessions_empties_the_tunnel_witness :
  ["s1"] ≡ₚ (map_to_list (sessionsByName tunnel_one_session)).*1 /\
  sessionsByName (fst (closeAllSessions ["s1"] tunnel_one_session)) = ∅ /\
  snd (closeAllSessions ["s1"] tunnel_one_session) = [example_session].
Proof.
  assert (Hp : ["s1"] ≡ₚ (map_to_list (sessionsByName tunnel_one_session)).*1).
  { simpl. rewrite insert_empty, map_to_list_singleton. reflexivity. }
  split; [exact Hp|].
  destruct (closeAllSessions_empties_the_tunnel ["s1"] tunnel_one_session Hp)
    as (Hn & Hk & _).
  split; [exact Hn|]. rewrite Hk. reflexivity.
Defined.

(** * Properties of the netlink interface *)

Section NetlinkFacts.
Variable N : Nll2tp.Externals.

Lemma tunnelCreateAttr_Ok_iff (cfg : Nll2tp.TunnelConfig) :
  is_Ok (Nll2tp.tunnelCreateAttr N (Some cfg)) <-> valid_tunnel N cfg.
Proof.
  unfold Nll2tp.tunnelCreateAttr, valid_tunnel, ProtocolVersion2, ProtocolVersion3.
  destruct (Z.eqb_spec (Nll2tp.Tid cfg) 0) as [Ht|Ht]; [simpl; tauto|].
  destruct (Z.eqb_spec (Nll2tp.Ptid cfg) 0) as [Hp|Hp]; [simpl; tauto|].
  destruct (Z.ltb_spec (Nll2tp.Version cfg) 2) as [Hlo|Hlo]; [simpl; split; [tauto|lia]|].
  destruct (Z.gtb_spec (Nll2tp.Version cfg) 3) as [Hhi|Hhi]; [simpl; split; [tauto|lia]|].
  simpl.
  destruct (Z.eqb_spec (Nll2tp.Encap cfg) (Nll2tp.EncaptypeUdp N)) as [Hu|Hu];
    destruct (Z.eqb_spec (Nll2tp.Encap cfg) (Nll2tp.EncaptypeIp N)) as [Hi|Hi];
    destruct (Z.eqb_spec (Nll2tp.Version cfg) 2) as [Hv|Hv];
    destruct (Z.gtb_spec (Nll2tp.Tid cfg) 65535) as [Hgt|Hgt];
    destruct (Z.gtb_spec (Nll2tp.Ptid cfg) 65535) as [Hgp|Hgp];
    simpl; split; try tauto; try (intros _; repeat split; try assumption; lia);
    try (intros (_ & _ & [(? & ? & ? & ?)|(? & [?|?])]); lia || congruence);
    try (intros _; split; [assumption|]; split; [assumption|]; lia).
Qed.

(** X26.  [tunnelCreateAttr] accepts exactly the configs that are not nil,
    have both tunnel IDs set and ask for L2TPv2 over UDP with IDs of at most
    16 bits, or for L2TPv3 over UDP or IP.  For those it gives five
    attributes: the connection ID, the peer connection ID, the protocol
    version, the encapsulation type and the debug flags, in this order. *)
Theorem tunnelCreateAttr_accepts_exactly (config : option Nll2tp.TunnelConfig) :
  (is_Ok (Nll2tp.tunnelCreateAttr N config) <->
   exists cfg, config = Some cfg /\ valid_tunnel N cfg) /\
  (forall attr, Nll2tp.tunnelCreateAttr N config = Ok attr ->
     map Nll2tp.Type_ attr =
       [Nll2tp.AttrConnId N; Nll2tp.AttrPeerConnId N; Nll2tp.AttrProtoVersion N;
        Nll2tp.AttrEncapType N; Nll2tp.AttrDebug N]).
Proof.
  split.
  - destruct config as [cfg|].
    + rewrite tunnelCreateAttr_Ok_iff. split; [eauto|].
      intros (cfg' & Heq & Hv). injection Heq as ->. exact Hv.
    + simpl. split; [tauto|]. intros (cfg & Heq & _). discriminate.
  - intros attr. destruct config as [cfg|]; [|discriminate].
    unfold Nll2tp.tunnelCreateAttr.
    repeat (match goal with |- context [if ?b then _ else _] => destruct b end;
            try discriminate).
    intros H. injection H as <-. reflexivity.
Qed.

Lemma createTunnel_cases (c : Nll2tp.Conn) (attr : list Nll2tp.Attribute) :
  (exists e, Nll2tp.MarshalAttributes N attr = Err e /\
             Nll2tp.createTunnel N c attr = (Some e, [])) \/
  (exists b, Nll2tp.MarshalAttributes N attr = Ok b /\
             Nll2tp.createTunnel N c attr =
               (Nll2tp.Execute N (create_request N c b), [create_request N c b])).
Proof.
  unfold Nll2tp.createTunnel, Nll2tp.execute.
  destruct (Nll2tp.MarshalAttributes N attr) as [b|e]; [right|left]; eauto.
Qed.

(** X27.  [CreateManagedTunnel] either returns an error of its own and sends
    nothing to the kernel, or sends one request, a tunnel-create command for
    the family of the connection, and returns what the kernel answers.  It
    sends only for a file descriptor that is not negative and a config that
    [tunnelCreateAttr] accepts, with the descriptor as the attribute after
    those of the config. *)
Theorem CreateManagedTunnel_sends_one_request_or_none (c : Nll2tp.Conn) (fd : Z)
  (config : option Nll2tp.TunnelConfig) :
  let r := Nll2tp.CreateManagedTunnel N c fd config in
  (is_Some (fst r) /\ snd r = []) \/
  (exists cfg attr b,
     0 <= fd /\ config = Some cfg /\ valid_tunnel N cfg /\
     Nll2tp.tunnelCreateAttr N config = Ok attr /\
     Nll2tp.MarshalAttributes N
       (attr ++ [ {| Nll2tp.Type_ := Nll2tp.AttrFd N;
                     Nll2tp.Data := Nll2tp.Uint32Bytes N (fd mod 2 ^ 32) |} ]) = Ok b /\
     snd r = [create_request N c b] /\
     fst r = Nll2tp.Execute N (create_request N c b)).
Proof.
  simpl. unfold Nll2tp.CreateManagedTunnel.
  destruct (Z.ltb_spec fd 0) as [Hfd|Hfd]; [left; simpl; eauto|].
  destruct (Nll2tp.tunnelCreateAttr N config) as [attr|e] eqn:Hattr; [|left; simpl; eauto].
  destruct config as [cfg|]; [|discriminate].
  assert (Hv : valid_tunnel N cfg).
  { apply tunnelCreateAttr_Ok_iff. rewrite Hattr. exact I. }
  destruct (createTunnel_cases c
    (attr ++ [ {| Nll2tp.Type_ := Nll2tp.AttrFd N;
                  Nll2tp.Data := Nll2tp.Uint32Bytes N (fd mod 2 ^ 32) |} ]))
    as [(e & Hm & ->)|(b & Hm & ->)]; [left; simpl; eauto|].
  right. exists cfg, attr, b. simpl.
  split; [exact Hfd|]. split; [reflexivity|]. split; [exact Hv|].
  split; [reflexivity|]. split; [exact Hm|]. split; reflexivity.
Qed.

Lemma CreateStaticTunnel_cases (c : Nll2tp.Conn) (localAddr : list Z) (localPort : Z)
  (peerAddr : list Z) (peerPort : Z) (config : option Nll2tp.TunnelConfig) :
  let r := Nll2tp.CreateStaticTunnel N c localAddr localPort peerAddr peerPort config in
  snd r = [] /\
    ((exists e, fst r = Nll2tp.Returned (Some e)) \/
     (fst r = Nll2tp.Panicked "unexpected address length" /\
      exists cfg, config = Some cfg /\
        static_tunnel_checked N localAddr localPort peerAddr peerPort cfg /\
        length localAddr <> 4%nat /\ length localAddr <> 16%nat)) \/
  (exists cfg req,
     config = Some cfg /\
     static_tunnel_checked N localAddr localPort peerAddr peerPort cfg /\
     (length localAddr = 4%nat \/ length localAddr = 16%nat) /\
     Nll2tp.Command req = Nll2tp.CmdTunnelCreate N /\
     snd r = [req] /\ fst r = Nll2tp.Returned (Nll2tp.Execute N req)).
Proof.
  cbv zeta. unfold Nll2tp.CreateStaticTunnel.
  destruct config as [cfg|]; [|left; simpl; eauto].
  destruct (Nat.eqb_spec (length localAddr) 0) as [Hl0|Hl0]; [left; simpl; eauto|].
  destruct (Nat.eqb_spec (length peerAddr) 0) as [Hp0|Hp0]; [left; simpl; eauto|].
  destruct (Nat.eqb_spec (length localAddr) (length peerAddr)) as [Hlen|Hlen];
    [|left; simpl; eauto]. cbn [negb].
  destruct ((Nll2tp.Encap cfg =? Nll2tp.EncaptypeUdp N) && (localPort =? 0)) eqn:Hlp;
    [left; simpl; eauto|].
  destruct ((Nll2tp.Encap cfg =? Nll2tp.EncaptypeUdp N) && (peerPort =? 0)) eqn:Hpp;
    [left; simpl; eauto|].
  destruct (Nll2tp.tunnelCreateAttr N (Some cfg)) as [attr|e] eqn:Hattr;
    [|left; simpl; eauto].
  assert (Hchecked : static_tunnel_checked N localAddr localPort peerAddr peerPort cfg).
  { split.
    { apply tunnelCreateAttr_Ok_iff. rewrite Hattr. exact I. }
    split; [exact Hlen|]. split; [exact Hl0|].
    intros Hu. apply Z.eqb_eq in Hu. rewrite Hu in Hlp, Hpp. simpl in Hlp, Hpp.
    apply Z.eqb_neq in Hlp, Hpp. split; assumption. }
  destruct (Nat.eqb_spec (length localAddr) 4) as [H4|H4].
  { unfold Nll2tp.createTunnel, Nll2tp.execute.
    match goal with |- context [Nll2tp.MarshalAttributes N ?a] =>
      destruct (Nll2tp.MarshalAttributes N a) as [b|e] end;
      [|left; simpl; eauto].
    right. exists cfg, (create_request N c b). simpl.
    split; [reflexivity|]. split; [exact Hchecked|]. split; [tauto|]. repeat split. }
  destruct (Nat.eqb_spec (length localAddr) 16) as [H16|H16].
  { unfold Nll2tp.createTunnel, Nll2tp.execute.
    match goal with |- context [Nll2tp.MarshalAttributes N ?a] =>
      destruct (Nll2tp.MarshalAttributes N a) as [b|e] end;
      [|left; simpl; eauto].
    right. exists cfg, (create_request N c b). simpl.
    split; [reflexivity|]. split; [exact Hchecked|]. split; [tauto|]. repeat split. }
  left. simpl. split; [reflexivity|]. right. split; [reflexivity|].
  exists cfg. split; [reflexivity|]. split; [exact Hchecked|]. split; assumption.
Qed.

(** X28.  [CreateStaticTunnel] sends at most one request to the kernel, and
    it cannot return nil without having sent one: either nothing is sent and
    the call returns an error or panics, or one tunnel-create command is
    sent and the call returns what the kernel answers.  It sends only for a
    valid config, two addresses of the same length, 4 or 16, and, for UDP,
    two ports that are not zero. *)
Theorem CreateStaticTunnel_sends_one_request_or_none (c : Nll2tp.Conn)
  (localAddr : list Z) (localPort : Z) (peerAddr : list Z) (peerPort : Z)
  (config : option Nll2tp.TunnelConfig) :
  let r := Nll2tp.CreateStaticTunnel N c localAddr localPort peerAddr peerPort config in
  (snd r = [] /\ fst r <> Nll2tp.Returned None) \/
  (exists cfg req,
     config = Some cfg /\
     static_tunnel_checked N localAddr localPort peerAddr peerPort cfg /\
     (length localAddr = 4%nat \/ length localAddr = 16%nat) /\
     Nll2tp.Command req = Nll2tp.CmdTunnelCreate N /\
     snd r = [req] /\ fst r = Nll2tp.Returned (Nll2tp.Execute N req)).
Proof.
  cbv zeta.
  destruct (CreateStaticTunnel_cases c localAddr localPort peerAddr peerPort config)
    as [[Hs [[e He]|[Hp _]]]|H]; [left|left|right; exact H];
    (split; [exact Hs|]); [rewrite He | rewrite Hp]; discriminate.
Qed.

(** X29.  [CreateStaticTunnel] panics, with "unexpected address length",
    exactly when everything else is in order (a valid config, ports for UDP)
    and the two addresses have the same length, which is not 0, 4 or 16. *)
Theorem CreateStaticTunnel_panics_iff (c : Nll2tp.Conn)
  (localAddr : list Z) (localPort : Z) (peerAddr : list Z) (peerPort : Z)
  (config : option Nll2tp.TunnelConfig) (msg : string) :
  fst (Nll2tp.CreateStaticTunnel N c localAddr localPort peerAddr peerPort config) =
    Nll2tp.Panicked msg <->
  msg = "unexpected address length" /\
  exists cfg, config = Some cfg /\
    static_tunnel_checked N localAddr localPort peerAddr peerPort cfg /\
    length localAddr <> 4%nat /\ length localAddr <> 16%nat.
Proof.
  split.
  - intros H.
    destruct (CreateStaticTunnel_cases c localAddr localPort peerAddr peerPort config)
      as [[_ [[e He]|[Hp Hc]]]|(cfg & req & _ & _ & _ & _ & _ & He)].
    + rewrite He in H. discriminate.
    + rewrite Hp in H. injection H as <-. split; [reflexivity | exact Hc].
    + rewrite He in H. discriminate.
  - intros (-> & cfg & -> & (Hv & Hlen & Hl0 & Hports) & H4 & H16).
    unfold Nll2tp.CreateStaticTunnel.
    apply Nat.eqb_neq in Hl0 as Hl0'. rewrite Hl0'.
    assert (Hp0 : (length peerAddr =? 0)%nat = false) by (rewrite <- Hlen; exact Hl0').
    rewrite Hp0.
    assert (Heq : (length localAddr =? length peerAddr)%nat = true)
      by (apply Nat.eqb_eq; exact Hlen).
    rewrite Heq. cbn [negb].
    assert (Hlp : (Nll2tp.Encap cfg =? Nll2tp.EncaptypeUdp N) && (localPort =? 0) = false).
    { destruct (Z.eqb_spec (Nll2tp.Encap cfg) (Nll2tp.EncaptypeUdp N)) as [Hu|Hu];
        [|reflexivity]. simpl. apply Z.eqb_neq. exact (proj1 (Hports Hu)). }
    assert (Hpp : (Nll2tp.Encap cfg =? Nll2tp.EncaptypeUdp N) && (peerPort =? 0) = false).
    { destruct (Z.eqb_spec (Nll2tp.Encap cfg) (Nll2tp.EncaptypeUdp N)) as [Hu|Hu];
        [|reflexivity]. simpl. apply Z.eqb_neq. exact (proj2 (Hports Hu)). }
    rewrite Hlp, Hpp.
    apply tunnelCreateAttr_Ok_iff in Hv.
    destruct (Nll2tp.tunnelCreateAttr N (Some cfg)) as [attr|e]; [|destruct Hv].
    apply Nat.eqb_neq in H4, H16. rewrite H4, H16. reflexivity.
Qed.

End NetlinkFacts.
